(** * dash_vendas: the sales dashboard of [app.py]

    A shallow embedding of the data pipeline of [app.py]: [load_data]
    (read, derive, coerce, sort), the sidebar filters, the metric cards, the
    grouped aggregations behind the charts and the CSV export.

    The script leans on pandas and numpy.  Their functions are modelled here
    from their documented behaviour and their sources, in the modules [Py],
    [Pandas] and [Npysort]; the script itself is the module [App], line by
    line, with the options of the multiselects in [Sidebar] and the texts of
    the metric cards in [CardText].

    - Numbers.  The frame-level model ([App]) takes the three numeric
      columns of the CSV file as [float64] columns: their cells are Rocq's
      primitive binary64 floats, so that NaN, the infinities, rounding and
      overflow are those of the running program, and an empty cell is the
      float NaN.  A column whose cells are all whole numbers is read by
      pandas as [int64]; the arithmetic of lines 28-30 on such columns, which
      wraps around, is modelled in [Dtypes], of which the frame-level model
      is the [float64] case.  A cell that does not parse as a number makes
      its column an [object] column; such a cell is a [Text] cell.
    - Sums.  [Series.sum()] is numpy's pairwise sum and the sum of a group is
      pandas' compensated sum.
    - Sorting.  [sort_values] runs with its default kind, 'quicksort'.  The
      properties are proved for every sorting function that rearranges its
      input into order ([Pandas.Quicksort]); the examples are computed with
      numpy's generic routine ([Npysort.aquicksort]).
    - Text.  A [str] is a string of bytes, and letter case is that of the
      ASCII letters.  The columns the script groups and selects by hold a
      text in every row (with a text in some rows of such a column and an
      empty cell in others the script does not get past lines 73-84, where
      [sorted] finds a float among the texts); the client column may have
      empty cells.
    - Dates.  A time stamp is a calendar date and a time of day; every row
      has one.
    - Export.  [to_csv] writes through Python's [csv.writer], the numbers
      and time stamps as pandas writes them ([Repr]); [CsvReader] reads a
      CSV text back, after RFC 4180. *)

From Stdlib Require Import List ZArith Bool String Ascii Floats.
From Stdlib Require Import Permutation Sorted Lia.
From Stdlib Require Import DecimalString DecimalN.
Import ListNotations.

#[local] Set Warnings "-inexact-float".
#[local] Open Scope list_scope.

(* ================================================================== *)
(** * binary64 facts used by the pipeline *)
(* ================================================================== *)

Module F64.

(** [Series.fillna(0)] on one cell. *)
Definition fillna0 (x : float) : float := if is_nan x then 0%float else x.

Lemma is_nan_spec x : is_nan x = true <-> Prim2SF x = S754_nan.
Proof.
  unfold is_nan. rewrite eqb_spec. unfold SFeqb.
  destruct (Prim2SF x) as [s|s| |s m e]; simpl; try (destruct s); simpl;
    split; try congruence; try discriminate.
  all: try rewrite Z.compare_refl; try rewrite Pos.compare_cont_refl; simpl;
    try discriminate.
Qed.

Lemma not_nan_spec x : is_nan x = false <-> Prim2SF x <> S754_nan.
Proof.
  rewrite <- is_nan_spec. destruct (is_nan x); split; congruence.
Qed.

Lemma fillna0_not_nan x : is_nan (fillna0 x) = false.
Proof.
  unfold fillna0. destruct (is_nan x) eqn:E; [reflexivity | exact E].
Qed.

Lemma fillna0_id x : is_nan x = false -> fillna0 x = x.
Proof. unfold fillna0. now intros ->. Qed.

Lemma fillna0_nan x : is_nan x = true -> fillna0 x = 0%float.
Proof. unfold fillna0. now intros ->. Qed.

Ltac nan_prop spec :=
  let H := fresh "H" in
  intros H; apply is_nan_spec in H; apply is_nan_spec; rewrite spec, H;
  try reflexivity;
  match goal with |- context [Prim2SF ?y] => now destruct (Prim2SF y) end.

Lemma mul_nan_l x y : is_nan x = true -> is_nan (x * y) = true.
Proof. nan_prop mul_spec. Qed.

Lemma mul_nan_r x y : is_nan y = true -> is_nan (x * y) = true.
Proof. nan_prop mul_spec. Qed.

Lemma sub_nan_l x y : is_nan x = true -> is_nan (x - y) = true.
Proof. nan_prop sub_spec. Qed.

Lemma sub_nan_r x y : is_nan y = true -> is_nan (x - y) = true.
Proof. nan_prop sub_spec. Qed.

Lemma div_nan_l x y : is_nan x = true -> is_nan (x / y) = true.
Proof. nan_prop div_spec. Qed.

Lemma div_nan_r x y : is_nan y = true -> is_nan (x / y) = true.
Proof. nan_prop div_spec. Qed.

Lemma eqb_nan_l x y : is_nan x = true -> (x =? y)%float = false.
Proof.
  intros H; apply is_nan_spec in H. now rewrite eqb_spec, H.
Qed.

Lemma eqb_refl x : is_nan x = false -> (x =? x)%float = true.
Proof. unfold is_nan. now destruct (x =? x)%float. Qed.

(** [0 / y] is a zero as soon as [y] is a number other than zero. *)
Lemma zero_div y :
  is_nan y = false -> (y =? 0)%float = false -> (0 / y =? 0)%float = true.
Proof.
  intros Hn Hz. apply not_nan_spec in Hn.
  rewrite eqb_spec in Hz. rewrite eqb_spec, div_spec.
  change (Prim2SF 0) with (S754_zero false) in *.
  unfold SFeqb, SF64div, SFdiv in *.
  destruct (Prim2SF y) as [s|s| |s m e]; simpl in *; try congruence; reflexivity.
Qed.

Lemma zero_div_r y :
  is_nan y = false -> (y =? 0)%float = false -> (0 =? 0 / y)%float = true.
Proof.
  intros Hn Hz. apply not_nan_spec in Hn.
  rewrite eqb_spec in Hz. rewrite eqb_spec, div_spec.
  change (Prim2SF 0) with (S754_zero false) in *.
  unfold SFeqb, SF64div, SFdiv in *.
  destruct (Prim2SF y) as [s|s| |s m e]; simpl in *; try congruence; reflexivity.
Qed.

(** [0 * y] is a zero unless it is NaN ([y] infinite or NaN). *)
Lemma zero_mul y : is_nan (0 * y) = false -> (0 * y =? 0)%float = true.
Proof.
  intros Hn. apply not_nan_spec in Hn.
  rewrite mul_spec in Hn. rewrite eqb_spec, mul_spec.
  change (Prim2SF 0) with (S754_zero false) in *.
  unfold SFeqb, SF64mul, SFmul in *.
  destruct (Prim2SF y) as [s|s| |s m e]; simpl in *; try congruence; reflexivity.
Qed.

(** [<=] is a total preorder on the floats that are not NaN. *)
Lemma SFleb_total x y :
  x <> S754_nan -> y <> S754_nan -> SFleb x y = true \/ SFleb y x = true.
Proof.
  intros Hx Hy. unfold SFleb.
  destruct x as [sx|sx| |sx mx ex], y as [sy|sy| |sy my ey]; try congruence; simpl;
    try destruct sx; try destruct sy; simpl; auto.
  all: change (Pos.compare_cont Eq) with Pos.compare;
    destruct (Z.compare_spec ex ey), (Z.compare_spec ey ex); simpl; auto; try lia;
    destruct (Pos.compare_spec mx my), (Pos.compare_spec my mx); simpl; auto; lia.
Qed.

Lemma SFleb_trans x y z :
  SFleb x y = true -> SFleb y z = true -> SFleb x z = true.
Proof.
  unfold SFleb.
  destruct x as [sx|sx| |sx mx ex], y as [sy|sy| |sy my ey],
           z as [sz|sz| |sz mz ez]; simpl;
    try destruct sx; try destruct sy; try destruct sz; simpl;
    try congruence; auto.
  all: change (Pos.compare_cont Eq) with Pos.compare;
    destruct (Z.compare_spec ex ey), (Z.compare_spec ey ez),
             (Z.compare_spec ex ez); simpl; try congruence; try lia;
    destruct (Pos.compare_spec mx my), (Pos.compare_spec my mz),
             (Pos.compare_spec mx mz); simpl; try congruence; try lia.
Qed.

Lemma leb_total x y :
  is_nan x = false -> is_nan y = false ->
  (x <=? y)%float = true \/ (y <=? x)%float = true.
Proof.
  intros Hx Hy. rewrite !leb_spec. apply SFleb_total; now apply not_nan_spec.
Qed.

Lemma leb_trans x y z :
  (x <=? y)%float = true -> (y <=? z)%float = true -> (x <=? z)%float = true.
Proof. rewrite !leb_spec. apply SFleb_trans. Qed.

(** A positive float is not zero. *)
Lemma ltb_zero_neq x : (0 <? x)%float = true -> (x =? 0)%float = false.
Proof.
  rewrite ltb_spec, eqb_spec. change (Prim2SF 0) with (S754_zero false).
  unfold SFltb, SFeqb.
  destruct (Prim2SF x) as [s|s| |s m e]; simpl; try discriminate;
    destruct s; simpl; congruence.
Qed.

Lemma is_infinity_spec x :
  is_infinity x = true <-> exists s, Prim2SF x = S754_infinity s.
Proof.
  unfold is_infinity. rewrite eqb_spec, abs_spec.
  change (Prim2SF infinity) with (S754_infinity false).
  unfold SFeqb.
  destruct (Prim2SF x) as [s|s| |s m e]; simpl; split;
    try discriminate; try (intros [s' H]; discriminate); eauto.
Qed.

Lemma is_zero_spec x :
  (x =? 0)%float = true <-> exists s, Prim2SF x = S754_zero s.
Proof.
  rewrite eqb_spec. change (Prim2SF 0) with (S754_zero false).
  unfold SFeqb.
  destruct (Prim2SF x) as [s|s| |s m e]; simpl; split;
    try discriminate; try (intros [s' H]; discriminate); eauto;
    destruct s; discriminate.
Qed.

(** Rounding a nonnegative mantissa never gives NaN. *)
Section Round.
Variables prec emax : Z.

Lemma shr_1_nonneg mrs : (0 <= shr_m mrs)%Z -> (0 <= shr_m (shr_1 mrs))%Z.
Proof.
  destruct mrs as [m r s]. simpl.
  destruct m as [|[p|p|]|[p|p|]]; simpl; lia.
Qed.

Lemma iter_shr_1_nonneg p mrs :
  (0 <= shr_m mrs)%Z -> (0 <= shr_m (iter_pos shr_1 p mrs))%Z.
Proof.
  revert mrs. induction p as [p IH|p IH|]; simpl; intros mrs H.
  - apply IH, IH, shr_1_nonneg, H.
  - apply IH, IH, H.
  - apply shr_1_nonneg, H.
Qed.

Lemma shr_fexp_nonneg m e l :
  (0 <= m)%Z -> (0 <= shr_m (fst (shr_fexp prec emax m e l)))%Z.
Proof.
  intros H. unfold shr_fexp, shr.
  assert (H0 : (0 <= shr_m (shr_record_of_loc m l))%Z).
  { destruct l as [|[ | | ]]; simpl; exact H. }
  destruct (fexp prec emax (Zdigits2 m + e) - e)%Z; simpl; auto.
  now apply iter_shr_1_nonneg.
Qed.

Lemma round_nearest_even_nonneg m l : (0 <= m)%Z -> (0 <= round_nearest_even m l)%Z.
Proof.
  intros H. destruct l as [|[ | | ]]; simpl; try lia.
  destruct (Z.even m); lia.
Qed.

Lemma binary_round_aux_not_nan sx mx ex lx :
  (0 <= mx)%Z -> binary_round_aux prec emax sx mx ex lx <> S754_nan.
Proof.
  intros H. unfold binary_round_aux.
  pose proof (shr_fexp_nonneg mx ex lx H) as H1.
  destruct (shr_fexp prec emax mx ex lx) as [mrs' e']. simpl in H1.
  pose proof (shr_fexp_nonneg _ e' loc_Exact
                (round_nearest_even_nonneg _ (loc_of_shr_record mrs') H1)) as H2.
  destruct (shr_fexp prec emax _ e' loc_Exact) as [mrs'' e'']. simpl in H2.
  destruct (shr_m mrs'') as [|m|m]; try discriminate; [|lia].
  destruct (e'' <=? emax - prec)%Z; discriminate.
Qed.

Lemma SFdiv_finite_not_nan sx mx ex sy my ey :
  SFdiv prec emax (S754_finite sx mx ex) (S754_finite sy my ey) <> S754_nan.
Proof.
  unfold SFdiv, SFdiv_core_binary.
  set (m' := match _ with Zpos _ => _ | Z0 => _ | Zneg _ => _ end).
  assert (Hm : (0 <= m')%Z).
  { subst m'. destruct (_ - _ - _)%Z; try lia.
    apply Z.shiftl_nonneg. lia. }
  pose proof (Z_div_mod m' (Zpos my) eq_refl) as Hd.
  destruct (Z.div_eucl m' (Zpos my)) as [q r].
  apply binary_round_aux_not_nan.
  destruct Hd as [Hq Hr]. nia.
Qed.

End Round.

Lemma div_nan_inv x y :
  is_nan (x / y) = true ->
  is_nan x = true \/ is_nan y = true
  \/ (is_infinity x = true /\ is_infinity y = true)
  \/ ((x =? 0)%float = true /\ (y =? 0)%float = true).
Proof.
  rewrite !is_nan_spec, !is_infinity_spec, !is_zero_spec, div_spec.
  unfold SF64div.
  destruct (Prim2SF x) as [sx|sx| |sx mx ex] eqn:Ex,
           (Prim2SF y) as [sy|sy| |sy my ey] eqn:Ey;
    try (simpl; discriminate); eauto 8.
  intros H. now apply SFdiv_finite_not_nan in H.
Qed.

End F64.

(* ================================================================== *)
(** * Python: exceptions, strings, dates *)
(* ================================================================== *)

Module Py.

(** The exceptions the pipeline can meet. *)
Inductive exn : Set :=
| FileNotFoundError   (* open() of a missing file *)
| ParserError         (* read_csv on a file that is not a table *)
| KeyError            (* df[name] for a column the frame lacks *)
| ValueError          (* to_datetime on a text that is no date *)
| TypeError           (* arithmetic on a str *)
| ZeroDivisionError.  (* float division by zero *)

Inductive exn_class : Set := FileNotFoundError_cls | Exception_cls.

(** [isinstance(e, cls)]: every exception above derives from [Exception]. *)
Definition isinstance (e : exn) (cls : exn_class) : bool :=
  match cls, e with
  | Exception_cls, _ => true
  | FileNotFoundError_cls, FileNotFoundError => true
  | FileNotFoundError_cls, _ => false
  end.

(** A computation that returns or raises. *)
Inductive res (A : Type) : Type :=
| Ok (a : A)
| Raise (e : exn).
Arguments Ok {A} a.
Arguments Raise {A} e.

Definition bind {A B} (m : res A) (k : A -> res B) : res B :=
  match m with
  | Ok a => k a
  | Raise e => Raise e
  end.

Notation "x <- m ;; k" := (bind m (fun x => k))
  (at level 61, m at next level, right associativity).

(** An elementwise operation over a column: the first failure aborts it. *)
Fixpoint mapM {A B} (f : A -> res B) (l : list A) : res (list B) :=
  match l with
  | [] => Ok []
  | a :: l' => b <- f a ;; bs <- mapM f l' ;; Ok (b :: bs)
  end.

(** [a / b] on Python floats: a zero divisor raises, anything else is the
    binary64 quotient (an overflow gives an infinity, silently). *)
Definition truediv (a b : float) : res float :=
  if (b =? 0)%float then Raise ZeroDivisionError else Ok (a / b)%float.

(** [datetime.date]: compared field by field. *)
Record date : Set := mkdate { year : Z; month : Z; day : Z }.

Definition date_leb (a b : date) : bool :=
  (year a <? year b)%Z
  || ((year a =? year b)%Z
      && ((month a <? month b)%Z
          || ((month a =? month b)%Z && (day a <=? day b)%Z))).

(** [pandas.Timestamp]: a calendar date and the nanoseconds since its
    midnight. *)
Record Timestamp : Set := mkts { date_of : date; nanos : Z }.

Definition ts_eqb (a b : Timestamp) : bool :=
  (year (date_of a) =? year (date_of b))%Z
  && (month (date_of a) =? month (date_of b))%Z
  && (day (date_of a) =? day (date_of b))%Z
  && (nanos a =? nanos b)%Z.

Definition ts_leb (a b : Timestamp) : bool :=
  if (year (date_of a) =? year (date_of b))%Z
        && (month (date_of a) =? month (date_of b))%Z
        && (day (date_of a) =? day (date_of b))%Z
  then (nanos a <=? nanos b)%Z
  else date_leb (date_of a) (date_of b).

(** Decimal digits, for [str] of a monthly period. *)
Definition digit (n : Z) : ascii := ascii_of_nat (48 + Z.to_nat (n mod 10)).

Definition pad2 (n : Z) : string :=
  String (digit (n / 10)) (String (digit n) EmptyString).

Definition pad4 (n : Z) : string :=
  String (digit (n / 1000)) (String (digit (n / 100)) (pad2 n)).

(** [str(ts.to_period('M'))], as in '2023-01'. *)
Definition period_M_str (t : Timestamp) : string :=
  (pad4 (year (date_of t)) ++ "-" ++ pad2 (month (date_of t)))%string.

(** [str.lower] on the ASCII letters. *)
Definition lower (c : ascii) : ascii :=
  let n := nat_of_ascii c in
  if (65 <=? n)%nat && (n <=? 90)%nat then ascii_of_nat (n + 32) else c.

(** Lexicographic [<=] on [str], by code unit. *)
Fixpoint str_leb (a b : string) : bool :=
  match a, b with
  | EmptyString, _ => true
  | String _ _, EmptyString => false
  | String x a', String y b' =>
      if (nat_of_ascii x <? nat_of_ascii y)%nat then true
      else if (nat_of_ascii x =? nat_of_ascii y)%nat then str_leb a' b'
      else false
  end.

End Py.

(* ================================================================== *)
(** * pandas and numpy, as far as the script calls them *)
(* ================================================================== *)

Module Pandas.
Import Py F64.

(** ** Cells *)

(** A cell of a numeric column, as [read_csv] delivers it: a float (NaN for
    an empty cell), or the text of a cell that is no number. *)
Inductive cell : Set :=
| Num (x : float)
| Text (s : string).

(** A cell of the date column: a text [to_datetime] can read, given by the
    time stamp it reads, or a text it cannot. *)
Inductive date_cell : Set :=
| Date (t : Timestamp)
| NoDate (s : string).

(** [pd.to_datetime], on one cell. *)
Definition to_datetime (c : date_cell) : res Timestamp :=
  match c with
  | Date t => Ok t
  | NoDate _ => Raise ValueError
  end.

(** [a * b] between two columns, on one pair of cells, when one column at
    least is a [float64] column: float64 cells are multiplied, and a [str]
    cell times a float raises [TypeError].  (Between two [int64] columns the
    product is that of [Dtypes.series_mul].) *)
Definition mul (a b : cell) : res float :=
  match a, b with
  | Num x, Num y => Ok (x * y)%float
  | _, _ => Raise TypeError
  end.

(** [pd.to_numeric(..., errors='coerce')], on one cell: what does not parse
    becomes NaN. *)
Definition to_numeric_coerce (c : cell) : float :=
  match c with
  | Num x => x
  | Text _ => nan
  end.

(** ** Sorting

    [sort_values] is called without [kind], so numpy's default 'quicksort'
    orders the rows.  pandas documents 'mergesort' and 'stable' as the only
    stable kinds: what the script can rely on is that the rows come back
    rearranged and in order.  A [sorter] takes an order and a list of rows;
    a [Quicksort] is a sorter with that contract, for an order that is total
    and transitive on the rows at hand. *)

Definition sorter : Type :=
  forall A : Type, (A -> A -> bool) -> list A -> list A.

Record Quicksort : Type := {
  qsort :> sorter;
  qsort_perm : forall A (leb : A -> A -> bool) (l : list A),
      Permutation (qsort A leb l) l;
  qsort_sorted : forall A (leb : A -> A -> bool) (l : list A),
      (forall x y, In x l -> In y l -> leb x y = true \/ leb y x = true) ->
      (forall x y z, In x l -> In y l -> In z l ->
                     leb x y = true -> leb y z = true -> leb x z = true) ->
      StronglySorted (fun x y => leb x y = true) (qsort A leb l)
}.

(** Straight insertion.  It puts the distinct keys of [groupby] in order,
    and it is the simplest sorter within the contract. *)
Fixpoint insert {A} (leb : A -> A -> bool) (x : A) (l : list A) : list A :=
  match l with
  | [] => [x]
  | y :: l' => if leb x y then x :: l else y :: insert leb x l'
  end.

Fixpoint isort {A} (leb : A -> A -> bool) (l : list A) : list A :=
  match l with
  | [] => []
  | x :: l' => insert leb x (isort leb l')
  end.

(** [nargsort] of pandas, for a float key: the NaN keys are set apart and
    placed last; a descending sort reverses the rows, sorts them ascending
    and reverses the result. *)
Definition nargsort (sort : sorter) {A} (key : A -> float) (ascending : bool)
    (l : list A) : list A :=
  let non_nans := filter (fun r => negb (is_nan (key r))) l in
  let nans := filter (fun r => is_nan (key r)) l in
  let items := if ascending then non_nans else rev non_nans in
  let sorted := sort A (fun a b => (key a <=? key b)%float) items in
  (if ascending then sorted else rev sorted) ++ nans.

(** ** Sums *)

(** numpy's [pairwise_sum] over float64 cells (npy's loops_utils): fewer than
    8 cells are added one by one; a block of at most [PW_BLOCKSIZE] cells is
    added in eight running sums, the cells taken eight at a time, the eight
    sums are added in pairs and the cells left over one by one; a longer
    stretch is cut in two at a multiple of 8 and the sums of the two parts
    are added. *)
Definition add_each (res : float) (a : list float) : float :=
  fold_left (fun r v => (r + v)%float) a res.

Record lanes : Set := mklanes {
  r0 : float; r1 : float; r2 : float; r3 : float;
  r4 : float; r5 : float; r6 : float; r7 : float }.

Fixpoint unrolled (r : lanes) (a : list float) : lanes * list float :=
  match a with
  | a0 :: a1 :: a2 :: a3 :: a4 :: a5 :: a6 :: a7 :: a' =>
      unrolled (mklanes (r0 r + a0) (r1 r + a1) (r2 r + a2) (r3 r + a3)
                        (r4 r + a4) (r5 r + a5) (r6 r + a6) (r7 r + a7)) a'
  | _ => (r, a)
  end.

Definition block_sum (a : list float) : float :=
  match a with
  | a0 :: a1 :: a2 :: a3 :: a4 :: a5 :: a6 :: a7 :: a' =>
      let (r, rest) := unrolled (mklanes a0 a1 a2 a3 a4 a5 a6 a7) a' in
      add_each (((r0 r + r1 r) + (r2 r + r3 r))
                + ((r4 r + r5 r) + (r6 r + r7 r)))%float rest
  | _ => add_each neg_zero a
  end.

Definition PW_BLOCKSIZE : nat := 128.

(** [n2 = n / 2; n2 -= n2 % 8]. *)
Definition cut (n : nat) : nat := n / 2 - (n / 2) mod 8.

(** [depth] bounds the nesting of the cuts; the length of the stretch is
    always enough ([pairwise_sum_long], [pairwise_sum_block]). *)
Fixpoint pairwise (depth : nat) (a : list float) : float :=
  match depth with
  | S depth' =>
      if (PW_BLOCKSIZE <? List.length a)%nat
      then (pairwise depth' (firstn (cut (List.length a)) a)
            + pairwise depth' (skipn (cut (List.length a)) a))%float
      else block_sum a
  | O => block_sum a
  end.

Definition pairwise_sum (a : list float) : float := pairwise (List.length a) a.

(** [Series.sum()] on a float64 column: pandas' [nansum] puts 0 in the place
    of the NaN cells and calls [ndarray.sum], which adds the pairwise sum of
    the column to the identity of addition. *)
Definition series_sum (vals : list float) : float :=
  (0 + pairwise_sum (map fillna0 vals))%float.

(** The sum of one group in [groupby(...).sum()]: pandas adds the cells of a
    group with a running compensation (Kahan), skipping NaN cells. *)
Definition kahan_step (acc : float * float) (val : float) : float * float :=
  let (sumx, comp) := acc in
  if is_nan val then acc
  else
    let y := (val - comp)%float in
    let t := (sumx + y)%float in
    let c := (t - sumx - y)%float in
    (t, if is_nan c then 0%float else c).

Definition group_sum (vals : list float) : float :=
  fst (fold_left kahan_step vals (0%float, 0%float)).

(** ** Grouping *)

(** The distinct values of a column, in order of first appearance. *)
Fixpoint uniques {K} (eqb : K -> K -> bool) (l : list K) : list K :=
  match l with
  | [] => []
  | k :: l' => k :: filter (fun k' => negb (eqb k' k)) (uniques eqb l')
  end.

(** [df.groupby(key)]: one group per distinct key, the groups in ascending
    key order ([sort=True]), each group holding its rows in frame order. *)
Definition groupby {R K} (eqb leb : K -> K -> bool) (key : R -> K)
    (df : list R) : list (K * list R) :=
  map (fun k => (k, filter (fun r => eqb (key r) k) df))
      (isort leb (uniques eqb (map key df))).

(** [df.groupby(key)] on a column that may have missing cells: with the
    default [dropna=True] the rows whose key is missing are left out of every
    group.  On a column that has none this is [groupby]. *)
Fixpoint dropna {K} (l : list (option K)) : list K :=
  match l with
  | [] => []
  | Some k :: l' => k :: dropna l'
  | None :: l' => dropna l'
  end.

Definition present {K} (x : option K) : bool :=
  match x with Some _ => true | None => false end.

Definition has_key {K} (eqb : K -> K -> bool) (k : K) (x : option K) : bool :=
  match x with Some k' => eqb k' k | None => false end.

Definition groupby_dropna {R K} (eqb leb : K -> K -> bool) (key : R -> option K)
    (df : list R) : list (K * list R) :=
  map (fun k => (k, filter (fun r => has_key eqb k (key r)) df))
      (isort leb (uniques eqb (dropna (map key df)))).

(** [df.groupby(key)[col].sum().reset_index()]. *)
Definition groupby_sum {R K} (eqb leb : K -> K -> bool) (key : R -> K)
    (col : R -> float) (df : list R) : list (K * float) :=
  map (fun g => (fst g, group_sum (map col (snd g)))) (groupby eqb leb key df).

(** [df.head(n)]. *)
Definition head {A} (n : nat) (l : list A) : list A := firstn n l.

(** [Series.isin(values)], on one cell. *)
Definition isin {K} (eqb : K -> K -> bool) (values : list K) (x : K) : bool :=
  existsb (eqb x) values.

(** ** Text search

    [Series.str.contains(pat, case=False, na=False)] keeps its default
    [regex=True]: [pat] is compiled as a regular expression with
    [re.IGNORECASE] and searched in each cell.  The model covers the patterns
    made of ordinary characters and the wildcard '.'; a pattern that uses any
    other metacharacter is outside it. *)

Inductive atom : Set :=
| Lit (c : ascii)   (* an ordinary character *)
| AnyChar.          (* '.': any character but a newline *)

Definition is_meta (c : ascii) : bool :=
  existsb (Ascii.eqb c)
    (list_ascii_of_string "^$*+?{}[]\|()").

Fixpoint re_compile (pat : string) : option (list atom) :=
  match pat with
  | EmptyString => Some []
  | String c pat' =>
      if is_meta c then None
      else
        match re_compile pat' with
        | None => None
        | Some p => Some ((if Ascii.eqb c "."%char then AnyChar else Lit c) :: p)
        end
  end.

Definition atom_matches (a : atom) (c : ascii) : bool :=
  match a with
  | Lit x => Ascii.eqb (lower x) (lower c)
  | AnyChar => negb (Ascii.eqb c (ascii_of_nat 10))
  end.

(** The pattern matches at the start of [s]. *)
Fixpoint re_match (p : list atom) (s : string) : bool :=
  match p, s with
  | [], _ => true
  | _ :: _, EmptyString => false
  | a :: p', String c s' => atom_matches a c && re_match p' s'
  end.

(** [regex.search(s) is not None]. *)
Fixpoint re_search (p : list atom) (s : string) : bool :=
  re_match p s
  || match s with
     | EmptyString => false
     | String _ s' => re_search p s'
     end.

(** One cell of [str.contains(pat, case=False, na=False)]: a missing cell
    gives [na]. *)
Definition str_contains (p : list atom) (x : option string) : bool :=
  match x with
  | None => false
  | Some s => re_search p s
  end.

(** The plain test the pattern-free reading would make:
    [pat.upper() in s.upper()]. *)
Fixpoint is_prefix_ci (pat s : string) : bool :=
  match pat, s with
  | EmptyString, _ => true
  | String _ _, EmptyString => false
  | String a pat', String c s' =>
      Ascii.eqb (lower a) (lower c) && is_prefix_ci pat' s'
  end.

Fixpoint is_substring_ci (pat s : string) : bool :=
  is_prefix_ci pat s
  || match s with
     | EmptyString => false
     | String _ s' => is_substring_ci pat s'
     end.

End Pandas.

(* ================================================================== *)
(** * app.py *)
(* ================================================================== *)

Module App.
Import Py F64 Pandas.

(** ** 1) Reading and preparing the data *)

(** A line of [vendas2018_2023.csv], as [read_csv] delivers it. *)
Record RawRow : Set := {
  raw_data_venda : date_cell;
  raw_cliente : option string;   (* None: an empty cell *)
  raw_vendedor : string;
  raw_produto : string;
  raw_categoria : string;
  raw_fornecedor : string;
  raw_quantidade : cell;
  raw_valor_venda : cell;
  raw_valor_custo : cell
}.

(** What the file system holds under the name of the CSV file. *)
Inductive Source : Set :=
| NoFile                        (* no such file *)
| NotATable                     (* a file read_csv cannot parse *)
| Table (rows : list RawRow).

Definition read_csv (src : Source) : res (list RawRow) :=
  match src with
  | NoFile => Raise FileNotFoundError
  | NotATable => Raise ParserError
  | Table rows => Ok rows
  end.

(** A row of the prepared frame. *)
Record Row : Set := {
  data_venda : Timestamp;
  cliente : option string;
  vendedor : string;
  produto : string;
  categoria : string;
  fornecedor : string;
  quantidade : float;
  valor_venda : float;
  valor_custo : float;
  ano : Z;
  mes : Z;
  mes_ano : string;
  faturamento : float;
  custo_total : float;
  lucro : float;
  margem_pct : float
}.

Definition Frame : Set := list Row.

(** A row after lines 19-36: the date parsed and the derived columns
    computed, the numeric columns not yet coerced. *)
Record Derived : Set := {
  d_raw : RawRow;
  d_data_venda : Timestamp;
  d_faturamento : float;
  d_custo_total : float;
  d_lucro : float;
  d_margem_pct : float
}.

(** Lines 33-36, the lambda given to [df.apply(..., axis=1)]:
    [(x['lucro'] / x['faturamento']) if x['faturamento'] != 0 else 0.0]. *)
Definition margem_lambda (x_lucro x_faturamento : float) : res float :=
  if negb (x_faturamento =? 0)%float then truediv x_lucro x_faturamento
  else Ok 0%float.

(** Lines 19-36 on one row.  pandas works column by column; every step is
    elementwise and a failure on any row aborts [load_data] the same way, so
    the rows are taken one at a time here. *)
Definition derive (r : RawRow) : res Derived :=
  t <- to_datetime (raw_data_venda r) ;;                        (* line 19 *)
  fat <- mul (raw_quantidade r) (raw_valor_venda r) ;;          (* line 28 *)
  custo <- mul (raw_quantidade r) (raw_valor_custo r) ;;        (* line 29 *)
  let lucro := (fat - custo)%float in                           (* line 30 *)
  m <- margem_lambda lucro fat ;;                               (* lines 33-36 *)
  Ok {| d_raw := r; d_data_venda := t; d_faturamento := fat;
        d_custo_total := custo; d_lucro := lucro; d_margem_pct := m |}.

(** Line 41: [pd.to_numeric(df[col], errors='coerce').fillna(0)]. *)
Definition coerce (c : cell) : float := fillna0 (to_numeric_coerce c).

(** Lines 22-25 and 39-41 on one row: the calendar columns, and the loop
    over [cols_num]. *)
Definition numeric (d : Derived) : Row :=
  let r := d_raw d in
  {| data_venda := d_data_venda d;
     cliente := raw_cliente r;
     vendedor := raw_vendedor r;
     produto := raw_produto r;
     categoria := raw_categoria r;
     fornecedor := raw_fornecedor r;
     quantidade := coerce (raw_quantidade r);
     valor_venda := coerce (raw_valor_venda r);
     valor_custo := coerce (raw_valor_custo r);
     ano := year (date_of (d_data_venda d));
     mes := month (date_of (d_data_venda d));
     mes_ano := period_M_str (d_data_venda d);
     faturamento := coerce (Num (d_faturamento d));
     custo_total := coerce (Num (d_custo_total d));
     lucro := coerce (Num (d_lucro d));
     margem_pct := coerce (Num (d_margem_pct d)) |}.

Definition by_data_venda (a b : Row) : bool :=
  ts_leb (data_venda a) (data_venda b).

(** The body of the [try] (lines 16-43). *)
Definition load_data_body (sort : sorter) (src : Source) : res Frame :=
  df <- read_csv src ;;
  ds <- mapM derive df ;;
  Ok (sort Row by_data_venda (map numeric ds)).   (* line 43 *)

(** What the page shows through [st.error] and [st.warning]. *)
Inductive message : Set :=
| error_file_not_found   (* "Arquivo 'vendas2018_2023.csv' nao encontrado. ..." *)
| error_loading          (* "Erro ao carregar dados: ..." *)
| warning_no_data        (* "Nenhum dado encontrado com os filtros selecionados." *)
| warning_negative_profit. (* "Existem categorias com lucro negativo, ..." *)

(** [load_data] (lines 12-49): the frame it returns and the messages it
    shows, or the exception that leaves it. *)
Definition load_data (sort : sorter) (src : Source)
  : res (Frame * list message) :=
  match load_data_body sort src with
  | Ok df => Ok (df, [])
  | Raise e =>
      if isinstance e FileNotFoundError_cls then Ok ([], [error_file_not_found])
      else if isinstance e Exception_cls then Ok ([], [error_loading])
      else Raise e
  end.

(** ** 2) Filters *)

(** The state of the sidebar widgets. *)
Record Criteria : Set := {
  start_date : date;
  end_date : date;
  selected_years : list Z;
  selected_cats : list string;
  selected_sellers : list string;
  selected_suppliers : list string;
  selected_products : list string;
  client_search : string
}.

(** Line 92. *)
Definition mask_date (c : Criteria) (r : Row) : bool :=
  date_leb (start_date c) (date_of (data_venda r))
  && date_leb (date_of (data_venda r)) (end_date c).

(** [if selected: df = df[df[col].isin(selected)]]: an empty list is falsy. *)
Definition keep_selected {K} (eqb : K -> K -> bool) (selected : list K)
    (col : Row -> K) (df : Frame) : Frame :=
  match selected with
  | [] => df
  | _ :: _ => filter (fun r => isin eqb selected (col r)) df
  end.

(** Lines 92-112.  [None]: the search text uses regular-expression syntax
    outside the modelled patterns. *)
Definition df_filtered (c : Criteria) (df_raw : Frame) : option Frame :=
  let df := filter (mask_date c) df_raw in
  let df := keep_selected Z.eqb (selected_years c) ano df in
  let df := keep_selected String.eqb (selected_cats c) categoria df in
  let df := keep_selected String.eqb (selected_sellers c) vendedor df in
  let df := keep_selected String.eqb (selected_suppliers c) fornecedor df in
  let df := keep_selected String.eqb (selected_products c) produto df in
  match client_search c with
  | EmptyString => Some df
  | pat =>
      match re_compile pat with
      | None => None
      | Some p => Some (filter (fun r => str_contains p (cliente r)) df)
      end
  end.

(** ** 3) Metric cards (lines 126-131) *)

Record Metrics : Set := {
  total_faturamento : float;
  total_lucro : float;
  margem_global : float;
  total_qtd : float;
  num_vendas : nat;
  ticket_medio : float
}.

(** [len(df)] as the float it becomes in [total_faturamento / num_vendas]. *)
Definition float_of_len (n : nat) : float :=
  of_uint63 (Uint63.of_Z (Z.of_nat n)).

(** The totals are numpy float64 scalars, and so are their quotients: a zero
    divisor would give NaN or an infinity (with a warning), not an
    exception.  The [0] of the two [else] branches is the float 0. *)
Definition metrics (df : Frame) : Metrics :=
  let total_faturamento := series_sum (map faturamento df) in
  let total_lucro := series_sum (map lucro df) in
  let margem_global :=
    if (0 <? total_faturamento)%float
    then (total_lucro / total_faturamento)%float else 0%float in
  let total_qtd := series_sum (map quantidade df) in
  let num_vendas := List.length df in
  let ticket_medio :=
    if (0 <? num_vendas)%nat
    then (total_faturamento / float_of_len num_vendas)%float else 0%float in
  {| total_faturamento := total_faturamento; total_lucro := total_lucro;
     margem_global := margem_global; total_qtd := total_qtd;
     num_vendas := num_vendas; ticket_medio := ticket_medio |}.

(** ** 4) The aggregations behind the charts *)

Definition by_key {K} (leb : K -> K -> bool) (a b : K * float) : bool :=
  leb (fst a) (fst b).

(** Lines 157 and 193: [groupby('mes_ano')[col].sum().reset_index()
    .sort_values('mes_ano')]. *)
Definition por_mes (sort : sorter) (col : Row -> float) (df : Frame)
  : list (string * float) :=
  sort _ (by_key str_leb) (groupby_sum String.eqb str_leb mes_ano col df).

Definition fat_por_mes (sort : sorter) := por_mes sort faturamento.
Definition lucro_por_mes (sort : sorter) := por_mes sort lucro.

(** Lines 164, 172 and 209: [groupby(key)['faturamento'].sum().reset_index()
    .sort_values('faturamento', ascending=False).head(10)]. *)
Definition top10 (sort : sorter) (key : Row -> string) (df : Frame)
  : list (string * float) :=
  head 10 (nargsort sort snd false
             (groupby_sum String.eqb str_leb key faturamento df)).

Definition fat_por_cat (sort : sorter) := top10 sort categoria.
Definition fat_por_vend (sort : sorter) := top10 sort vendedor.
Definition fat_por_prod (sort : sorter) := top10 sort produto.

(** Lines 180 and 203. *)
Definition lucro_por_cat (df : Frame) : list (string * float) :=
  groupby_sum String.eqb str_leb categoria lucro df.

Definition fat_cat_share (df : Frame) : list (string * float) :=
  groupby_sum String.eqb str_leb categoria faturamento df.

(** Line 183: [(lucro_por_cat['lucro'] < 0).any()]. *)
Definition has_negative (g : list (string * float)) : bool :=
  existsb (fun kv => (snd kv <? 0)%float) g.

(** Line 217: the key is the pair (ano, categoria). *)
Definition pair_eqb (a b : Z * string) : bool :=
  (fst a =? fst b)%Z && String.eqb (snd a) (snd b).

Definition pair_leb (a b : Z * string) : bool :=
  (fst a <? fst b)%Z || ((fst a =? fst b)%Z && str_leb (snd a) (snd b)).

Definition fat_ano_cat (df : Frame) : list ((Z * string) * float) :=
  groupby_sum pair_eqb pair_leb (fun r => (ano r, categoria r)) faturamento df.

(** ** 5) The detail table and its export (lines 228-236) *)

(** A cell of the frame, whatever its column. *)
Inductive value : Set :=
| VTime (t : Timestamp)
| VStr (s : option string)
| VInt (n : Z)
| VFloat (x : float).

(** [df[name]] on one row; no value for a name the frame lacks. *)
Definition column (name : string) (r : Row) : option value :=
  if String.eqb name "data_venda" then Some (VTime (data_venda r))
  else if String.eqb name "cliente" then Some (VStr (cliente r))
  else if String.eqb name "vendedor" then Some (VStr (Some (vendedor r)))
  else if String.eqb name "produto" then Some (VStr (Some (produto r)))
  else if String.eqb name "categoria" then Some (VStr (Some (categoria r)))
  else if String.eqb name "fornecedor" then Some (VStr (Some (fornecedor r)))
  else if String.eqb name "quantidade" then Some (VFloat (quantidade r))
  else if String.eqb name "valor_venda" then Some (VFloat (valor_venda r))
  else if String.eqb name "valor_custo" then Some (VFloat (valor_custo r))
  else if String.eqb name "ano" then Some (VInt (ano r))
  else if String.eqb name "mes" then Some (VInt (mes r))
  else if String.eqb name "mes_ano" then Some (VStr (Some (mes_ano r)))
  else if String.eqb name "faturamento" then Some (VFloat (faturamento r))
  else if String.eqb name "custo_total" then Some (VFloat (custo_total r))
  else if String.eqb name "lucro" then Some (VFloat (lucro r))
  else if String.eqb name "margem_pct" then Some (VFloat (margem_pct r))
  else None.

(** A frame cut down to some columns: their names and, row by row, their
    cells. *)
Record Selection : Set := { columns : list string; body : list (list value) }.

Definition select_row (names : list string) (r : Row) : res (list value) :=
  mapM (fun name => match column name r with
                    | Some v => Ok v
                    | None => Raise KeyError
                    end) names.

(** [df[names]]. *)
Definition getitem (names : list string) (df : Frame) : res Selection :=
  rows <- mapM (select_row names) df ;;
  Ok {| columns := names; body := rows |}.

Definition cols_view : list string :=
  ["data_venda"; "cliente"; "vendedor"; "produto"; "categoria"; "fornecedor";
   "quantidade"; "valor_venda"; "valor_custo"; "faturamento"; "lucro";
   "margem_pct"]%string.

(** Line 229. *)
Definition df_display (df : Frame) : res Selection := getitem cols_view df.

(** [os.linesep], the default of [to_csv]'s [lineterminator]. *)
Inductive OS : Set := posix | nt.

Definition LF : ascii := ascii_of_nat 10.
Definition CR : ascii := ascii_of_nat 13.

Definition linesep (os : OS) : string :=
  match os with
  | posix => String LF EmptyString
  | nt => String CR (String LF EmptyString)
  end.

(** How pandas writes a number and a time stamp as text ([repr] of a float,
    the ISO form of a time stamp, the decimal digits of an integer). *)
Record Formats : Type := {
  fmt_float : float -> string;
  fmt_time : Timestamp -> string;
  fmt_int : Z -> string
}.

(** The text of a cell in the export: a text cell is written as it is, and a
    missing value, NaN included, as nothing (the default [na_rep]). *)
Definition cell_text (fmt : Formats) (v : value) : string :=
  match v with
  | VTime t => fmt_time fmt t
  | VStr (Some s) => s
  | VStr None => EmptyString
  | VInt n => fmt_int fmt n
  | VFloat x => if is_nan x then EmptyString else fmt_float fmt x
  end.

(** [DataFrame.to_csv(index=False)] writes through Python's [csv.writer] with
    [QUOTE_MINIMAL]: a header line with the column names, then one line per
    row; the fields of a line are separated by commas; a field is put in
    double quotes, its own double quotes doubled, when it holds a comma, a
    double quote or a character of the line terminator [nl]. *)
Definition dquote : ascii := ascii_of_nat 34.

Definition needs_quotes (nl : string) (s : string) : bool :=
  existsb (fun c => Ascii.eqb c ","%char || Ascii.eqb c dquote
                    || existsb (Ascii.eqb c) (list_ascii_of_string nl))
          (list_ascii_of_string s).

Fixpoint double_quotes (s : string) : string :=
  match s with
  | EmptyString => EmptyString
  | String c s' =>
      if Ascii.eqb c dquote then String dquote (String dquote (double_quotes s'))
      else String c (double_quotes s')
  end.

Definition quote_minimal (nl : string) (s : string) : string :=
  if needs_quotes nl s
  then String dquote (double_quotes s ++ String dquote EmptyString)%string
  else s.

Definition csv_line (nl : string) (fields : list string) : string :=
  String.concat "," (map (quote_minimal nl) fields).

Definition csv_lines (fmt : Formats) (nl : string) (t : Selection) : list string :=
  csv_line nl (columns t)
  :: map (fun row => csv_line nl (map (cell_text fmt) row)) (body t).

Definition to_csv (fmt : Formats) (nl : string) (t : Selection) : string :=
  String.concat EmptyString
    (map (fun line => (line ++ nl)%string) (csv_lines fmt nl t)).

(** Line 236 (the bytes of a [string] are its UTF-8 encoding). *)
Definition csv (fmt : Formats) (nl : string) (df : Frame) : res string :=
  t <- df_display df ;;
  Ok (to_csv fmt nl t).

(** ** The script, from top to bottom *)

Record Page : Set := {
  cards : Metrics;
  chart_fat_por_mes : list (string * float);
  chart_fat_por_cat : list (string * float);
  chart_fat_por_vend : list (string * float);
  chart_lucro_por_cat : list (string * float);
  lucro_negativo : bool;
  chart_lucro_por_mes : list (string * float);
  chart_fat_cat_share : list (string * float);
  chart_fat_por_prod : list (string * float);
  chart_fat_ano_cat : list ((Z * string) * float);
  download : string
}.

Inductive outcome : Set :=
| Stopped (shown : list message)            (* st.stop() *)
| Shown (shown : list message) (p : Page)   (* the script ran to its end *)
| Uncaught (e : exn).                       (* an exception left the script *)

Definition is_empty {A} (l : list A) : bool :=
  match l with [] => true | _ :: _ => false end.

(** The page for a frame that kept some rows (lines 123-242). *)
Definition render (sort : sorter) (fmt : Formats) (nl : string)
    (df : Frame) : res Page :=
  text <- csv fmt nl df ;;
  Ok {| cards := metrics df;
        chart_fat_por_mes := fat_por_mes sort df;
        chart_fat_por_cat := fat_por_cat sort df;
        chart_fat_por_vend := fat_por_vend sort df;
        chart_lucro_por_cat := lucro_por_cat df;
        lucro_negativo := has_negative (lucro_por_cat df);
        chart_lucro_por_mes := lucro_por_mes sort df;
        chart_fat_cat_share := fat_cat_share df;
        chart_fat_por_prod := fat_por_prod sort df;
        chart_fat_ano_cat := fat_ano_cat df;
        download := text |}.

(** Line 184: the warning shown with the chart of the profit by category. *)
Definition warnings (p : Page) : list message :=
  if lucro_negativo p then [warning_negative_profit] else [].

(** The script for a state [c] of the sidebar widgets.  [None]: the search
    text is outside the modelled patterns. *)
Definition script (sort : sorter) (fmt : Formats) (nl : string)
    (src : Source) (c : Criteria) : option outcome :=
  match load_data sort src with
  | Raise e => Some (Uncaught e)
  | Ok (df_raw, shown) =>
      if is_empty df_raw then Some (Stopped shown)              (* lines 54-55 *)
      else
        match df_filtered c df_raw with
        | None => None
        | Some df =>
            if is_empty df
            then Some (Stopped (shown ++ [warning_no_data]))    (* lines 119-121 *)
            else
              match render sort fmt nl df with
              | Ok p => Some (Shown (shown ++ warnings p) p)
              | Raise e => Some (Uncaught e)
              end
        end
  end.

End App.

(* ================================================================== *)
(** * app.py: the options of the multiselects (lines 72-84) *)
(* ================================================================== *)

Module Sidebar.
Import Py F64 Pandas App.

(** [sorted(...)]: Python's sort is stable, as straight insertion is. *)
Definition sorted {K} (leb : K -> K -> bool) (l : list K) : list K :=
  isort leb l.

(** Lines 72-75 and 84: [sorted(df_raw[col].unique())]. *)
Definition all_years (df_raw : Frame) : list Z :=
  sorted Z.leb (uniques Z.eqb (map ano df_raw)).

Definition all_cats (df_raw : Frame) : list string :=
  sorted str_leb (uniques String.eqb (map categoria df_raw)).

Definition all_sellers (df_raw : Frame) : list string :=
  sorted str_leb (uniques String.eqb (map vendedor df_raw)).

Definition all_suppliers (df_raw : Frame) : list string :=
  sorted str_leb (uniques String.eqb (map fornecedor df_raw)).

Definition all_products (df_raw : Frame) : list string :=
  sorted str_leb (uniques String.eqb (map produto df_raw)).

End Sidebar.

(* ================================================================== *)
(** * app.py: the texts of the metric cards (lines 135-149) *)
(* ================================================================== *)

Module CardText.
Import Py F64 Pandas App.
#[local] Open Scope string_scope.

(** ** Python's format specifications [,.2f], [.1%] and [,] *)

(** [str(n)] for a whole number that is not negative. *)
Definition digits (n : Z) : string :=
  NilEmpty.string_of_uint (N.to_uint (Z.to_N n)).

(** The grouping option: a separator before every three digits, counted
    from the right.  The digits come last digit first. *)
Fixpoint group3 (sep : ascii) (l : list ascii) : list ascii :=
  match l with
  | a :: b :: c :: rest =>
      match rest with
      | [] => [a; b; c]
      | _ :: _ => a :: b :: c :: sep :: group3 sep rest
      end
  | _ => l
  end.

Definition grouped (sep : ascii) (ds : string) : string :=
  string_of_list_ascii (rev (group3 sep (rev (list_ascii_of_string ds)))).

(** The last [p] digits of [n]. *)
Fixpoint last_digits (p : nat) (n : Z) : string :=
  match p with
  | O => ""
  | S p' => last_digits p' (n / 10) ++ String (digit n) ""
  end.

(** The whole number nearest to [num / den], a tie going to the even one
    ([num] is not negative, [den] is positive). *)
Definition round_half_even (num den : Z) : Z :=
  let q := (num / den)%Z in
  match (2 * (num mod den) ?= den)%Z with
  | Lt => q
  | Gt => (q + 1)%Z
  | Eq => if Z.even q then q else (q + 1)%Z
  end.

(** [m * 2^e * 10^p] as a whole number, correctly rounded: the digits that
    the presentation type 'f' with precision [p] prints. *)
Definition scaled (p : nat) (m : positive) (e : Z) : Z :=
  let n := (Zpos m * 10 ^ Z.of_nat p)%Z in
  if (0 <=? e)%Z then (n * 2 ^ e)%Z else round_half_even n (2 ^ (- e)).

Definition sign_text (negative : bool) : string :=
  if negative then "-" else "".

(** The digits [n] with the point [p] places from the right. *)
Definition fixed_text (tsep : option ascii) (dsep : ascii) (p : nat) (n : Z)
  : string :=
  let whole := digits (n / 10 ^ Z.of_nat p) in
  (match tsep with Some sep => grouped sep whole | None => whole end)
  ++ (if (p =? 0)%nat then "" else String dsep (last_digits p n)).

(** [format(x, '.{p}f')], with the grouping option when [tsep] is given;
    Python writes [tsep] as a comma and [dsep] as a point. *)
Definition format_f_with (tsep : option ascii) (dsep : ascii) (p : nat)
    (x : float) : string :=
  match Prim2SF x with
  | S754_nan => "nan"
  | S754_infinity s => sign_text s ++ "inf"
  | S754_zero s => sign_text s ++ fixed_text tsep dsep p 0
  | S754_finite s m e => sign_text s ++ fixed_text tsep dsep p (scaled p m e)
  end.

(** [f"{x:,.2f}"]. *)
Definition format_comma_2f (x : float) : string :=
  format_f_with (Some ","%char) "."%char 2 x.

(** [f"{x:.1%}"]: the float is multiplied by 100, written with one decimal
    and followed by the percent sign. *)
Definition format_1pct (x : float) : string :=
  format_f_with None "."%char 1 (x * 100)%float ++ "%".

(** [f"{n:,}"] for an [int] that is not negative. *)
Definition format_comma_d (n : nat) : string :=
  grouped ","%char (digits (Z.of_nat n)).

(** [s.replace(old, new)] for one-character [old] and [new]. *)
Fixpoint replace (old new : ascii) (s : string) : string :=
  match s with
  | EmptyString => EmptyString
  | String c s' =>
      String (if Ascii.eqb c old then new else c) (replace old new s')
  end.

(** ** The cards *)

(** Lines 148-149: [format_currency]. *)
Definition format_currency (val : float) : string :=
  "R$ " ++ format_comma_2f val.

(** [.replace(",", "X").replace(".", ",").replace("X", ".")] *)
Definition to_brazilian (s : string) : string :=
  replace "X"%char "."%char
    (replace "."%char ","%char (replace ","%char "X"%char s)).

(** Lines 135, 136 and 140. *)
Definition card_currency (x : float) : string :=
  to_brazilian ("R$ " ++ format_comma_2f x).

(** Line 137. *)
Definition card_margem (m : Metrics) : string := format_1pct (margem_global m).

(** Line 139. *)
Definition card_num_vendas (m : Metrics) : string :=
  replace ","%char "."%char (format_comma_d (num_vendas m)).

(** The cards but the fourth: the text of [total_qtd] (line 138) is the
    [repr] of a float or the digits of an [int64], according to the column
    type pandas inferred. *)
Record Cards : Set := {
  faturamento_total : string;
  lucro_total : string;
  margem_global_pct : string;
  numero_vendas : string;
  ticket : string
}.

Definition card_texts (m : Metrics) : Cards :=
  {| faturamento_total := card_currency (total_faturamento m);
     lucro_total := card_currency (total_lucro m);
     margem_global_pct := card_margem m;
     numero_vendas := card_num_vendas m;
     ticket := card_currency (ticket_medio m) |}.

End CardText.

(* ================================================================== *)
(** * pandas: the text of a cell in a CSV file *)
(* ================================================================== *)

Module Repr.
Import Py F64 Pandas App.
#[local] Open Scope Z_scope.

(** ** Floats

    A float64 column is written with [astype(str)]: for each float the
    shortest decimal that reads back as that float and, among the shortest,
    the nearest to it, laid out as Python's [repr] lays it out. *)

Definition digits (n : Z) : string := CardText.digits n.

(** A positive rational [num * 2^s]; a decimal [d * 10^k].  [cmp] compares
    them exactly. *)
Definition cmp (num s d k : Z) : comparison :=
  (num * 2 ^ Z.max s 0 * 10 ^ Z.max (- k) 0
   ?= d * 10 ^ Z.max k 0 * 2 ^ Z.max (- s) 0).

(** [floor (num * 2^s / 10^k)]. *)
Definition floor_div (num s k : Z) : Z :=
  (num * 2 ^ Z.max s 0 * 10 ^ Z.max (- k) 0)
  / (10 ^ Z.max k 0 * 2 ^ Z.max (- s) 0).

(** [floor (log10 (num * 2^s))]: an estimate from the binary logarithm, put
    right by comparison. *)
Definition floor_log10 (num s : Z) : Z :=
  let est := ((Z.log2 num + s) * 1233) / 4096 in
  let down e := match cmp num s 1 e with Lt => e - 1 | _ => e end in
  let up e := match cmp num s 1 (e + 1) with Lt => e | _ => e + 1 end in
  up (up (down (down est))).

(** The interval of the reals that round to the double [m * 2^e], in units
    of [2^(e-2)]: from [4m - below] to [4m + 2], the ends included when [m]
    is even. *)
Definition below (m e : Z) : Z :=
  if (m =? 2 ^ 52) && (-1074 <? e) then 1 else 2.

Definition rounds_to (m e d k : Z) : bool :=
  let s := e - 2 in
  let lo := cmp (4 * m - below m e) s d k in
  let hi := cmp (4 * m + 2) s d k in
  match lo, hi with
  | Lt, Gt => true
  | Eq, _ => Z.even m
  | _, Eq => Z.even m
  | _, _ => false
  end.

(** Of [d] and [d + 1] at the exponent [k], the one nearer to [m * 2^e]; on
    a tie the even one. *)
Definition nearer (m e d k : Z) : Z :=
  (* compare 2x with (2d+1) * 10^k *)
  match cmp (2 * m) e (2 * d + 1) k with
  | Lt => d
  | Gt => d + 1
  | Eq => if Z.even d then d else d + 1
  end.

(** The shortest decimal that rounds to [m * 2^e], with [n] digits or more:
    its digits as a whole number and its power of ten. *)
Fixpoint shortest (fuel : nat) (m e e10 n : Z) : Z * Z :=
  let k := e10 - n + 1 in
  let d := floor_div m e k in
  match fuel with
  | O => (nearer m e d k, k)
  | S fuel' =>
      let lo_ok := rounds_to m e d k in
      let hi_ok := rounds_to m e (d + 1) k in
      if lo_ok && hi_ok then (nearer m e d k, k)
      else if lo_ok then (d, k)
      else if hi_ok then (d + 1, k)
      else shortest fuel' m e e10 (n + 1)
  end.

Fixpoint strip_zeros (fuel : nat) (d k : Z) : Z * Z :=
  match fuel with
  | O => (d, k)
  | S fuel' => if (d mod 10 =? 0) && (0 <? d) then strip_zeros fuel' (d / 10) (k + 1) else (d, k)
  end.

Definition zeros (n : Z) : string :=
  string_of_list_ascii (repeat "0"%char (Z.to_nat n)).

Definition substring_from (n : Z) (s : string) : string :=
  String.substring (Z.to_nat n) (String.length s - Z.to_nat n) s.

(** [format_float_short] with the code 'r': the digits [ds] with the decimal
    point [decpt] places from their start, in fixed notation when
    [-4 < decpt <= 16] and with an exponent otherwise. *)
Definition layout (ds : string) (decpt : Z) : string :=
  let n := Z.of_nat (String.length ds) in
  if (-4 <? decpt) && (decpt <=? 16) then
    if decpt <=? 0 then ("0." ++ zeros (- decpt) ++ ds)%string
    else if n <=? decpt then (ds ++ zeros (decpt - n) ++ ".0")%string
    else (String.substring 0 (Z.to_nat decpt) ds ++ "."
          ++ substring_from decpt ds)%string
  else
    let x := decpt - 1 in
    let mant := if n =? 1 then ds
                else (String.substring 0 1 ds ++ "." ++ substring_from 1 ds)%string in
    let xs := digits (Z.abs x) in
    let sign := if x <? 0 then "-"%string else "+"%string in
    let pad := if Z.abs x <? 10 then "0"%string else EmptyString in
    (mant ++ "e" ++ sign ++ pad ++ xs)%string.

(** [repr(x)] for a float. *)
Definition float_repr (x : float) : string :=
  match Prim2SF x with
  | S754_nan => "nan"%string
  | S754_infinity s => if s then "-inf"%string else "inf"%string
  | S754_zero s => if s then "-0.0"%string else "0.0"%string
  | S754_finite s m e =>
      let e10 := floor_log10 (Zpos m) e in
      let (d, k) := shortest 17 (Zpos m) e e10 1 in
      let (d, k) := strip_zeros 20 d k in
      let ds := digits d in
      let sign := if s then "-"%string else EmptyString in
      (sign ++ layout ds (k + Z.of_nat (String.length ds)))%string
  end.


(** ** Whole numbers and time stamps *)

(** [str(n)]. *)
Definition int_text (n : Z) : string :=
  if n <? 0 then ("-" ++ digits (- n))%string else digits n.

Definition date_text (d : date) : string :=
  (pad4 (year d) ++ "-" ++ pad2 (month d) ++ "-" ++ pad2 (day d))%string.

(** The last [p] digits of [n]. *)
Fixpoint padded (p : nat) (n : Z) : string :=
  match p with
  | O => EmptyString
  | S p' => (padded p' (n / 10) ++ String (digit n) EmptyString)%string
  end.

(** The resolution of a column of time stamps: the digits of the second's
    fraction that some time stamp of the column needs, by threes. *)
Definition fraction_digits (col : list Timestamp) : nat :=
  if forallb (fun t => nanos t mod 1000000000 =? 0) col then 0%nat
  else if forallb (fun t => nanos t mod 1000000 =? 0) col then 3%nat
  else if forallb (fun t => nanos t mod 1000 =? 0) col then 6%nat
  else 9%nat.

(** A column of time stamps is written by its dates alone when every time
    stamp is a midnight, and otherwise with the time of day, down to the
    resolution of the column. *)
Definition datetime_text (col : list Timestamp) (t : Timestamp) : string :=
  if forallb (fun t => nanos t =? 0) col then date_text (date_of t)
  else
    let secs := nanos t / 1000000000 in
    let p := fraction_digits col in
    (date_text (date_of t) ++ " " ++ pad2 (secs / 3600) ++ ":"
     ++ pad2 (secs / 60 mod 60) ++ ":" ++ pad2 (secs mod 60)
     ++ match p with
        | O => EmptyString
        | _ => String "." (padded p (nanos t mod 1000000000
                                     / 10 ^ Z.of_nat (9 - p)))
        end)%string.

(** The formats of [to_csv] for a frame. *)
Definition pandas_formats (df : Frame) : Formats :=
  {| fmt_float := float_repr;
     fmt_time := datetime_text (map data_venda df);
     fmt_int := int_text |}.

End Repr.

(* ================================================================== *)
(** * Two sorters within the contract of [Quicksort] *)
(* ================================================================== *)

Module Kinds.
Import Pandas.

Section Insertion.
Context {A : Type} (leb : A -> A -> bool).

Let R (x y : A) : Prop := leb x y = true.

Lemma insert_perm x l : Permutation (insert leb x l) (x :: l).
Proof.
  induction l as [|y l IH]; simpl; [reflexivity|].
  destruct (leb x y); [reflexivity|].
  rewrite IH. apply perm_swap.
Qed.

Lemma isort_perm l : Permutation (isort leb l) l.
Proof.
  induction l as [|x l IH]; simpl; [reflexivity|].
  rewrite insert_perm. now constructor.
Qed.

(** [P] marks the elements being sorted: the order has to be total and
    transitive on them only. *)
Variable P : A -> Prop.
Hypothesis total : forall x y, P x -> P y -> R x y \/ R y x.
Hypothesis trans : forall x y z, P x -> P y -> P z -> R x y -> R y z -> R x z.

Lemma insert_sorted x l :
  P x -> Forall P l -> StronglySorted R l -> StronglySorted R (insert leb x l).
Proof.
  intros Px Pl Hs. induction Hs as [|y l Hs IH Hy]; simpl.
  - repeat constructor.
  - inversion Pl as [|? ? Py Pl']; subst.
    destruct (leb x y) eqn:E.
    + constructor; [now constructor|].
      constructor; [exact E|].
      rewrite Forall_forall in *. intros z Hz.
      apply (trans x y z); auto.
    + constructor; [now apply IH|].
      rewrite (insert_perm x l). constructor; [|exact Hy].
      destruct (total x y Px Py) as [H|H]; [unfold R in H; congruence|exact H].
Qed.

Lemma isort_sorted l : Forall P l -> StronglySorted R (isort leb l).
Proof.
  induction l as [|x l IH]; simpl; intros Hl; [constructor|].
  inversion Hl; subst.
  apply insert_sorted; auto.
  now rewrite (isort_perm l).
Qed.

End Insertion.

Section Ties.
Context {A : Type} (leb : A -> A -> bool).
Hypothesis trans :
  forall x y z, leb x y = true -> leb y z = true -> leb x z = true.

(** [x] ties with [t]. *)
Let tie (t x : A) : bool := leb x t && leb t x.

Lemma insert_keeps_ties t x l :
  filter (tie t) (insert leb x l) = filter (tie t) (x :: l).
Proof.
  induction l as [|y l IH]; [reflexivity|].
  simpl insert. destruct (leb x y) eqn:E; [reflexivity|].
  change (filter (tie t) (y :: insert leb x l))
    with (if tie t y then y :: filter (tie t) (insert leb x l)
          else filter (tie t) (insert leb x l)).
  rewrite IH. simpl.
  destruct (tie t x) eqn:Ex, (tie t y) eqn:Ey; try reflexivity.
  unfold tie in Ex, Ey. apply andb_true_iff in Ex, Ey.
  destruct Ex as [Hxt _], Ey as [_ Hty].
  rewrite (trans x t y Hxt Hty) in E. discriminate.
Qed.

(** Straight insertion keeps the elements that tie in their order. *)
Lemma isort_keeps_ties t l : filter (tie t) (isort leb l) = filter (tie t) l.
Proof.
  induction l as [|x l IH]; [reflexivity|].
  simpl isort. rewrite insert_keeps_ties. simpl. now rewrite IH.
Qed.

End Ties.

Lemma isort_contract A (leb : A -> A -> bool) (l : list A) :
  (forall x y, In x l -> In y l -> leb x y = true \/ leb y x = true) ->
  (forall x y z, In x l -> In y l -> In z l ->
                 leb x y = true -> leb y z = true -> leb x z = true) ->
  StronglySorted (fun x y => leb x y = true) (isort leb l).
Proof.
  intros Ht Htr.
  apply (isort_sorted leb (fun x => In x l)); auto.
  now apply Forall_forall.
Qed.

(** Straight insertion: ties stay in input order. *)
Definition insertion : Quicksort :=
  {| qsort := fun A leb l => isort leb l;
     qsort_perm := fun A leb l => isort_perm leb l;
     qsort_sorted := isort_contract |}.

Lemma isort_rev_perm A (leb : A -> A -> bool) (l : list A) :
  Permutation (isort leb (rev l)) l.
Proof.
  rewrite isort_perm. symmetry. apply Permutation_rev.
Qed.

Lemma isort_rev_contract A (leb : A -> A -> bool) (l : list A) :
  (forall x y, In x l -> In y l -> leb x y = true \/ leb y x = true) ->
  (forall x y z, In x l -> In y l -> In z l ->
                 leb x y = true -> leb y z = true -> leb x z = true) ->
  StronglySorted (fun x y => leb x y = true) (isort leb (rev l)).
Proof.
  intros Ht Htr.
  apply (isort_sorted leb (fun x => In x l)); auto.
  apply Forall_forall. intros x Hx. now apply in_rev.
Qed.

(** Straight insertion from the last row to the first: a sorter within the
    contract that turns ties round. *)
Definition backwards : Quicksort :=
  {| qsort := fun A leb l => isort leb (rev l);
     qsort_perm := isort_rev_perm;
     qsort_sorted := isort_rev_contract |}.

End Kinds.

(* ================================================================== *)
(** * numpy's argsort of kind 'quicksort' *)
(* ================================================================== *)

Module Npysort.
Import Pandas.

(** [aquicksort_] of numpy's npysort, the sort behind
    [ndarray.argsort(kind='quicksort')] for keys without a vectorised
    routine, dates among them: an introsort.  A stretch of more than
    sixteen rows is partitioned around the median of its first, middle and
    last keys; shorter stretches are sorted by straight insertion; past a
    recursion depth of twice the binary logarithm of the length, heapsort
    takes over.  numpy sorts an array of row numbers by the keys they point
    to; here the rows themselves stand in the array. *)

Section Introsort.
Context {A : Type} (leb : A -> A -> bool).
Variable d : A.   (* read where an index is out of range; never the case *)

(** [Tag::less]. *)
Definition less (a b : A) : bool := negb (leb b a).

Definition get (a : list A) (i : nat) : A := nth i a d.

Fixpoint set (a : list A) (i : nat) (x : A) : list A :=
  match a, i with
  | [], _ => []
  | _ :: a', O => x :: a'
  | y :: a', S i' => y :: set a' i' x
  end.

(** [INTP_SWAP]. *)
Definition swap (a : list A) (i j : nat) : list A :=
  set (set a i (get a j)) j (get a i).

(** [do { ++pi; } while (less(v[*pi], vp));] *)
Fixpoint scan_up (fuel : nat) (a : list A) (vp : A) (pi : nat) : nat :=
  match fuel with
  | O => pi
  | S fuel' =>
      let pi := S pi in
      if less (get a pi) vp then scan_up fuel' a vp pi else pi
  end.

(** [do { --pj; } while (less(vp, v[*pj]));] *)
Fixpoint scan_down (fuel : nat) (a : list A) (vp : A) (pj : nat) : nat :=
  match fuel with
  | O => pj
  | S fuel' =>
      let pj := pred pj in
      if less vp (get a pj) then scan_down fuel' a vp pj else pj
  end.

(** The [for (;;)] loop of the partition. *)
Fixpoint exchange (fuel : nat) (a : list A) (vp : A) (pi pj : nat)
  : list A * nat :=
  match fuel with
  | O => (a, pi)
  | S fuel' =>
      let pi := scan_up (List.length a) a vp pi in
      let pj := scan_down (List.length a) a vp pj in
      if (pj <=? pi)%nat then (a, pi)
      else exchange fuel' (swap a pi pj) vp pi pj
  end.

(** The partition of the stretch from [pl] to [pr]: the array after it, and
    the place of the pivot. *)
Definition partition (a : list A) (pl pr : nat) : list A * nat :=
  let pm := pl + (pr - pl) / 2 in
  let a := if less (get a pm) (get a pl) then swap a pm pl else a in
  let a := if less (get a pr) (get a pm) then swap a pr pm else a in
  let a := if less (get a pm) (get a pl) then swap a pm pl else a in
  let vp := get a pm in
  let pj := pr - 1 in
  let a := swap a pm pj in
  let (a, pi) := exchange (List.length a) a vp pl pj in
  (swap a pi (pr - 1), pi).

(** The stretch from [pl] to [pr], and the array with that stretch replaced. *)
Definition stretch (a : list A) (pl pr : nat) : list A :=
  firstn (S pr - pl) (skipn pl a).

Definition replace (a : list A) (pl pr : nat) (s : list A) : list A :=
  firstn pl a ++ s ++ skipn (pl + List.length (stretch a pl pr)) a.

(** The insertion sort of numpy: each key in turn moves left past the keys
    greater than it.  The sorted part is kept last key first. *)
Fixpoint settle (x : A) (sorted : list A) : list A :=
  match sorted with
  | [] => [x]
  | y :: sorted' => if less x y then y :: settle x sorted' else x :: sorted
  end.

Definition insertion_sort (a : list A) (pl pr : nat) : list A :=
  replace a pl pr
    (rev (fold_left (fun sorted x => settle x sorted) (stretch a pl pr) [])).

(** [aheapsort_], on keys numbered from 1. *)
Definition get1 (h : list A) (i : nat) : A := get h (i - 1).
Definition set1 (h : list A) (i : nat) (x : A) : list A := set h (i - 1) x.

Fixpoint sift (fuel : nat) (h : list A) (tmp : A) (i n : nat) : list A :=
  match fuel with
  | O => set1 h i tmp
  | S fuel' =>
      let j := 2 * i in
      if (n <? j)%nat then set1 h i tmp
      else
        let j := if (j <? n)%nat && less (get1 h j) (get1 h (j + 1))
                 then j + 1 else j in
        if less tmp (get1 h j) then sift fuel' (set1 h i (get1 h j)) tmp j n
        else set1 h i tmp
  end.

Fixpoint heapify (l : nat) (h : list A) (n : nat) : list A :=
  match l with
  | O => h
  | S l' => heapify l' (sift n h (get1 h l) l n) n
  end.

Fixpoint drain (n : nat) (h : list A) : list A :=
  match n with
  | O => h
  | S n' =>
      match n' with
      | O => h
      | _ =>
          let tmp := get1 h n in
          let h := set1 h n (get1 h 1) in
          drain n' (sift n h tmp 1 n')
      end
  end.

Definition heapsort (a : list A) (pl pr : nat) : list A :=
  let h := stretch a pl pr in
  let n := List.length h in
  replace a pl pr (drain n (heapify (n / 2) h n)).

Definition SMALL_QUICKSORT : nat := 15.

(** The outer loop.  [from_stack] takes a stretch off the stack, with the
    depth left to it; [partitioning] is the inner [while] loop.  The
    stretches on the stack do not overlap, so the order in which they are
    taken does not matter. *)
Fixpoint from_stack (fuel : nat) (a : list A) (pl pr : nat) (cdepth : Z)
  : list A :=
  match fuel with
  | O => a
  | S fuel' =>
      if (cdepth <? 0)%Z then heapsort a pl pr
      else partitioning fuel' a pl pr cdepth
  end
with partitioning (fuel : nat) (a : list A) (pl pr : nat) (cdepth : Z)
  : list A :=
  match fuel with
  | O => a
  | S fuel' =>
      if (SMALL_QUICKSORT <? pr - pl)%nat then
        let (a, pi) := partition a pl pr in
        let cdepth := (cdepth - 1)%Z in
        if (pi - pl <? pr - pi)%nat
        then from_stack fuel' (partitioning fuel' a pl (pi - 1) cdepth)
                        (pi + 1) pr cdepth
        else from_stack fuel' (partitioning fuel' a (pi + 1) pr cdepth)
                        pl (pi - 1) cdepth
      else insertion_sort a pl pr
  end.

End Introsort.

Definition aquicksort : sorter :=
  fun A leb a =>
    match a with
    | [] => []
    | d :: _ =>
        let num := List.length a in
        from_stack leb d (2 * num + 2) a 0 (num - 1)
                   (2 * Z.log2 (Z.of_nat num))
    end.

End Npysort.


(* ================================================================== *)
(** * Properties of [load_data] *)
(* ================================================================== *)

Module Load.
Import Py F64 Pandas App Kinds.

(** The frame [load_data] hands to the script. *)
Definition prepared (sort : sorter) (src : Source) : Frame :=
  match load_data sort src with
  | Ok (df, _) => df
  | Raise _ => []
  end.

(** [r] is the prepared form of the line [raw]. *)
Definition prepared_from (raw : RawRow) (r : Row) : Prop :=
  exists d, derive raw = Ok d /\ r = numeric d.

Lemma mapM_Ok {A B} (f : A -> res B) l l' :
  mapM f l = Ok l' -> Forall2 (fun a b => f a = Ok b) l l'.
Proof.
  revert l'. induction l as [|a l IH]; simpl; intros l' H.
  - injection H as <-. constructor.
  - destruct (f a) as [b|e] eqn:Ea; simpl in H; [|discriminate].
    destruct (mapM f l) as [bs|e] eqn:El; simpl in H; [|discriminate].
    injection H as <-. constructor; auto.
Qed.

Lemma mapM_Raise {A B} (f : A -> res B) l a e :
  In a l -> f a = Raise e -> exists e', mapM f l = Raise e'.
Proof.
  induction l as [|x l IH]; simpl; [tauto|].
  intros [->|Hin] Ha.
  - rewrite Ha. simpl. eauto.
  - destruct (f x); simpl; [|eauto].
    destruct (IH Hin Ha) as [e' ->]. simpl. eauto.
Qed.

Lemma mapM_Raise_inv {A B} (f : A -> res B) l e :
  mapM f l = Raise e -> exists a, In a l /\ f a = Raise e.
Proof.
  induction l as [|x l IH]; simpl; [discriminate|].
  destruct (f x) as [b|e0] eqn:Ex; simpl.
  - destruct (mapM f l) as [bs|e1]; simpl; [discriminate|].
    intros H. injection H as <-.
    destruct (IH eq_refl) as (a & Ha & Hf). eauto.
  - intros H. injection H as <-. eauto.
Qed.

Lemma Forall2_In_r {A B} (R : A -> B -> Prop) l l' b :
  Forall2 R l l' -> In b l' -> exists a, In a l /\ R a b.
Proof.
  induction 1 as [|x y l l' Hxy _ IH]; simpl; [tauto|].
  intros [<-|Hin]; [eauto|].
  destruct (IH Hin) as (a & Ha & HR). eauto.
Qed.

(** The guard of the lambda keeps the division away from a zero divisor. *)
Lemma margem_lambda_Ok l f :
  margem_lambda l f = Ok (if (f =? 0)%float then 0%float else (l / f)%float).
Proof.
  unfold margem_lambda, truediv. now destruct (f =? 0)%float.
Qed.

(** What [derive] returns, when it returns. *)
Lemma derive_Ok raw d :
  derive raw = Ok d ->
  exists t q p c,
    raw_data_venda raw = Date t /\ raw_quantidade raw = Num q
    /\ raw_valor_venda raw = Num p /\ raw_valor_custo raw = Num c
    /\ d = {| d_raw := raw; d_data_venda := t;
              d_faturamento := (q * p)%float;
              d_custo_total := (q * c)%float;
              d_lucro := (q * p - q * c)%float;
              d_margem_pct := if (q * p =? 0)%float then 0%float
                              else ((q * p - q * c) / (q * p))%float |}.
Proof.
  unfold derive. intros H.
  destruct (raw_data_venda raw) as [t|s]; simpl in H; [|discriminate].
  destruct (raw_quantidade raw) as [q|s]; simpl in H; [|discriminate].
  destruct (raw_valor_venda raw) as [p|s]; simpl in H; [|discriminate].
  destruct (raw_valor_custo raw) as [c|s]; simpl in H; [|discriminate].
  rewrite margem_lambda_Ok in H. simpl in H. injection H as <-.
  exists t, q, p, c. repeat split; reflexivity.
Qed.

(** The exceptions of the body other than a missing file. *)
Lemma derive_Raise raw e : derive raw = Raise e -> e <> FileNotFoundError.
Proof.
  unfold derive. intros H.
  destruct (raw_data_venda raw) as [t|s]; simpl in H; [|congruence].
  destruct (raw_quantidade raw) as [q|s], (raw_valor_venda raw) as [p|s'];
    simpl in H; try congruence.
  destruct (raw_valor_custo raw) as [c|s]; simpl in H; [|congruence].
  rewrite margem_lambda_Ok in H. discriminate.
Qed.

(** [load_data], case by case. *)
Lemma load_data_NoFile (sort : sorter) :
  load_data sort NoFile = Ok ([], [error_file_not_found]).
Proof. reflexivity. Qed.

Lemma load_data_NotATable (sort : sorter) :
  load_data sort NotATable = Ok ([], [error_loading]).
Proof. reflexivity. Qed.

Lemma load_data_Table_Ok (sort : sorter) rows ds :
  mapM derive rows = Ok ds ->
  load_data sort (Table rows) = Ok (sort Row by_data_venda (map numeric ds), []).
Proof.
  intros H. unfold load_data, load_data_body. simpl. now rewrite H.
Qed.

Lemma load_data_Table_Raise (sort : sorter) rows e :
  mapM derive rows = Raise e ->
  load_data sort (Table rows) = Ok ([], [error_loading]).
Proof.
  intros H. unfold load_data, load_data_body. simpl. rewrite H. simpl.
  destruct (mapM_Raise_inv _ _ _ H) as (a & _ & Ha).
  apply derive_Raise in Ha. now destruct e.
Qed.

(** No exception leaves [load_data]. *)
Lemma load_data_returns (sort : sorter) src :
  exists df shown, load_data sort src = Ok (df, shown).
Proof.
  destruct src as [| |rows].
  - rewrite load_data_NoFile. eauto.
  - rewrite load_data_NotATable. eauto.
  - destruct (mapM derive rows) as [ds|e] eqn:E.
    + rewrite (load_data_Table_Ok sort rows ds E). eauto.
    + rewrite (load_data_Table_Raise sort rows e E). eauto.
Qed.

(** Every row of the frame is the prepared form of a line of the file. *)
Lemma prepared_rows (Q : Quicksort) src r :
  In r (prepared Q src) ->
  exists rows raw, src = Table rows /\ In raw rows /\ prepared_from raw r.
Proof.
  unfold prepared. destruct src as [| |rows]; simpl; try tauto.
  destruct (mapM derive rows) as [ds|e] eqn:E.
  - rewrite (load_data_Table_Ok Q rows ds E). intros Hin.
    apply (Permutation_in _ (qsort_perm Q Row by_data_venda _)) in Hin.
    apply in_map_iff in Hin. destruct Hin as (d & <- & Hd).
    destruct (Forall2_In_r _ _ _ _ (mapM_Ok _ _ _ E) Hd) as (raw & Hraw & Hder).
    exists rows, raw. repeat split; auto. exists d. auto.
  - rewrite (load_data_Table_Raise Q rows e E). simpl. tauto.
Qed.

End Load.

(* ================================================================== *)
(** * The prepared records *)
(* ================================================================== *)

Module Prepared.
Import Py F64 Pandas App Kinds Load.

(** The columns of a prepared record, from the cells of its line. *)
Lemma prepared_columns raw r :
  prepared_from raw r ->
  exists q p c,
    raw_quantidade raw = Num q /\ raw_valor_venda raw = Num p
    /\ raw_valor_custo raw = Num c
    /\ quantidade r = fillna0 q /\ valor_venda r = fillna0 p
    /\ valor_custo r = fillna0 c
    /\ faturamento r = fillna0 (q * p)
    /\ custo_total r = fillna0 (q * c)
    /\ lucro r = fillna0 (q * p - q * c)
    /\ margem_pct r = fillna0 (if (q * p =? 0)%float then 0%float
                               else ((q * p - q * c) / (q * p))%float).
Proof.
  intros (d & Hd & ->).
  destruct (derive_Ok raw d Hd) as (t & q & p & c & Hq1 & Hq & Hp & Hc & ->).
  exists q, p, c. simpl. unfold coerce. rewrite Hq, Hp, Hc. simpl.
  repeat split; reflexivity.
Qed.

(** The margin of a record, read off its own revenue and profit. *)
Definition margin_guarded (r : Row) : Prop :=
  is_nan (margem_pct r) = false
  /\ ((faturamento r =? 0)%float = true -> margem_pct r = 0%float)
  /\ ((faturamento r =? 0)%float = false ->
      if is_nan (lucro r / faturamento r) then margem_pct r = 0%float
      else (margem_pct r =? lucro r / faturamento r)%float = true).

Lemma prepared_margin raw r : prepared_from raw r -> margin_guarded r.
Proof.
  intros H.
  destruct (prepared_columns raw r H)
    as (q & p & c & _ & _ & _ & _ & _ & _ & Hf & _ & Hl & Hm).
  unfold margin_guarded. rewrite Hf, Hl, Hm. clear Hf Hl Hm H.
  set (f0 := (q * p)%float). set (l0 := (f0 - q * c)%float).
  split; [apply fillna0_not_nan|]. split.
  - destruct (is_nan f0) eqn:Ef.
    + intros _. rewrite (eqb_nan_l f0 0 Ef).
      apply fillna0_nan, div_nan_r, Ef.
    + rewrite (fillna0_id f0 Ef). intros ->. reflexivity.
  - destruct (is_nan f0) eqn:Ef.
    + rewrite (fillna0_nan f0 Ef). discriminate.
    + rewrite (fillna0_id f0 Ef). intros Hz. rewrite Hz.
      destruct (is_nan l0) eqn:El.
      * rewrite (fillna0_nan l0 El), (fillna0_nan _ (div_nan_l l0 f0 El)).
        destruct (is_nan (0 / f0)); [reflexivity|].
        now apply zero_div_r.
      * rewrite (fillna0_id l0 El).
        destruct (is_nan (l0 / f0)) eqn:Ed.
        -- now apply fillna0_nan.
        -- rewrite (fillna0_id _ Ed). now apply eqb_refl.
Qed.

(** The derived columns of a record, read off its own cells. *)
Definition derived_exactly (r : Row) : Prop :=
  faturamento r = (quantidade r * valor_venda r)%float
  /\ custo_total r = (quantidade r * valor_custo r)%float
  /\ lucro r = (faturamento r - custo_total r)%float.

Lemma not_nan_mul x y : is_nan (x * y) = false -> is_nan x = false /\ is_nan y = false.
Proof.
  intros H. split.
  - destruct (is_nan x) eqn:E; [|reflexivity].
    now rewrite (mul_nan_l x y E) in H.
  - destruct (is_nan y) eqn:E; [|reflexivity].
    now rewrite (mul_nan_r x y E) in H.
Qed.

Lemma not_nan_sub x y : is_nan (x - y) = false -> is_nan x = false /\ is_nan y = false.
Proof.
  intros H. split.
  - destruct (is_nan x) eqn:E; [|reflexivity].
    now rewrite (sub_nan_l x y E) in H.
  - destruct (is_nan y) eqn:E; [|reflexivity].
    now rewrite (sub_nan_r x y E) in H.
Qed.

Lemma prepared_derived raw r q p c :
  prepared_from raw r ->
  raw_quantidade raw = Num q -> raw_valor_venda raw = Num p ->
  raw_valor_custo raw = Num c ->
  is_nan (q * p - q * c) = false ->
  quantidade r = q /\ valor_venda r = p /\ valor_custo r = c /\ derived_exactly r.
Proof.
  intros H Hq Hp Hc Hn.
  destruct (prepared_columns raw r H)
    as (q' & p' & c' & Hq' & Hp' & Hc' & Eq & Ep & Ec & Ef & Et & El & _).
  assert (q' = q) by congruence. assert (p' = p) by congruence.
  assert (c' = c) by congruence. subst q' p' c'.
  destruct (not_nan_sub _ _ Hn) as [Hf Ht].
  destruct (not_nan_mul _ _ Hf) as [Nq Np].
  destruct (not_nan_mul _ _ Ht) as [_ Nc].
  unfold derived_exactly.
  rewrite Ef, Et, El, Eq, Ep, Ec.
  rewrite !fillna0_id by assumption. repeat split; reflexivity.
Qed.

(** The order of the date column is total and transitive. *)
Definition ts_le (a b : Timestamp) : Prop :=
  let (da, na) := a in
  let (db, nb) := b in
  (year da < year db
   \/ (year da = year db
       /\ (month da < month db
           \/ (month da = month db
               /\ (day da < day db \/ (day da = day db /\ na <= nb))))))%Z.

Lemma ts_leb_le a b : ts_leb a b = true <-> ts_le a b.
Proof.
  unfold ts_leb, date_leb, ts_le.
  destruct a as [[ya ma da] na], b as [[yb mb db] nb]; simpl.
  destruct (Z.eqb_spec ya yb), (Z.eqb_spec ma mb), (Z.eqb_spec da db),
    (Z.ltb_spec ya yb), (Z.ltb_spec ma mb), (Z.leb_spec da db),
    (Z.leb_spec na nb); simpl; split; intros; try discriminate; lia.
Qed.

Lemma ts_leb_total a b : ts_leb a b = true \/ ts_leb b a = true.
Proof.
  rewrite !ts_leb_le. unfold ts_le.
  destruct a as [[ya ma da] na], b as [[yb mb db] nb]; simpl. lia.
Qed.

Lemma ts_leb_trans a b c :
  ts_leb a b = true -> ts_leb b c = true -> ts_leb a c = true.
Proof.
  rewrite !ts_leb_le. unfold ts_le.
  destruct a as [[ya ma da] na], b as [[yb mb db] nb], c as [[yc mc dc] nc];
    simpl. lia.
Qed.

Definition sorted_by_date (df : Frame) : Prop :=
  StronglySorted (fun a b => ts_leb (data_venda a) (data_venda b) = true) df.

Lemma prepared_sorted (Q : Quicksort) src : sorted_by_date (prepared Q src).
Proof.
  unfold prepared, sorted_by_date.
  destruct src as [| |rows]; simpl; try constructor.
  destruct (mapM derive rows) as [ds|e] eqn:E.
  - rewrite (load_data_Table_Ok Q rows ds E).
    apply (qsort_sorted Q Row by_data_venda).
    + intros x y _ _. apply ts_leb_total.
    + intros x y z _ _ _. apply ts_leb_trans.
  - rewrite (load_data_Table_Raise Q rows e E). constructor.
Qed.

(** Records of equal date come out in the order they went in. *)
Definition keeps_ties_in_order (input output : Frame) : Prop :=
  forall t, filter (fun r => ts_eqb (data_venda r) t) output
            = filter (fun r => ts_eqb (data_venda r) t) input.

Lemma ts_eqb_tie a t : ts_eqb a t = ts_leb a t && ts_leb t a.
Proof.
  unfold ts_eqb, ts_leb, date_leb.
  destruct a as [[ya ma da] na], t as [[yt mt dt] nt]; simpl.
  destruct (Z.eqb_spec ya yt), (Z.eqb_spec ma mt), (Z.eqb_spec da dt),
    (Z.eqb_spec na nt), (Z.eqb_spec yt ya), (Z.eqb_spec mt ma),
    (Z.eqb_spec dt da); simpl; try lia;
    destruct (Z.leb_spec na nt), (Z.leb_spec nt na),
      (Z.ltb_spec ya yt), (Z.ltb_spec yt ya), (Z.ltb_spec ma mt),
      (Z.ltb_spec mt ma), (Z.leb_spec da dt), (Z.leb_spec dt da);
    simpl; try reflexivity; lia.
Qed.

(** Under straight insertion records of equal date do keep their order. *)
Lemma insertion_keeps_ties rows ds :
  mapM derive rows = Ok ds ->
  keeps_ties_in_order (map numeric ds) (prepared insertion (Table rows)).
Proof.
  intros E t. unfold prepared. rewrite (load_data_Table_Ok insertion rows ds E).
  simpl qsort.
  set (probe := {| data_venda := t; cliente := None; vendedor := EmptyString;
                   produto := EmptyString; categoria := EmptyString;
                   fornecedor := EmptyString; quantidade := 0%float;
                   valor_venda := 0%float; valor_custo := 0%float;
                   ano := 0; mes := 0; mes_ano := EmptyString;
                   faturamento := 0%float; custo_total := 0%float;
                   lucro := 0%float; margem_pct := 0%float |}).
  assert (F : forall l,
             filter (fun r => ts_eqb (data_venda r) t) l
             = filter (fun r => by_data_venda r probe && by_data_venda probe r) l).
  { intros l. apply filter_ext. intros r. apply ts_eqb_tie. }
  rewrite !F. apply isort_keeps_ties.
  intros x y z. apply ts_leb_trans.
Qed.

End Prepared.

(* ================================================================== *)
(** * Lines 28-30 and 39-41 on typed columns *)
(* ================================================================== *)

Module Dtypes.
Import Py F64 Pandas App Load.

(** [read_csv] gives a numeric column the dtype [int64] when every cell of
    it is a whole number, and [float64] when some cell has a fraction or an
    exponent or is empty (NaN).  The arithmetic of lines 28-30 is numpy's:
    between two [int64] columns it is that of 64-bit integers in two's
    complement, which wraps around without an error; an [int64] column that
    meets a [float64] column is converted, each cell to the nearest double.
    (A column with a text cell is an [object] column: see C5.) *)
Inductive Series : Set :=
| Int64 (l : list Z)
| Float64 (l : list float).

Definition in_int64 (n : Z) : Prop := (- 2 ^ 63 <= n < 2 ^ 63)%Z.

(** The 64-bit integer that an exact result is stored as. *)
Definition wrap (n : Z) : Z := ((n + 2 ^ 63) mod 2 ^ 64 - 2 ^ 63)%Z.

(** The double nearest to a whole number, a tie going to the even one. *)
Definition to_double (n : Z) : float :=
  SF2Prim (SpecFloat.binary_normalize prec emax n 0 false).

(** [s.astype('float64')]. *)
Definition astype_float (s : Series) : list float :=
  match s with
  | Int64 l => map to_double l
  | Float64 l => l
  end.

(** An elementwise operation between two columns of one frame. *)
Definition map2 {A B C} (f : A -> B -> C) (l : list A) (l' : list B) : list C :=
  map (fun ab => f (fst ab) (snd ab)) (combine l l').

(** [a * b] and [a - b] between two numeric columns. *)
Definition series_mul (a b : Series) : Series :=
  match a, b with
  | Int64 x, Int64 y => Int64 (map2 (fun m n => wrap (m * n)) x y)
  | _, _ => Float64 (map2 PrimFloat.mul (astype_float a) (astype_float b))
  end.

Definition series_sub (a b : Series) : Series :=
  match a, b with
  | Int64 x, Int64 y => Int64 (map2 (fun m n => wrap (m - n)) x y)
  | _, _ => Float64 (map2 PrimFloat.sub (astype_float a) (astype_float b))
  end.

(** [pd.to_numeric(s, errors='coerce')] leaves a numeric column as it is,
    and [fillna(0)] finds nothing to fill in an [int64] column. *)
Definition to_numeric (s : Series) : Series := s.

Definition fillna (s : Series) : Series :=
  match s with
  | Int64 l => Int64 l
  | Float64 l => Float64 (map fillna0 l)
  end.

(** The numeric columns of the frame after line 41, the margin apart. *)
Record Numbers : Set := {
  col_quantidade : Series;
  col_valor_venda : Series;
  col_valor_custo : Series;
  col_faturamento : Series;
  col_custo_total : Series;
  col_lucro : Series
}.

Definition lines_28_41 (q p c : Series) : Numbers :=
  let fat := series_mul q p in                                 (* line 28 *)
  let custo := series_mul q c in                               (* line 29 *)
  let lucro := series_sub fat custo in                         (* line 30 *)
  {| col_quantidade := fillna (to_numeric q);                  (* lines 39-41 *)
     col_valor_venda := fillna (to_numeric p);
     col_valor_custo := fillna (to_numeric c);
     col_faturamento := fillna (to_numeric fat);
     col_custo_total := fillna (to_numeric custo);
     col_lucro := fillna (to_numeric lucro) |}.

(** ** The same, cell by cell *)

(** A cell of a numeric column. *)
Inductive num : Set :=
| Int (n : Z)
| Dbl (x : float).

Definition cells (s : Series) : list num :=
  match s with
  | Int64 l => map Int l
  | Float64 l => map Dbl l
  end.

Definition as_float (a : num) : float :=
  match a with
  | Int n => to_double n
  | Dbl x => x
  end.

Definition num_mul (a b : num) : num :=
  match a, b with
  | Int m, Int n => Int (wrap (m * n))
  | _, _ => Dbl (as_float a * as_float b)
  end.

Definition num_sub (a b : num) : num :=
  match a, b with
  | Int m, Int n => Int (wrap (m - n))
  | _, _ => Dbl (as_float a - as_float b)
  end.

Definition fill0 (a : num) : num :=
  match a with
  | Int n => Int n
  | Dbl x => Dbl (fillna0 x)
  end.

Lemma map2_map_l {A A' B C} (f : A' -> B -> C) (g : A -> A') l l' :
  map2 f (map g l) l' = map2 (fun a b => f (g a) b) l l'.
Proof.
  unfold map2. revert l'. induction l as [|a l IH]; intros [|b l']; simpl;
    try reflexivity. now rewrite IH.
Qed.

Lemma map2_map_r {A B B' C} (f : A -> B' -> C) (h : B -> B') l l' :
  map2 f l (map h l') = map2 (fun a b => f a (h b)) l l'.
Proof.
  unfold map2. revert l'. induction l as [|a l IH]; intros [|b l']; simpl;
    try reflexivity. now rewrite IH.
Qed.

Lemma map_map2 {A B C D} (g : C -> D) (f : A -> B -> C) l l' :
  map g (map2 f l l') = map2 (fun a b => g (f a b)) l l'.
Proof. unfold map2. now rewrite map_map. Qed.

Lemma cells_mul a b : cells (series_mul a b) = map2 num_mul (cells a) (cells b).
Proof.
  destruct a as [x|x], b as [y|y]; simpl;
    repeat (rewrite map_map2 || rewrite map2_map_l || rewrite map2_map_r);
    reflexivity.
Qed.

Lemma cells_sub a b : cells (series_sub a b) = map2 num_sub (cells a) (cells b).
Proof.
  destruct a as [x|x], b as [y|y]; simpl;
    repeat (rewrite map_map2 || rewrite map2_map_l || rewrite map2_map_r);
    reflexivity.
Qed.

Lemma cells_fillna s : cells (fillna s) = map fill0 (cells s).
Proof. destruct s; simpl; rewrite !map_map; reflexivity. Qed.

Lemma wrap_id n : in_int64 n -> wrap n = n.
Proof.
  unfold in_int64, wrap. intros H.
  rewrite Z.mod_small by lia. lia.
Qed.

Lemma wrap_in_int64 n : in_int64 (wrap n).
Proof.
  unfold in_int64, wrap.
  pose proof (Z.mod_pos_bound (n + 2 ^ 63) (2 ^ 64) eq_refl). lia.
Qed.

(** The columns of the frame-level model are the float64 case. *)
Definition float_cell (c : cell) : float := to_numeric_coerce c.

Lemma derived_float64 rows : forall ds,
  mapM derive rows = Ok ds ->
  let q := Float64 (map (fun raw => float_cell (raw_quantidade raw)) rows) in
  let p := Float64 (map (fun raw => float_cell (raw_valor_venda raw)) rows) in
  let c := Float64 (map (fun raw => float_cell (raw_valor_custo raw)) rows) in
  Forall (fun raw => raw_quantidade raw = Num (float_cell (raw_quantidade raw))
                     /\ raw_valor_venda raw = Num (float_cell (raw_valor_venda raw))
                     /\ raw_valor_custo raw = Num (float_cell (raw_valor_custo raw)))
         rows
  /\ lines_28_41 q p c
     = {| col_quantidade := Float64 (map quantidade (map numeric ds));
          col_valor_venda := Float64 (map valor_venda (map numeric ds));
          col_valor_custo := Float64 (map valor_custo (map numeric ds));
          col_faturamento := Float64 (map faturamento (map numeric ds));
          col_custo_total := Float64 (map custo_total (map numeric ds));
          col_lucro := Float64 (map lucro (map numeric ds)) |}.
Proof.
  cbv zeta. unfold lines_28_41, to_numeric. cbn [series_mul series_sub fillna astype_float].
  induction rows as [|raw rows IH]; intros ds H.
  - simpl in H. injection H as <-. split; [constructor|reflexivity].
  - simpl in H.
    destruct (derive raw) as [d|e] eqn:Ed; simpl in H; [|discriminate].
    destruct (mapM derive rows) as [ds'|e] eqn:Eds; simpl in H; [|discriminate].
    injection H as <-.
    destruct (IH ds' eq_refl) as [Hrows Hcols].
    destruct (derive_Ok raw d Ed) as (t & q & p & c & _ & Hq & Hp & Hc & ->).
    split.
    + constructor; [|exact Hrows]. rewrite Hq, Hp, Hc. auto.
    + injection Hcols as E1 E2 E3 E4 E5 E6.
      unfold map2 in *. cbn [map combine fst snd].
      rewrite E1, E2, E3, E4, E5, E6. cbn. unfold coerce, float_cell.
      rewrite Hq, Hp, Hc. reflexivity.
Qed.

End Dtypes.

(* ================================================================== *)
(** * Sample lines of the CSV file *)
(* ================================================================== *)

Module Samples.
Import Py F64 Pandas App.
#[local] Open Scope string_scope.

Definition jan_5 : Timestamp :=
  {| date_of := {| year := 2023; month := 1; day := 5 |}; nanos := 0 |}.

(** A line of 5 January 2023 with the given client, category and numbers. *)
Definition line (client category : string) (q p c : cell) : RawRow :=
  {| raw_data_venda := Date jan_5;
     raw_cliente := Some client;
     raw_vendedor := "Rui";
     raw_produto := "Caneta";
     raw_categoria := category;
     raw_fornecedor := "Papelaria SA";
     raw_quantidade := q;
     raw_valor_venda := p;
     raw_valor_custo := c |}.

(** quantity 2, price 10, cost 4 *)
Definition plain_line : RawRow := line "Ana" "Escrita" (Num 2) (Num 10) (Num 4).

(** quantity 0 *)
Definition zero_quantity_line : RawRow :=
  line "Bia" "Escrita" (Num 0) (Num 10) (Num 4).

(** quantity 1, price 1e-300, cost 1e300 *)
Definition tiny_price_line : RawRow :=
  line "Ana" "Escrita" (Num 1) (Num 1e-300) (Num 1e300).

(** quantity 2, the price cell empty, cost 3 *)
Definition missing_price_line : RawRow :=
  line "Ana" "Escrita" (Num 2) (Num nan) (Num 3).

(** the quantity cell holds the text abc *)
Definition text_quantity_line : RawRow :=
  line "Bia" "Escrita" (Text "abc") (Num 10) (Num 4).

(** eighteen lines of the same day, told apart by their clients A to R *)
Definition eighteen_lines : list RawRow :=
  map (fun client => line client "Escrita" (Num 1) (Num 10) (Num 4))
      ["A"; "B"; "C"; "D"; "E"; "F"; "G"; "H"; "I"; "J"; "K"; "L"; "M"; "N";
       "O"; "P"; "Q"; "R"].

(** A time stamp of January 2023: the day and the hour. *)
Definition january (d h : Z) : Timestamp :=
  {| date_of := {| year := 2023; month := 1; day := d |};
     nanos := h * 3600000000000 |}.

(** A line of one unit at price 10 and cost 4, with the given time stamp,
    client and category. *)
Definition dated_line (t : Timestamp) (client category : string) : RawRow :=
  {| raw_data_venda := Date t;
     raw_cliente := Some client;
     raw_vendedor := "Rui";
     raw_produto := "Caneta";
     raw_categoria := category;
     raw_fornecedor := "Papelaria SA";
     raw_quantidade := Num 1;
     raw_valor_venda := Num 10;
     raw_valor_custo := Num 4 |}.

(** four lines, not in the order of their dates: Caio on 20 January, Ana on
    5 January, Bia on 10 January (the only one of the category Livros), Duda
    on 15 January *)
Definition january_lines : list RawRow :=
  [dated_line (january 20 9) "Caio" "Escrita";
   dated_line (january 5 14) "Ana" "Escrita";
   dated_line (january 10 8) "Bia" "Livros";
   dated_line (january 15 17) "Duda" "Escrita"].

(** from 10 to 20 January 2023, the category Escrita alone; the year, the
    seller and the supplier selected, no product, no search text *)
Definition escrita_from_10_january : Criteria :=
  {| start_date := {| year := 2023; month := 1; day := 10 |};
     end_date := {| year := 2023; month := 1; day := 20 |};
     selected_years := [2023%Z];
     selected_cats := ["Escrita"];
     selected_sellers := ["Rui"];
     selected_suppliers := ["Papelaria SA"];
     selected_products := [];
     client_search := EmptyString |}.

End Samples.

(* ================================================================== *)
(** * The claims about data preparation *)
(* ================================================================== *)

Module PreparationClaims.
Import Py F64 Pandas App Kinds Npysort Load Prepared Dtypes Samples.

(** C1, as the code has it.  For every prepared record: [margem_pct] is never
    NaN; it is exactly 0.0 when [faturamento] is zero; when [faturamento] is
    not zero it is the binary64 quotient [lucro / faturamento], and 0.0 when
    that quotient is NaN.  [load_data] returns for every source, and the
    lambda that computes the margin returns for every row, whatever its
    revenue: its guard keeps the division from a zero divisor.  (The margin
    can be infinite: see [C1_infinite_margin].) *)
Theorem C1_margem_pct_guarded (Q : Quicksort) (src : Source) :
  Forall margin_guarded (prepared Q src)
  /\ (exists df shown, load_data Q src = Ok (df, shown))
  /\ (forall x_lucro x_faturamento,
         exists m, margem_lambda x_lucro x_faturamento = Ok m).
Proof.
  split; [|split].
  - apply Forall_forall. intros r Hr.
    destruct (prepared_rows Q src r Hr) as (rows & raw & _ & _ & Hraw).
    exact (prepared_margin raw r Hraw).
  - apply load_data_returns.
  - intros l f. rewrite margem_lambda_Ok. eauto.
Qed.

(** C1 fails as stated: a line with quantity 1, unit price 1e-300 and unit
    cost 1e300 has revenue 1e-300 and profit -1e300; their quotient overflows
    and the prepared record carries the margin -Infinity. *)
Lemma C1_infinite_margin :
  exists r, In r (prepared aquicksort (Table [tiny_price_line]))
            /\ margem_pct r = neg_infinity
            /\ is_infinity (margem_pct r) = true.
Proof.
  eexists. split; [left; reflexivity|]. split; reflexivity.
Qed.

(** C2, as the code has it.  The frame [load_data] returns is in ascending
    order of [data_venda], and it holds the prepared records of the file,
    each once.  (The order among records of equal date is that of the
    sorting function: see [C2_ties_reordered].) *)
Theorem C2_sorted_by_date (Q : Quicksort) (src : Source) :
  sorted_by_date (prepared Q src)
  /\ (forall rows ds, src = Table rows -> mapM derive rows = Ok ds ->
                      Permutation (prepared Q src) (map numeric ds)).
Proof.
  split; [apply prepared_sorted|].
  intros rows ds -> E. unfold prepared.
  rewrite (load_data_Table_Ok Q rows ds E). apply qsort_perm.
Qed.

(** C2 fails as stated: [sort_values] is called with the default kind,
    'quicksort', which does not keep ties in place.  Eighteen lines of the
    same day, of the clients A to R in this order, come back from
    [load_data] in the order A, P, O, ..., B, Q, R: numpy's quicksort has
    swapped them while partitioning. *)
Lemma C2_ties_reordered :
  let df := prepared aquicksort (Table eighteen_lines) in
  map cliente df
  = map Some ["A"; "P"; "O"; "N"; "M"; "L"; "K"; "J"; "I"; "H"; "G"; "F";
              "E"; "D"; "C"; "B"; "Q"; "R"]%string
  /\ exists ds,
       mapM derive eighteen_lines = Ok ds
       /\ map cliente (map numeric ds)
          = map Some ["A"; "B"; "C"; "D"; "E"; "F"; "G"; "H"; "I"; "J"; "K";
                      "L"; "M"; "N"; "O"; "P"; "Q"; "R"]%string
       /\ ~ keeps_ties_in_order (map numeric ds) df.
Proof.
  cbv zeta. split; [reflexivity|].
  eexists. split; [reflexivity|]. split; [reflexivity|].
  intros H. specialize (H jan_5).
  apply (f_equal (map cliente)) in H. vm_compute in H. discriminate H.
Qed.

(** Seventeen lines of the same day are enough for the partition to set
    in: the clients A to Q come back in the order A, O, N, ... *)
Lemma seventeen_lines_reordered :
  map cliente (prepared aquicksort (Table (firstn 17 eighteen_lines)))
  = map Some ["A"; "O"; "N"; "M"; "L"; "K"; "J"; "P"; "I"; "G"; "F"; "E";
              "D"; "C"; "B"; "H"; "Q"]%string.
Proof. reflexivity. Qed.

(** The contract of the default kind does not force ties to stay either:
    [backwards] is within it and swaps two lines of the same day. *)
Lemma contract_allows_reordering :
  exists ds,
    mapM derive [plain_line; zero_quantity_line] = Ok ds
    /\ ~ keeps_ties_in_order (map numeric ds)
           (prepared backwards (Table [plain_line; zero_quantity_line])).
Proof.
  eexists. split; [reflexivity|].
  intros H. specialize (H jan_5).
  apply (f_equal (map cliente)) in H. vm_compute in H. discriminate H.
Qed.

(** A numeric cell that holds a text. *)
Definition is_text (c : cell) : bool :=
  match c with
  | Num _ => false
  | Text _ => true
  end.

Definition has_text_cell (raw : RawRow) : bool :=
  is_text (raw_quantidade raw) || is_text (raw_valor_venda raw)
  || is_text (raw_valor_custo raw).

Lemma text_cell_raises raw :
  has_text_cell raw = true -> exists e, derive raw = Raise e.
Proof.
  unfold has_text_cell, derive. intros H.
  destruct (raw_data_venda raw) as [t|s]; simpl; [|eauto].
  destruct (raw_quantidade raw) as [q|s]; simpl; [|eauto].
  destruct (raw_valor_venda raw) as [p|s]; simpl; [|eauto].
  destruct (raw_valor_custo raw) as [c|s]; simpl; [|eauto].
  discriminate H.
Qed.

(** C5, what the code does instead.  One text cell in a numeric column, in
    any line of the file, makes [load_data] return the empty frame with the
    loading error: the multiplications of lines 28-29 raise on that cell
    before line 41 can coerce it. *)
Theorem C5_text_cell_aborts_load (sort : sorter) (rows : list RawRow) (raw : RawRow) :
  In raw rows -> has_text_cell raw = true ->
  load_data sort (Table rows) = Ok ([], [error_loading]).
Proof.
  intros Hin Ht. destruct (text_cell_raises raw Ht) as [e He].
  destruct (mapM_Raise derive rows raw e Hin He) as [e' He'].
  exact (load_data_Table_Raise sort rows e' He').
Qed.

(** C5 on a failing input: a table of two lines, the second with the text
    abc in its quantity cell. *)
Lemma C5_failing_input :
  In text_quantity_line [plain_line; text_quantity_line]
  /\ has_text_cell text_quantity_line = true
  /\ load_data aquicksort (Table [plain_line; text_quantity_line])
     = Ok ([], [error_loading]).
Proof.
  split; [right; left; reflexivity|]. split; [reflexivity|].
  apply (C5_text_cell_aborts_load aquicksort _ text_quantity_line);
    [right; left; reflexivity|reflexivity].
Defined.

(** An empty cell does not abort the load: a table whose dates parse and
    whose numeric cells are floats, NaN included, is prepared in full. *)
Lemma numeric_table_loads (Q : Quicksort) (rows : list RawRow) :
  Forall (fun raw => has_text_cell raw = false
                     /\ exists t, raw_data_venda raw = Date t) rows ->
  exists df, load_data Q (Table rows) = Ok (df, [])
             /\ List.length df = List.length rows.
Proof.
  intros H.
  assert (E : exists ds, mapM derive rows = Ok ds
                         /\ List.length ds = List.length rows).
  { induction H as [|raw rows [Ht [t Hd]] _ IH]; [exists []; auto|].
    destruct IH as (ds & Hds & Hlen).
    unfold has_text_cell in Ht. apply orb_false_iff in Ht.
    destruct Ht as [Ht Hc]. apply orb_false_iff in Ht. destruct Ht as [Hq Hp].
    assert (Hr : exists d, derive raw = Ok d).
    { unfold derive. rewrite Hd. simpl.
      destruct (raw_quantidade raw); [|discriminate].
      destruct (raw_valor_venda raw); [|discriminate].
      destruct (raw_valor_custo raw); [|discriminate].
      simpl. rewrite margem_lambda_Ok. simpl. eauto. }
    destruct Hr as [d Hr]. exists (d :: ds). simpl. rewrite Hr, Hds. simpl.
    split; [reflexivity|]. now rewrite Hlen. }
  destruct E as (ds & Hds & Hlen).
  rewrite (load_data_Table_Ok Q rows ds Hds). eexists. split; [reflexivity|].
  rewrite (Permutation_length (qsort_perm Q Row by_data_venda _)).
  now rewrite length_map.
Qed.

(** C7.  Whenever the body of [load_data] raises, [load_data] returns the
    empty frame and shows one error message; a missing file and a file that
    is no table are two such cases.  No exception leaves [load_data], and the
    script then stops on its own ([st.stop()]) instead of crashing. *)
Theorem C7_failed_load_returns_empty (Q : Quicksort) (src : Source) :
  match load_data_body Q src with
  | Raise e =>
      exists msg, load_data Q src = Ok ([], [msg])
                  /\ (msg = error_file_not_found \/ msg = error_loading)
                  /\ forall fmt nl c, script Q fmt nl src c = Some (Stopped [msg])
  | Ok df => load_data Q src = Ok (df, [])
  end
  /\ load_data Q NoFile = Ok ([], [error_file_not_found])
  /\ load_data Q NotATable = Ok ([], [error_loading])
  /\ (exists df shown, load_data Q src = Ok (df, shown)).
Proof.
  split; [|split; [reflexivity|split; [reflexivity|apply load_data_returns]]].
  unfold script, load_data.
  destruct (load_data_body Q src) as [df|e] eqn:E; [reflexivity|].
  destruct src as [| |rows].
  - unfold load_data_body in E. simpl in E. injection E as <-. simpl. eauto 6.
  - unfold load_data_body in E. simpl in E. injection E as <-. simpl. eauto 6.
  - unfold load_data_body in E. simpl in E.
    destruct (mapM derive rows) as [ds|e'] eqn:E'; simpl in E; [discriminate|].
    injection E as <-.
    destruct (mapM_Raise_inv _ _ _ E') as (a & _ & Ha).
    apply derive_Raise in Ha.
    destruct e'; try congruence; simpl; eauto 6.
Qed.

(** C8, as the code has it.  Lines 28-30 compute revenue = quantity * unit
    price, total cost = quantity * unit cost and profit = revenue - total
    cost column by column, in the arithmetic of the columns: between two
    [int64] columns that of 64-bit integers, which wraps around, and as soon
    as a [float64] column takes part that of doubles, which rounds; line 41
    then puts 0 for NaN, in each column on its own.  So:
    - cell by cell, the stored columns are the products and the difference
      of the cells under [num_mul] and [num_sub], with NaN replaced by 0;
    - between whole-number columns the stored values are the exact products
      and difference whenever these are within [int64], and their residues
      modulo 2^64 otherwise;
    - in a frame of [float64] columns (the frame-level model), every record
      comes from a line of the file whose three numeric cells hold floats
      [q], [p], [c]; its columns are those cells and their float64 products
      and difference with NaN replaced by 0; and when the profit computed
      from the cells is a number, the record has revenue = quantity * unit
      price, total cost = quantity * unit cost and profit = revenue - total
      cost as float64 operations. *)
Theorem C8_derived_columns (Q : Quicksort) (src : Source) :
  Forall (fun r =>
    exists raw q p c,
      prepared_from raw r
      /\ raw_quantidade raw = Num q /\ raw_valor_venda raw = Num p
      /\ raw_valor_custo raw = Num c
      /\ faturamento r = fillna0 (q * p)
      /\ custo_total r = fillna0 (q * c)
      /\ lucro r = fillna0 (q * p - q * c)
      /\ (is_nan (q * p - q * c) = false ->
          quantidade r = q /\ valor_venda r = p /\ valor_custo r = c
          /\ derived_exactly r))
    (prepared Q src)
  /\ (forall rows ds,
        src = Table rows -> mapM derive rows = Ok ds ->
        lines_28_41
          (Float64 (map (fun raw => float_cell (raw_quantidade raw)) rows))
          (Float64 (map (fun raw => float_cell (raw_valor_venda raw)) rows))
          (Float64 (map (fun raw => float_cell (raw_valor_custo raw)) rows))
        = {| col_quantidade := Float64 (map quantidade (map numeric ds));
             col_valor_venda := Float64 (map valor_venda (map numeric ds));
             col_valor_custo := Float64 (map valor_custo (map numeric ds));
             col_faturamento := Float64 (map faturamento (map numeric ds));
             col_custo_total := Float64 (map custo_total (map numeric ds));
             col_lucro := Float64 (map lucro (map numeric ds)) |})
  /\ (forall q p c : Series,
        let t := lines_28_41 q p c in
        cells (col_quantidade t) = map fill0 (cells q)
        /\ cells (col_valor_venda t) = map fill0 (cells p)
        /\ cells (col_valor_custo t) = map fill0 (cells c)
        /\ cells (col_faturamento t)
           = map2 (fun a b => fill0 (num_mul a b)) (cells q) (cells p)
        /\ cells (col_custo_total t)
           = map2 (fun a b => fill0 (num_mul a b)) (cells q) (cells c)
        /\ cells (col_lucro t)
           = map2 (fun f k => fill0 (num_sub f k))
                  (map2 num_mul (cells q) (cells p))
                  (map2 num_mul (cells q) (cells c)))
  /\ (forall q p c : Z,
        fill0 (num_mul (Int q) (Int p)) = Int (wrap (q * p))
        /\ fill0 (num_mul (Int q) (Int c)) = Int (wrap (q * c))
        /\ fill0 (num_sub (num_mul (Int q) (Int p)) (num_mul (Int q) (Int c)))
           = Int (wrap (wrap (q * p) - wrap (q * c)))
        /\ (in_int64 (q * p) -> in_int64 (q * c) -> in_int64 (q * p - q * c) ->
            wrap (q * p) = (q * p)%Z /\ wrap (q * c) = (q * c)%Z
            /\ wrap (wrap (q * p) - wrap (q * c)) = (q * p - q * c)%Z))
  /\ (forall (x : float) (b : num),
        num_mul (Dbl x) b = Dbl (x * as_float b)
        /\ num_mul b (Dbl x) = Dbl (as_float b * x)
        /\ num_sub (Dbl x) b = Dbl (x - as_float b)
        /\ num_sub b (Dbl x) = Dbl (as_float b - x)).
Proof.
  split; [|split; [|split; [|split]]].
  - apply Forall_forall. intros r Hr.
    destruct (prepared_rows Q src r Hr) as (rows & raw & _ & _ & Hraw).
    destruct (prepared_columns raw r Hraw)
      as (q & p & c & Hq & Hp & Hc & _ & _ & _ & Ef & Et & El & _).
    exists raw, q, p, c. repeat (split; [assumption|]).
    intros Hn. exact (prepared_derived raw r q p c Hraw Hq Hp Hc Hn).
  - intros rows ds _ Hds. exact (proj2 (derived_float64 rows ds Hds)).
  - intros q p c. cbv zeta. unfold lines_28_41, to_numeric.
    cbn [col_quantidade col_valor_venda col_valor_custo col_faturamento
         col_custo_total col_lucro].
    rewrite !cells_fillna, cells_sub, !cells_mul, !map_map2.
    repeat split; reflexivity.
  - intros q p c. repeat (split; [reflexivity|]).
    intros H1 H2 H3. rewrite (wrap_id _ H1), (wrap_id _ H2).
    repeat split; try reflexivity. now apply wrap_id.
  - intros x b. destruct b; repeat split; reflexivity.
Qed.

(** C8 fails as stated.  In a [float64] frame, a line with quantity 2, an
    empty price cell and unit cost 3 is prepared with revenue 0, total cost 6
    and profit 0, which is not revenue - total cost.  Between whole-number
    columns, a line with quantity 4294967296 (2^32), unit price 4294967296
    and unit cost 1 gets the revenue 0: the product 2^64 does not fit
    [int64] and wraps around. *)
Lemma C8_profit_not_difference :
  (exists r, In r (prepared aquicksort (Table [missing_price_line]))
             /\ faturamento r = 0%float /\ custo_total r = 6%float
             /\ lucro r = 0%float
             /\ (lucro r =? faturamento r - custo_total r)%float = false)
  /\ (let t := lines_28_41 (Int64 [4294967296%Z]) (Int64 [4294967296%Z])
                           (Int64 [1%Z]) in
      col_faturamento t = Int64 [0%Z]
      /\ col_custo_total t = Int64 [4294967296%Z]
      /\ col_lucro t = Int64 [(-4294967296)%Z]
      /\ (4294967296 * 4294967296 <> 0)%Z).
Proof.
  split.
  - eexists. split; [left; reflexivity|]. repeat split; reflexivity.
  - cbv zeta. repeat split; try reflexivity. discriminate.
Qed.

End PreparationClaims.

(* ================================================================== *)
(** * The filters *)
(* ================================================================== *)

Module Filters.
Import Py F64 Pandas App.

(** A multiselect accepts a value: nothing is selected, or the value is. *)
Definition selected {K} (eqb : K -> K -> bool) (sel : list K) (x : K) : bool :=
  is_empty sel || isin eqb sel x.

(** The conjunction of the tests of lines 92-112, for a search pattern [p]. *)
Definition accepts (c : Criteria) (p : list atom) (r : Row) : bool :=
  mask_date c r
  && selected Z.eqb (selected_years c) (ano r)
  && selected String.eqb (selected_cats c) (categoria r)
  && selected String.eqb (selected_sellers c) (vendedor r)
  && selected String.eqb (selected_suppliers c) (fornecedor r)
  && selected String.eqb (selected_products c) (produto r)
  && (String.eqb (client_search c) "" || str_contains p (cliente r)).

Lemma filter_filter {A} (f g : A -> bool) l :
  filter f (filter g l) = filter (fun x => g x && f x) l.
Proof.
  induction l as [|x l IH]; simpl; [reflexivity|].
  destruct (g x); simpl; [destruct (f x)|]; now rewrite IH.
Qed.

Lemma filter_true {A} (l : list A) : filter (fun _ => true) l = l.
Proof. induction l as [|x l IH]; simpl; [reflexivity|now rewrite IH]. Qed.

Lemma keep_selected_filter {K} (eqb : K -> K -> bool) sel col df :
  keep_selected eqb sel col df = filter (fun r => selected eqb sel (col r)) df.
Proof.
  destruct sel as [|k sel]; simpl; [now rewrite filter_true|reflexivity].
Qed.

(** The filtered frame is the raw frame with the accepted rows kept, in
    place. *)
Lemma df_filtered_filter c df p :
  re_compile (client_search c) = Some p ->
  df_filtered c df = Some (filter (accepts c p) df).
Proof.
  intros Hp. unfold df_filtered.
  rewrite !keep_selected_filter, !filter_filter.
  destruct (client_search c) as [|a s] eqn:Es.
  - f_equal. apply filter_ext. intros r. unfold accepts. rewrite Es. simpl.
    now rewrite andb_true_r, !andb_assoc.
  - rewrite Hp, filter_filter. f_equal. apply filter_ext. intros r.
    unfold accepts. rewrite Es. simpl. now rewrite !andb_assoc.
Qed.

(** A row is kept if and only if it passes every test. *)
Lemma df_filtered_In c df p out r :
  re_compile (client_search c) = Some p ->
  df_filtered c df = Some out ->
  In r out <->
  In r df
  /\ date_leb (start_date c) (date_of (data_venda r)) = true
  /\ date_leb (date_of (data_venda r)) (end_date c) = true
  /\ (selected_years c = [] \/ isin Z.eqb (selected_years c) (ano r) = true)
  /\ (selected_cats c = [] \/ isin String.eqb (selected_cats c) (categoria r) = true)
  /\ (selected_sellers c = [] \/ isin String.eqb (selected_sellers c) (vendedor r) = true)
  /\ (selected_suppliers c = [] \/ isin String.eqb (selected_suppliers c) (fornecedor r) = true)
  /\ (selected_products c = [] \/ isin String.eqb (selected_products c) (produto r) = true)
  /\ (client_search c = EmptyString \/ str_contains p (cliente r) = true).
Proof.
  intros Hp Hf. rewrite (df_filtered_filter c df p Hp) in Hf.
  injection Hf as <-. rewrite filter_In. unfold accepts, mask_date, selected.
  rewrite !andb_true_iff, !orb_true_iff.
  assert (E : forall K (l : list K), is_empty l = true <-> l = []).
  { intros K [|k l]; simpl; split; congruence. }
  rewrite !E, String.eqb_eq. tauto.
Qed.

(** A search text without regular-expression metacharacters. *)
Definition plain_text (pat : string) : bool :=
  forallb (fun c => negb (is_meta c) && negb (Ascii.eqb c "."%char))
          (list_ascii_of_string pat).

Lemma plain_text_compile pat :
  plain_text pat = true ->
  re_compile pat = Some (map Lit (list_ascii_of_string pat)).
Proof.
  unfold plain_text. induction pat as [|c pat IH]; simpl; [reflexivity|].
  rewrite !andb_true_iff, !negb_true_iff. intros [[Hm Hd] Hrest].
  now rewrite Hm, (IH Hrest), Hd.
Qed.

Lemma literal_match pat s :
  re_match (map Lit (list_ascii_of_string pat)) s = is_prefix_ci pat s.
Proof.
  revert s. induction pat as [|c pat IH]; intros [|x s]; simpl; try reflexivity.
  now rewrite IH.
Qed.

Lemma literal_search pat s :
  re_search (map Lit (list_ascii_of_string pat)) s = is_substring_ci pat s.
Proof.
  induction s as [|x s IH]; simpl; rewrite literal_match; [reflexivity|].
  now rewrite IH.
Qed.

(** On such a text the search is the substring test, letter case apart. *)
Lemma plain_text_search pat :
  plain_text pat = true ->
  exists p, re_compile pat = Some p
            /\ forall s, re_search p s = is_substring_ci pat s.
Proof.
  intros H. eexists. split; [now apply plain_text_compile|].
  apply literal_search.
Qed.

End Filters.

(* ================================================================== *)
(** * The metric cards *)
(* ================================================================== *)

Module Cards.
Import Py F64 Pandas App Kinds Npysort Load Samples.

(** The nesting bound of [pairwise] never runs out: the sum of a column
    obeys the two equations of numpy's routine, whatever its length. *)
Lemma cut_bounds n : (128 < n -> 0 < cut n < n)%nat.
Proof.
  intros H. unfold cut.
  pose proof (Nat.div_mod_eq n 2). pose proof (Nat.mod_upper_bound n 2).
  pose proof (Nat.div_mod_eq (n / 2) 8).
  pose proof (Nat.mod_upper_bound (n / 2) 8).
  lia.
Qed.

Lemma pairwise_depth d : forall d' a,
  (List.length a <= d)%nat -> (List.length a <= d')%nat ->
  pairwise d a = pairwise d' a.
Proof.
  induction d as [|d IH]; intros d' a Hd Hd'.
  - destruct a; [|simpl in Hd; lia]. destruct d'; reflexivity.
  - destruct d' as [|d'].
    + destruct a; [|simpl in Hd'; lia]. reflexivity.
    + simpl. destruct (Nat.ltb_spec PW_BLOCKSIZE (List.length a)); [|reflexivity].
      unfold PW_BLOCKSIZE in *.
      pose proof (cut_bounds (List.length a) H).
      rewrite (IH d' (firstn _ a)), (IH d' (skipn _ a)); auto;
        rewrite ?length_firstn, ?length_skipn; lia.
Qed.

Lemma pairwise_sum_long a :
  (PW_BLOCKSIZE < List.length a)%nat ->
  pairwise_sum a = (pairwise_sum (firstn (cut (List.length a)) a)
                    + pairwise_sum (skipn (cut (List.length a)) a))%float.
Proof.
  intros H. unfold pairwise_sum at 1.
  destruct (List.length a) as [|n] eqn:E; [unfold PW_BLOCKSIZE in H; lia|].
  cbn [pairwise]. rewrite E.
  apply Nat.ltb_lt in H. rewrite H. apply Nat.ltb_lt in H.
  unfold PW_BLOCKSIZE in H. pose proof (cut_bounds (S n) H).
  unfold pairwise_sum. rewrite <- E in *.
  f_equal; apply pairwise_depth; rewrite ?length_firstn, ?length_skipn; lia.
Qed.

Lemma pairwise_sum_block a :
  (List.length a <= PW_BLOCKSIZE)%nat -> pairwise_sum a = block_sum a.
Proof.
  intros H. unfold pairwise_sum. destruct (List.length a) eqn:E; [reflexivity|].
  cbn [pairwise]. rewrite E. apply Nat.ltb_ge in H. now rewrite H.
Qed.

(** Ten cells of 0.1 add up to 1.0 in eight running sums, and to
    0.9999999999999999 added one by one. *)
Lemma ten_tenths :
  series_sum (repeat 0.1%float 10) = 1%float
  /\ add_each 0 (repeat 0.1%float 10) = 0.9999999999999999%float.
Proof. split; reflexivity. Qed.

(** C4, as the code has it.  For every filtered frame, the empty one
    included: the totals are the sums of their columns; [margem_global] is
    [total_lucro / total_faturamento] when [total_faturamento > 0] and 0
    otherwise; [ticket_medio] is [total_faturamento / num_vendas] when
    [num_vendas > 0] and 0 otherwise; on the empty frame both are 0.  The
    computation is a total function (it raises nothing), the division of the
    margin is never by zero, and the margin is NaN only when [total_lucro] is
    NaN or both totals are infinite.  (NaN and Infinity do come out: see
    [C4_nan_and_infinite_metrics].) *)
Theorem C4_metrics_zero_guards (df : Frame) :
  let m := metrics df in
  total_faturamento m = series_sum (map faturamento df)
  /\ total_lucro m = series_sum (map lucro df)
  /\ num_vendas m = List.length df
  /\ margem_global m
     = (if (0 <? total_faturamento m)%float
        then (total_lucro m / total_faturamento m)%float else 0%float)
  /\ ticket_medio m
     = (if (0 <? num_vendas m)%nat
        then (total_faturamento m / float_of_len (num_vendas m))%float
        else 0%float)
  /\ ((0 <? total_faturamento m)%float = true ->
      (total_faturamento m =? 0)%float = false)
  /\ (is_nan (margem_global m) = true ->
      is_nan (total_lucro m) = true
      \/ (is_infinity (total_lucro m) = true
          /\ is_infinity (total_faturamento m) = true))
  /\ margem_global (metrics []) = 0%float
  /\ ticket_medio (metrics []) = 0%float.
Proof.
  cbv zeta. repeat (split; [reflexivity|]).
  split; [apply ltb_zero_neq|].
  split; [|split; reflexivity].
  unfold metrics; simpl.
  set (tf := series_sum (map faturamento df)).
  set (tl := series_sum (map lucro df)).
  destruct (0 <? tf)%float eqn:Epos; [|discriminate].
  intros Hn. pose proof (ltb_zero_neq tf Epos) as Hz.
  destruct (div_nan_inv tl tf Hn) as [H|[H|[H|[_ H]]]]; auto.
  - exfalso. rewrite (eqb_nan_l tf 0 H) in Hz.
    rewrite ltb_spec in Epos. apply is_nan_spec in H. rewrite H in Epos.
    discriminate.
  - congruence.
Qed.

(** two lines with quantity 1 and unit price 1e308 *)
Definition huge_price_line : RawRow :=
  line "Ana" "Escrita" (Num 1) (Num 1e308) (Num 0).

(** quantity 10 and unit price 1.5, at the unit costs 1e308 and -1e308 *)
Definition huge_cost_line : RawRow :=
  line "Ana" "Escrita" (Num 10) (Num 1.5) (Num 1e308).

Definition huge_refund_line : RawRow :=
  line "Bia" "Escrita" (Num 10) (Num 1.5) (Num (-1e308)).

(** C4 fails as stated.  With two lines of unit price 1e308 the totals
    overflow to Infinity: [margem_global] is NaN and [ticket_medio] is
    Infinity.  With two lines of revenue 15 whose total costs overflow to
    Infinity and to -Infinity, the total revenue is 30 and the total profit
    is NaN: [margem_global] is NaN while [ticket_medio] is 15. *)
Lemma C4_nan_and_infinite_metrics :
  (let m := metrics (prepared aquicksort (Table [huge_price_line; huge_price_line])) in
   total_faturamento m = infinity
   /\ is_nan (margem_global m) = true
   /\ is_infinity (ticket_medio m) = true)
  /\ (let m := metrics (prepared aquicksort (Table [huge_cost_line; huge_refund_line])) in
      total_faturamento m = 30%float
      /\ is_nan (total_lucro m) = true
      /\ is_nan (margem_global m) = true
      /\ ticket_medio m = 15%float).
Proof. cbv zeta. repeat split; reflexivity. Qed.

(** The script never reaches the cards with an empty frame: it warns and
    stops at lines 119-121. *)
Lemma empty_filter_stops (sort : sorter) fmt nl src c df_raw shown :
  load_data sort src = Ok (df_raw, shown) ->
  df_raw <> [] ->
  df_filtered c df_raw = Some [] ->
  script sort fmt nl src c = Some (Stopped (shown ++ [warning_no_data])).
Proof.
  intros Hl Hne Hf. unfold script. rewrite Hl.
  destruct df_raw as [|r df']; [congruence|]. simpl is_empty. cbv iota.
  now rewrite Hf.
Qed.

End Cards.

(* ================================================================== *)
(** * Grouping and the leaderboards *)
(* ================================================================== *)

Module Groups.
Import Py F64 Pandas App Kinds Npysort Load Samples.

Lemma filter_split_perm {A} (f : A -> bool) l :
  Permutation (filter f l ++ filter (fun x => negb (f x)) l) l.
Proof.
  induction l as [|x l IH]; simpl; [constructor|].
  destruct (f x); simpl.
  - now constructor.
  - rewrite <- Permutation_middle. now constructor.
Qed.

Lemma flat_map_ext_in {A B} (f g : A -> list B) l :
  (forall a, In a l -> f a = g a) -> flat_map f l = flat_map g l.
Proof.
  induction l as [|a l IH]; simpl; intros H; [reflexivity|].
  rewrite (H a) by auto. f_equal. apply IH. auto.
Qed.

Section Partition.
Context {R K : Type} (eqb leb : K -> K -> bool) (key : R -> K).
Hypothesis eqb_eq : forall x y, eqb x y = true <-> x = y.

Let members (df : list R) (k : K) : list R :=
  filter (fun r => eqb (key r) k) df.

Lemma key_eqb_refl k : eqb k k = true.
Proof. now apply eqb_eq. Qed.

Lemma uniques_In (l : list K) k : In k (uniques eqb l) <-> In k l.
Proof.
  induction l as [|x l IH]; simpl; [tauto|].
  rewrite filter_In, IH, negb_true_iff.
  destruct (eqb k x) eqn:E.
  - apply eqb_eq in E. subst. intuition congruence.
  - assert (x <> k) by (intros ->; rewrite key_eqb_refl in E; discriminate).
    intuition congruence.
Qed.

Lemma uniques_NoDup (l : list K) : NoDup (uniques eqb l).
Proof.
  induction l as [|x l IH]; simpl; constructor.
  - rewrite filter_In, negb_true_iff, key_eqb_refl. intros [_ H]. discriminate.
  - now apply NoDup_filter.
Qed.

(** Distinct keys that cover the frame split it without loss or overlap. *)
Lemma members_partition ks : forall df,
  NoDup ks -> (forall r, In r df -> In (key r) ks) ->
  Permutation (flat_map (members df) ks) df.
Proof.
  induction ks as [|k ks IH]; intros df Hnd Hcov; simpl.
  - destruct df as [|r df]; [constructor|].
    destruct (Hcov r (or_introl eq_refl)).
  - inversion Hnd as [|? ? Hk Hnd']; subst.
    set (rest := filter (fun r => negb (eqb (key r) k)) df).
    rewrite (flat_map_ext_in (members df) (members rest)).
    + rewrite (IH rest Hnd').
      * apply filter_split_perm.
      * intros r Hr. apply filter_In in Hr. destruct Hr as [Hr Hne].
        apply negb_true_iff in Hne.
        destruct (Hcov r Hr) as [E|H]; [|exact H].
        rewrite <- E, key_eqb_refl in Hne. discriminate.
    + intros k' Hk'. unfold members, rest.
      rewrite Filters.filter_filter. apply filter_ext. intros r.
      destruct (eqb (key r) k') eqn:E; [|now rewrite andb_false_r].
      apply eqb_eq in E. subst k'.
      destruct (eqb (key r) k) eqn:E'; [|reflexivity].
      apply eqb_eq in E'. subst k. contradiction.
Qed.

Lemma groupby_keys df :
  map fst (groupby eqb leb key df) = isort leb (uniques eqb (map key df)).
Proof.
  unfold groupby. rewrite map_map. simpl. apply map_id.
Qed.

Lemma groupby_members df :
  flat_map snd (groupby eqb leb key df)
  = flat_map (members df) (isort leb (uniques eqb (map key df))).
Proof.
  unfold groupby. rewrite !flat_map_concat_map, map_map. reflexivity.
Qed.

(** The groups of a frame: every row in one group and one only, a group per
    key that occurs, each group with the rows of its key. *)
Definition partitions (groups : list (K * list R)) (df : list R) : Prop :=
  Permutation (flat_map snd groups) df
  /\ NoDup (map fst groups)
  /\ Forall (fun g => snd g <> [] /\ Forall (fun r => key r = fst g) (snd g))
            groups.

Lemma groupby_partitions df : partitions (groupby eqb leb key df) df.
Proof.
  assert (Hp := isort_perm leb (uniques eqb (map key df))).
  split; [|split].
  - rewrite groupby_members. apply members_partition.
    + apply (Permutation_NoDup (Permutation_sym Hp)), uniques_NoDup.
    + intros r Hr. apply (Permutation_in _ (Permutation_sym Hp)).
      apply uniques_In, in_map, Hr.
  - rewrite groupby_keys.
    apply (Permutation_NoDup (Permutation_sym Hp)), uniques_NoDup.
  - unfold groupby. apply Forall_forall. intros g Hg.
    apply in_map_iff in Hg. destruct Hg as (k & <- & Hk). simpl.
    apply (Permutation_in _ Hp), uniques_In, in_map_iff in Hk.
    destruct Hk as (r & Hr & Hin). split.
    + intros He. assert (Hm : In r (filter (fun r => eqb (key r) k) df)).
      { apply filter_In. split; [exact Hin|]. now apply eqb_eq. }
      rewrite He in Hm. destruct Hm.
    + apply Forall_forall. intros r' Hr'. apply filter_In in Hr'.
      now apply eqb_eq.
Qed.

End Partition.

(** ** Keys with missing cells *)

Section Dropna.
Context {R K : Type} (eqb leb : K -> K -> bool) (key : R -> option K).
Hypothesis eqb_eq : forall x y, eqb x y = true <-> x = y.
Variable d : K.

Definition key_or (r : R) : K :=
  match key r with Some k => k | None => d end.

Definition keyed (r : R) : bool := present (key r).

Lemma dropna_keyed df :
  dropna (map key df) = map key_or (filter keyed df).
Proof.
  induction df as [|r df IH]; [reflexivity|].
  cbn [map filter dropna]. unfold keyed at 1.
  destruct (key r) as [k|] eqn:E; cbn [present map]; [|exact IH].
  unfold key_or at 1. now rewrite E, IH.
Qed.

Lemma groupby_dropna_keyed df :
  groupby_dropna eqb leb key df = groupby eqb leb key_or (filter keyed df).
Proof.
  unfold groupby_dropna, groupby. rewrite dropna_keyed.
  apply map_ext. intros k. f_equal.
  induction df as [|r df IH]; [reflexivity|].
  cbn [filter]. unfold keyed at 1. unfold has_key at 1.
  destruct (key r) as [k'|] eqn:E; cbn [present]; [|exact IH].
  cbn [filter]. unfold key_or at 1. rewrite E.
  destruct (eqb k' k); now rewrite IH.
Qed.

(** The groups of a frame under [dropna]: every row that has a key is in one
    group and one only, a row without a key in none; a group per key that
    occurs, each group with the rows of its key. *)
Definition partitions_keyed (groups : list (K * list R)) (df : list R) : Prop :=
  Permutation (flat_map snd groups) (filter keyed df)
  /\ NoDup (map fst groups)
  /\ Forall (fun g => snd g <> []
                      /\ Forall (fun r => key r = Some (fst g)) (snd g))
            groups.

Lemma groupby_dropna_partitions df :
  partitions_keyed (groupby_dropna eqb leb key df) df.
Proof.
  rewrite groupby_dropna_keyed.
  destruct (groupby_partitions eqb leb key_or eqb_eq (filter keyed df))
    as (Hp & Hn & Hg).
  split; [exact Hp|]. split; [exact Hn|].
  apply Forall_forall. intros g Hin.
  rewrite Forall_forall in Hg. destruct (Hg g Hin) as [Hne Hk].
  split; [exact Hne|]. apply Forall_forall. intros r Hr.
  rewrite Forall_forall in Hk. specialize (Hk r Hr).
  assert (Hkeyed : In r (filter keyed df)).
  { apply (Permutation_in _ Hp). apply in_flat_map. eauto. }
  apply filter_In in Hkeyed. destruct Hkeyed as [_ Hkeyed].
  unfold keyed, key_or in *. destruct (key r); [now subst|discriminate].
Qed.

End Dropna.

Lemma groupby_total {R K} (eqb leb : K -> K -> bool) (key : R -> K) df :
  groupby eqb leb key df = groupby_dropna eqb leb (fun r => Some (key r)) df.
Proof.
  unfold groupby, groupby_dropna.
  assert (E : dropna (map (fun r => Some (key r)) df) = map key df)
    by (induction df as [|r df IH]; simpl; [reflexivity|now rewrite IH]).
  now rewrite E.
Qed.

Lemma pair_eqb_eq x y : pair_eqb x y = true <-> x = y.
Proof.
  destruct x as [a s], y as [b t]. unfold pair_eqb. simpl.
  rewrite andb_true_iff, Z.eqb_eq, String.eqb_eq. split.
  - now intros [-> ->].
  - intros H. injection H as -> ->. auto.
Qed.

(** Exact sums, as over whole numbers of cents. *)
Definition sumZ (l : list Z) : Z := fold_right Z.add 0%Z l.

Lemma sumZ_app l l' : sumZ (l ++ l') = (sumZ l + sumZ l')%Z.
Proof. induction l as [|x l IH]; simpl; [reflexivity|]. rewrite IH. lia. Qed.

Lemma sumZ_perm l l' : Permutation l l' -> sumZ l = sumZ l'.
Proof. induction 1; simpl; lia. Qed.

Lemma sumZ_flat_map {A B} (w : B -> Z) (f : A -> list B) l :
  sumZ (map (fun a => sumZ (map w (f a))) l) = sumZ (map w (flat_map f l)).
Proof.
  induction l as [|a l IH]; simpl; [reflexivity|].
  now rewrite map_app, sumZ_app, IH.
Qed.

Lemma exact_sums_agree {K} (groups : list (K * list Row)) (df : Frame) (w : Row -> Z) :
  Permutation (flat_map snd groups) df ->
  sumZ (map (fun g => sumZ (map w (snd g))) groups) = sumZ (map w df).
Proof.
  intros H. rewrite sumZ_flat_map. apply sumZ_perm. now apply Permutation_map.
Qed.

(** ** Sorting by value, descending *)

Lemma StronglySorted_app {A} (R : A -> A -> Prop) l1 l2 :
  StronglySorted R l1 -> StronglySorted R l2 ->
  (forall a b, In a l1 -> In b l2 -> R a b) ->
  StronglySorted R (l1 ++ l2).
Proof.
  induction 1 as [|x l1 Hs IH Hx]; simpl; intros H2 Hc; [exact H2|].
  constructor.
  - apply IH; auto.
  - apply Forall_app. split; [exact Hx|].
    apply Forall_forall. intros b Hb. apply Hc; auto.
Qed.

Lemma StronglySorted_rev {A} (R : A -> A -> Prop) l :
  StronglySorted R l -> StronglySorted (fun a b => R b a) (rev l).
Proof.
  induction 1 as [|x l Hs IH Hx]; simpl; [constructor|].
  apply StronglySorted_app; [exact IH|repeat constructor|].
  intros a b Ha [<-|[]]. apply in_rev in Ha.
  rewrite Forall_forall in Hx. now apply Hx.
Qed.

(** What a descending [nargsort] returns: the rows with a number as key, by
    key from the largest down, then the rows with a NaN key. *)
Lemma nargsort_descending (Q : Quicksort) {A} (key : A -> float) (l : list A) :
  exists sorted nans,
    nargsort Q key false l = sorted ++ nans
    /\ Permutation (sorted ++ nans) l
    /\ StronglySorted (fun a b => (key b <=? key a)%float = true) sorted
    /\ Forall (fun a => is_nan (key a) = false) sorted
    /\ Forall (fun a => is_nan (key a) = true) nans.
Proof.
  unfold nargsort.
  set (numbers := filter (fun r => negb (is_nan (key r))) l).
  set (leb := fun a b => (key a <=? key b)%float).
  assert (Hnum : forall a, In a numbers -> is_nan (key a) = false).
  { intros a Ha. apply filter_In in Ha. now apply negb_true_iff. }
  assert (Hperm : Permutation (rev (qsort Q A leb (rev numbers))) numbers).
  { rewrite <- Permutation_rev, qsort_perm. symmetry. apply Permutation_rev. }
  eexists. eexists. split; [reflexivity|]. split; [|split; [|split]].
  - apply Permutation_trans with (numbers ++ filter (fun r => is_nan (key r)) l).
    + apply Permutation_app_tail, Hperm.
    + assert (E : filter (fun r => is_nan (key r)) l
                  = filter (fun r => negb (negb (is_nan (key r)))) l).
      { apply filter_ext. intros a. now rewrite negb_involutive. }
      rewrite E. apply filter_split_perm.
  - apply (StronglySorted_rev (fun a b => leb a b = true)).
    apply qsort_sorted.
    + intros x y Hx Hy. apply in_rev in Hx, Hy. apply leb_total; auto.
    + intros x y z _ _ _. apply leb_trans.
  - apply Forall_forall. intros a Ha. apply Hnum.
    now apply (Permutation_in _ Hperm).
  - apply Forall_forall. intros a Ha. now apply filter_In in Ha.
Qed.

End Groups.

(* ================================================================== *)
(** * The claims about the aggregations *)
(* ================================================================== *)

Module AggregationClaims.
Import Py F64 Pandas App Kinds Npysort Load Samples Groups.
#[local] Open Scope string_scope.

(** C6, as the code has it.  Every Top-10 view ([fat_por_cat],
    [fat_por_vend] and [fat_por_prod] are [top10] on their key) is the first
    ten rows of a rearrangement of the grouped sums in which the sums that
    are numbers come first, from the largest down, and NaN sums last.  (Among
    equal sums the order is not the order of first encounter: see
    [C6_tie_in_key_order].) *)
Theorem C6_top10_descending (Q : Quicksort) (key : Row -> string) (df : Frame) :
  exists sorted nans,
    top10 Q key df = firstn 10 (sorted ++ nans)
    /\ Permutation (sorted ++ nans)
                   (groupby_sum String.eqb str_leb key faturamento df)
    /\ StronglySorted (fun a b => (snd b <=? snd a)%float = true) sorted
    /\ Forall (fun a => is_nan (snd a) = false) sorted
    /\ Forall (fun a => is_nan (snd a) = true) nans.
Proof.
  destruct (nargsort_descending Q snd
              (groupby_sum String.eqb str_leb key faturamento df))
    as (sorted & nans & E & Hp & Hs & Hn & Hnan).
  exists sorted, nans. unfold top10, head. rewrite E. auto.
Qed.

(** two lines of equal revenue: the category Livros first, then Escrita *)
Definition livros_then_escrita : list RawRow :=
  [line "Ana" "Livros" (Num 1) (Num 10) (Num 4);
   line "Bia" "Escrita" (Num 1) (Num 10) (Num 4)].

(** the same two lines, the other way round *)
Definition escrita_then_livros : list RawRow :=
  [line "Bia" "Escrita" (Num 1) (Num 10) (Num 4);
   line "Ana" "Livros" (Num 1) (Num 10) (Num 4)].

(** C6 fails as stated: in a frame that meets the category Livros before the
    category Escrita, both with revenue 10, the Top-10 lists Escrita first.
    [groupby] hands the groups over in ascending key order, and there the
    insertion sort numpy runs on so short a column leaves them. *)
Lemma C6_tie_in_key_order :
  let df := prepared aquicksort (Table livros_then_escrita) in
  map categoria df = ["Livros"; "Escrita"]
  /\ fat_por_cat aquicksort df = [("Escrita", 10%float); ("Livros", 10%float)].
Proof. cbv zeta. split; reflexivity. Qed.

(** Whatever the sorting function, the order of first encounter cannot
    decide a tie: the two frames above, which meet the categories in
    opposite orders, get the same Top-10. *)
Lemma encounter_order_is_forgotten (Q : Quicksort) :
  fat_por_cat Q (prepared aquicksort (Table livros_then_escrita))
  = fat_por_cat Q (prepared aquicksort (Table escrita_then_livros)).
Proof.
  unfold fat_por_cat, top10. apply f_equal. apply f_equal.
  vm_compute. reflexivity.
Qed.

(** C10, as the code has it.  For every filtered frame and every grouping
    key, [groupby] splits the rows that have a key without loss and without
    double counting: the rows of the groups, taken together, are the rows of
    the frame whose key cell is not missing (pandas leaves the others out of
    every group); no key has two groups; a group holds rows of its key only.
    In the frames of this model the keys of the script (a text column, or
    the pair of year and category) hold a value in every row, and there the
    groups split the whole frame.  Sums taken in exact arithmetic agree with the split: for
    any whole-number weight of the rows, the per-group sums add up to the sum
    over the rows that have a key.  The charts show the float64 sum of each
    group ([group_sum]), and those need not add up to the float64 total of
    the cards: see [C10_sums_round_apart]. *)
Theorem C10_groups_partition_rows (Q : Quicksort) (df : Frame) :
  (forall key : Row -> option string,
      partitions_keyed key (groupby_dropna String.eqb str_leb key df) df
      /\ (forall w : Row -> Z,
             sumZ (map (fun g => sumZ (map w (snd g)))
                       (groupby_dropna String.eqb str_leb key df))
             = sumZ (map w (filter (keyed key) df))))
  /\ (forall key : Row -> string,
      groupby String.eqb str_leb key df
      = groupby_dropna String.eqb str_leb (fun r => Some (key r)) df
      /\ partitions key (groupby String.eqb str_leb key df) df
      /\ (forall w : Row -> Z,
             sumZ (map (fun g => sumZ (map w (snd g)))
                       (groupby String.eqb str_leb key df))
             = sumZ (map w df))
      /\ (forall col,
             groupby_sum String.eqb str_leb key col df
             = map (fun g => (fst g, group_sum (map col (snd g))))
                   (groupby String.eqb str_leb key df)))
  /\ partitions (fun r => (ano r, categoria r))
                (groupby pair_eqb pair_leb (fun r => (ano r, categoria r)) df) df
  /\ (forall col, Permutation (por_mes Q col df)
                              (groupby_sum String.eqb str_leb mes_ano col df)).
Proof.
  split; [|split; [|split]].
  - intros key.
    pose proof (groupby_dropna_partitions String.eqb str_leb key String.eqb_eq
                  EmptyString df) as H.
    split; [exact H|]. intros w. apply exact_sums_agree. apply H.
  - intros key.
    pose proof (groupby_partitions String.eqb str_leb key String.eqb_eq df) as H.
    split; [apply groupby_total|].
    split; [exact H|]. split; [|reflexivity].
    intros w. apply exact_sums_agree. apply H.
  - apply groupby_partitions, pair_eqb_eq.
  - intros col. apply qsort_perm.
Qed.

(** three lines of quantity 1 at the prices 0.1, 0.2 and 0.3, the first in
    one category and the other two in another *)
Definition three_prices : list RawRow :=
  [line "Ana" "Escrita" (Num 1) (Num 0.1) (Num 0);
   line "Bia" "Livros" (Num 1) (Num 0.2) (Num 0);
   line "Caio" "Livros" (Num 1) (Num 0.3) (Num 0)].

(** a sale of one unit at 1e308 in each of two categories, and the return
    of one unit at that price in the first *)
Definition huge_sales_and_return : list RawRow :=
  [line "Ana" "Escrita" (Num 1) (Num 1e308) (Num 0);
   line "Bia" "Livros" (Num 1) (Num 1e308) (Num 0);
   line "Caio" "Escrita" (Num (-1)) (Num 1e308) (Num 0)].

(** C10 fails as stated.  On the three prices the revenue per category is
    0.1 and 0.5, which add up to 0.6, while the total revenue is
    0.6000000000000001.  On the sales and the return the revenue per category
    is 0 and 1e308, while the total revenue is Infinity. *)
Lemma C10_sums_round_apart :
  (let df := prepared aquicksort (Table three_prices) in
   fat_cat_share df = [("Escrita", 0.1%float); ("Livros", 0.5%float)]
   /\ series_sum (map snd (fat_cat_share df)) = 0.6%float
   /\ total_faturamento (metrics df) = 0.6000000000000001%float
   /\ (series_sum (map snd (fat_cat_share df))
       =? total_faturamento (metrics df))%float = false)
  /\ (let df := prepared aquicksort (Table huge_sales_and_return) in
      fat_cat_share df = [("Escrita", 0%float); ("Livros", 1e308%float)]
      /\ series_sum (map snd (fat_cat_share df)) = 1e308%float
      /\ total_faturamento (metrics df) = infinity).
Proof. cbv zeta. repeat split; reflexivity. Qed.

(** A frame in which a client is missing, grouped by client: the row
    without a client is in no group. *)
Lemma missing_key_is_dropped :
  let df := prepared aquicksort
              (Table [plain_line;
                      {| raw_data_venda := Date jan_5; raw_cliente := None;
                         raw_vendedor := "Rui"; raw_produto := "Caneta";
                         raw_categoria := "Escrita";
                         raw_fornecedor := "Papelaria SA";
                         raw_quantidade := Num 1; raw_valor_venda := Num 5;
                         raw_valor_custo := Num 2 |}]) in
  List.length df = 2%nat
  /\ map (fun g => (fst g, List.length (snd g)))
         (groupby_dropna String.eqb str_leb cliente df) = [("Ana", 1%nat)].
Proof. cbv zeta. split; reflexivity. Qed.

End AggregationClaims.

(* ================================================================== *)
(** * Texts *)
(* ================================================================== *)

Module Texts.
#[local] Open Scope string_scope.

Lemma append_assoc (a b c : string) : (a ++ b) ++ c = a ++ (b ++ c).
Proof. induction a as [|x a IH]; simpl; [reflexivity|now rewrite IH]. Qed.

Lemma append_empty (a : string) : a ++ EmptyString = a.
Proof. induction a as [|x a IH]; simpl; [reflexivity|now rewrite IH]. Qed.

End Texts.

(* ================================================================== *)
(** * Reading a CSV text back *)
(* ================================================================== *)

Module CsvReader.
Import Py F64 Pandas App.
#[local] Open Scope string_scope.

(** What "comma-delimited with a header row" means for a reader of the
    export, after RFC 4180: a text is a sequence of records, a record a
    sequence of fields separated by commas and ended by CR, LF or CR LF; a
    field in double quotes may hold commas and line breaks, and a double
    quote written twice; blank lines are no records. *)
Inductive state : Set :=
| start_record       (* at the start of a line *)
| start_field        (* just after a comma *)
| in_field           (* in a field without quotes *)
| in_quoted          (* in a quoted field *)
| quote_in_quoted.   (* just after a double quote in a quoted field *)

Definition is_break (c : ascii) : bool := Ascii.eqb c LF || Ascii.eqb c CR.

Definition snoc (s : string) (c : ascii) : string := s ++ String c EmptyString.

Fixpoint read (st : state) (field : string) (fields : list string)
    (s : string) : list (list string) :=
  match s with
  | EmptyString =>
      match st with
      | start_record => []
      | _ => [(fields ++ [field])%list]
      end
  | String c s' =>
      match st with
      | start_record =>
          if is_break c then read start_record EmptyString [] s'
          else if Ascii.eqb c dquote then read in_quoted EmptyString fields s'
          else if Ascii.eqb c "," then read start_field EmptyString (fields ++ [EmptyString])%list s'
          else read in_field (String c EmptyString) fields s'
      | start_field =>
          if is_break c then (fields ++ [EmptyString])%list :: read start_record EmptyString [] s'
          else if Ascii.eqb c dquote then read in_quoted EmptyString fields s'
          else if Ascii.eqb c "," then read start_field EmptyString (fields ++ [EmptyString])%list s'
          else read in_field (String c EmptyString) fields s'
      | in_field =>
          if is_break c then (fields ++ [field])%list :: read start_record EmptyString [] s'
          else if Ascii.eqb c "," then read start_field EmptyString (fields ++ [field])%list s'
          else read in_field (snoc field c) fields s'
      | in_quoted =>
          if Ascii.eqb c dquote then read quote_in_quoted field fields s'
          else read in_quoted (snoc field c) fields s'
      | quote_in_quoted =>
          if is_break c then (fields ++ [field])%list :: read start_record EmptyString [] s'
          else if Ascii.eqb c "," then read start_field EmptyString (fields ++ [field])%list s'
          else if Ascii.eqb c dquote then read in_quoted (snoc field dquote) fields s'
          else read in_field (snoc field c) fields s'
      end
  end.

(** The records of a CSV text. *)
Definition records (text : string) : list (list string) :=
  read start_record EmptyString [] text.



(** ** Reading back what [csv.writer] wrote *)

Import Texts.

(** A field that goes through a reader unquoted: no comma, no double quote,
    no line break. *)
Definition plain (f : string) : bool :=
  negb (existsb (fun c => is_break c || Ascii.eqb c "," || Ascii.eqb c dquote)
                (list_ascii_of_string f)).

(** A field that is written without quotes although it holds a line break:
    a carriage return, when the line terminator is the line feed alone. *)
Definition bare_break (nl : string) (f : string) : bool :=
  existsb is_break (list_ascii_of_string f) && negb (needs_quotes nl f).

Lemma plain_cons c f :
  plain (String c f) = true ->
  is_break c = false /\ Ascii.eqb c "," = false /\ Ascii.eqb c dquote = false
  /\ plain f = true.
Proof.
  unfold plain. simpl. rewrite negb_orb, andb_true_iff, !negb_orb, !andb_true_iff.
  rewrite !negb_true_iff. tauto.
Qed.

Lemma unquoted_plain nl f :
  needs_quotes nl f = false -> bare_break nl f = false -> plain f = true.
Proof.
  unfold bare_break. intros Hq. rewrite Hq, andb_true_r. revert Hq.
  unfold plain, needs_quotes.
  induction (list_ascii_of_string f) as [|c l IH]; simpl; [reflexivity|].
  intros Hq Hb. apply orb_false_iff in Hq, Hb. destruct Hq as [Hq Hq'], Hb as [Hb Hb'].
  apply orb_false_iff in Hq. destruct Hq as [Hq _].
  apply orb_false_iff in Hq. destruct Hq as [Hc Hd].
  rewrite Hb, Hc, Hd. simpl. now apply IH.
Qed.

Lemma read_plain f : forall g fields rest,
  plain f = true ->
  read in_field g fields (f ++ rest) = read in_field (g ++ f) fields rest.
Proof.
  induction f as [|c f IH]; intros g fields rest H; simpl.
  - now rewrite append_empty.
  - apply plain_cons in H. destruct H as (Hb & Hc & _ & Hf).
    rewrite Hb, Hc, IH by exact Hf. unfold snoc. now rewrite append_assoc.
Qed.

Lemma read_quoted f : forall g fields rest,
  read in_quoted g fields (double_quotes f ++ String dquote rest)
  = read quote_in_quoted (g ++ f) fields rest.
Proof.
  induction f as [|c f IH]; intros g fields rest; simpl.
  - now rewrite append_empty.
  - destruct (Ascii.eqb c dquote) eqn:E.
    + apply Ascii.eqb_eq in E. subst c. simpl. rewrite IH.
      unfold snoc. now rewrite append_assoc.
    + simpl. rewrite E, IH. unfold snoc. now rewrite append_assoc.
Qed.

(** What a reader has after a written field, whatever follows: the field. *)
Inductive field_read (fields : list string) (f : string) (rest : string)
  : list (list string) -> Prop :=
| read_unquoted_empty :
    f = EmptyString ->
    field_read fields f rest (read start_field EmptyString fields rest)
| read_unquoted :
    field_read fields f rest (read in_field f fields rest)
| read_in_quotes :
    field_read fields f rest (read quote_in_quoted f fields rest).

Lemma field_read_comma fields f rest out :
  field_read fields f (String "," rest) out ->
  out = read start_field EmptyString (fields ++ [f])%list rest.
Proof. intros [->| |]; reflexivity. Qed.

Lemma field_read_break fields f c rest out :
  is_break c = true ->
  field_read fields f (String c rest) out ->
  out = (fields ++ [f])%list :: read start_record EmptyString [] rest.
Proof. intros Hc [->| |]; simpl; now rewrite Hc. Qed.

Lemma field_read_end fields f out :
  field_read fields f EmptyString out -> out = [(fields ++ [f])%list].
Proof. intros [->| |]; reflexivity. Qed.

Lemma written_field_read nl fields f rest :
  bare_break nl f = false ->
  field_read fields f rest
    (read start_field EmptyString fields (quote_minimal nl f ++ rest)).
Proof.
  intros Hb. unfold quote_minimal. destruct (needs_quotes nl f) eqn:Hq.
  - change (read start_field EmptyString fields
              (String dquote (double_quotes f ++ String dquote EmptyString) ++ rest))
      with (read in_quoted EmptyString fields
              ((double_quotes f ++ String dquote EmptyString) ++ rest)).
    rewrite append_assoc. cbn [String.append]. rewrite read_quoted.
    apply read_in_quotes.
  - pose proof (unquoted_plain nl f Hq Hb) as Hp.
    destruct f as [|c f]; [now apply read_unquoted_empty|].
    destruct (plain_cons c f Hp) as (H1 & H2 & H3 & Hf).
    simpl. rewrite H1, H2, H3, read_plain by exact Hf. apply read_unquoted.
Qed.

(** The first field of a line is read the same way, unless the line is
    blank. *)
Lemma first_field_read nl f rest :
  bare_break nl f = false ->
  (f = EmptyString -> exists rest', rest = String "," rest') ->
  read start_record EmptyString [] (quote_minimal nl f ++ rest)
  = read start_field EmptyString [] (quote_minimal nl f ++ rest).
Proof.
  intros Hb He. unfold quote_minimal. destruct (needs_quotes nl f) eqn:Hq.
  - reflexivity.
  - destruct f as [|c f].
    + destruct (He eq_refl) as [rest' ->]. reflexivity.
    + pose proof (unquoted_plain nl _ Hq Hb) as Hp.
      destruct (plain_cons c f Hp) as (H1 & H2 & H3 & Hf).
      simpl. now rewrite H1, H2, H3.
Qed.

Definition is_linesep (nl : string) : Prop := exists os, nl = linesep os.

Lemma read_linesep nl rest :
  is_linesep nl ->
  exists c rest', (nl ++ rest) = String c rest' /\ is_break c = true
    /\ read start_record EmptyString [] rest'
       = read start_record EmptyString [] rest.
Proof.
  intros [[|] ->]; simpl; eexists; eexists; split; try reflexivity;
    split; reflexivity.
Qed.

(** The fields of a line after the first. *)
Lemma read_line_rest nl (Hnl : is_linesep nl) fs : forall fields f rest,
  Forall (fun f => bare_break nl f = false) (f :: fs) ->
  read start_field EmptyString fields (csv_line nl (f :: fs) ++ nl ++ rest)
  = (fields ++ f :: fs)%list :: read start_record EmptyString [] rest.
Proof.
  induction fs as [|f' fs IH]; intros fields f rest H;
    inversion H as [|? ? Hf Hfs]; subst.
  - unfold csv_line. simpl.
    pose proof (written_field_read nl fields f (nl ++ rest) Hf) as R.
    destruct (read_linesep nl rest Hnl) as (c & rest' & E & Hc & Hr).
    rewrite E in *. rewrite (field_read_break _ _ _ _ _ Hc R). now rewrite Hr.
  - change (csv_line nl (f :: f' :: fs))
      with (quote_minimal nl f ++ "," ++ csv_line nl (f' :: fs)).
    rewrite append_assoc. simpl.
    pose proof (written_field_read nl fields f
                  (String "," (csv_line nl (f' :: fs) ++ nl ++ rest)) Hf) as R.
    rewrite (field_read_comma _ _ _ _ R), IH by exact Hfs.
    now rewrite <- app_assoc.
Qed.

(** A line of two fields or more, read from its start. *)
Lemma read_line nl (Hnl : is_linesep nl) f f' fs rest :
  Forall (fun f => bare_break nl f = false) (f :: f' :: fs) ->
  read start_record EmptyString [] (csv_line nl (f :: f' :: fs) ++ nl ++ rest)
  = (f :: f' :: fs) :: read start_record EmptyString [] rest.
Proof.
  intros H.
  change (csv_line nl (f :: f' :: fs))
    with (quote_minimal nl f ++ "," ++ csv_line nl (f' :: fs)).
  rewrite append_assoc. simpl.
  inversion H as [|? ? Hf Hfs]; subst.
  rewrite first_field_read; [|exact Hf|eauto].
  pose proof (written_field_read nl [] f
                (String "," (csv_line nl (f' :: fs) ++ nl ++ rest)) Hf) as R.
  rewrite (field_read_comma _ _ _ _ R). cbn [app].
  now rewrite (read_line_rest nl Hnl fs [f] f' rest Hfs).
Qed.

(** The text [csv.writer] makes of some lines. *)
Definition written (nl : string) (lines : list (list string)) : string :=
  String.concat EmptyString (map (fun l => csv_line nl l ++ nl) lines).

Lemma concat_lines_cons (x : string) (l : list string) :
  String.concat EmptyString (x :: l) = x ++ String.concat EmptyString l.
Proof. destruct l; simpl; [now rewrite append_empty|reflexivity]. Qed.

(** Reading gives back the lines that were written, field by field, when
    every line has two fields or more and no field has a line break written
    without quotes. *)
Lemma records_written nl (Hnl : is_linesep nl) (lines : list (list string)) :
  Forall (fun l => (2 <= List.length l)%nat
                   /\ Forall (fun f => bare_break nl f = false) l) lines ->
  records (written nl lines) = lines.
Proof.
  unfold records, written.
  induction 1 as [|l lines [Hlen Hl] _ IH]; [reflexivity|].
  cbn [map]. rewrite concat_lines_cons, append_assoc.
  destruct l as [|f [|f' fs]]; simpl in Hlen; try lia.
  rewrite (read_line nl Hnl f f' fs _ Hl). now rewrite IH.
Qed.

(** With the line terminator CR LF every line break is quoted. *)
Lemma nt_quotes_breaks f : bare_break (linesep nt) f = false.
Proof.
  unfold bare_break, needs_quotes.
  induction (list_ascii_of_string f) as [|c l IH]; [reflexivity|].
  cbn [existsb linesep list_ascii_of_string]. unfold is_break at 1.
  rewrite orb_false_r.
  destruct (existsb is_break l), (existsb _ l); try discriminate IH;
    destruct (Ascii.eqb c LF), (Ascii.eqb c CR), (Ascii.eqb c ","),
             (Ascii.eqb c dquote); reflexivity.
Qed.

End CsvReader.

(* ================================================================== *)
(** * The claims about the filters and the export *)
(* ================================================================== *)

Module ViewClaims.
Import Py F64 Pandas App Repr Kinds Npysort Load Samples Filters CsvReader.
#[local] Open Scope string_scope.

(** the whole of 2023, nothing selected, the search text a single dot *)
Definition dot_search : Criteria :=
  {| start_date := {| year := 2023; month := 1; day := 1 |};
     end_date := {| year := 2023; month := 12; day := 31 |};
     selected_years := [];
     selected_cats := [];
     selected_sellers := [];
     selected_suppliers := [];
     selected_products := [];
     client_search := "." |}.

(** C3 on a failing input: the frame holds one record, of the client Ana,
    and the search text is a dot.  No dot occurs in Ana, yet the record
    passes the client test and stays in the filtered frame: [str.contains]
    reads the search text as a regular expression, in which the dot stands
    for any character. *)
Theorem C3_dot_matches_any_client :
  let df := prepared aquicksort (Table [plain_line]) in
  map cliente df = [Some "Ana"]
  /\ is_substring_ci "." "Ana" = false
  /\ df_filtered dot_search df = Some df.
Proof. cbv zeta. repeat split; reflexivity. Qed.

(** The cells of a row of the detail table, in the order of [cols_view]. *)
Definition detail_cells (r : Row) : list value :=
  [VTime (data_venda r); VStr (cliente r); VStr (Some (vendedor r));
   VStr (Some (produto r)); VStr (Some (categoria r));
   VStr (Some (fornecedor r)); VFloat (quantidade r);
   VFloat (valor_venda r); VFloat (valor_custo r); VFloat (faturamento r);
   VFloat (lucro r); VFloat (margem_pct r)].

Lemma select_row_cols_view r : select_row cols_view r = Ok (detail_cells r).
Proof. reflexivity. Qed.

Lemma mapM_select df : mapM (select_row cols_view) df = Ok (map detail_cells df).
Proof.
  induction df as [|r df IH]; [reflexivity|].
  change (mapM (select_row cols_view) (r :: df))
    with (b <- select_row cols_view r ;;
          bs <- mapM (select_row cols_view) df ;; Ok (b :: bs)).
  now rewrite select_row_cols_view, IH.
Qed.

Lemma df_display_cols df :
  df_display df = Ok {| columns := cols_view; body := map detail_cells df |}.
Proof. unfold df_display, getitem. now rewrite mapM_select. Qed.

Lemma csv_line_header os :
  csv_line (linesep os) cols_view
  = "data_venda,cliente,vendedor,produto,categoria,fornecedor,quantidade,valor_venda,valor_custo,faturamento,lucro,margem_pct".
Proof. destruct os; reflexivity. Qed.

(** C9, as the code has it.  For every filtered frame the export is a CSV
    text that begins with the header line of the twelve names data_venda,
    cliente, vendedor, produto, categoria, fornecedor, quantidade,
    valor_venda, valor_custo, faturamento, lucro, margem_pct (the spec's
    sale_date ... margin_pct), and that reads back, field by field, as that
    header followed by one record per row of the frame, in frame order, with
    the twelve cells of that row.  Where the line terminator is the line feed
    alone this needs that no cell is written with a bare line break in it: see
    [C9_bare_carriage_return]. *)
Theorem C9_export_columns (fmt : Formats) (os : OS) (df : Frame) :
  (os = posix ->
   forall r, In r df ->
     Forall (fun v => bare_break (linesep os) (cell_text fmt v) = false)
            (detail_cells r)) ->
  exists t text,
    df_display df = Ok t
    /\ columns t = ["data_venda"; "cliente"; "vendedor"; "produto";
                    "categoria"; "fornecedor"; "quantidade"; "valor_venda";
                    "valor_custo"; "faturamento"; "lucro"; "margem_pct"]
    /\ body t = map detail_cells df
    /\ csv fmt (linesep os) df = Ok text
    /\ (exists rows,
          text = "data_venda,cliente,vendedor,produto,categoria,fornecedor,quantidade,valor_venda,valor_custo,faturamento,lucro,margem_pct"
                 ++ linesep os ++ rows)
    /\ records text
       = ["data_venda"; "cliente"; "vendedor"; "produto"; "categoria";
          "fornecedor"; "quantidade"; "valor_venda"; "valor_custo";
          "faturamento"; "lucro"; "margem_pct"]
         :: map (fun r => map (cell_text fmt) (detail_cells r)) df.
Proof.
  intros Hcr.
  assert (H : forall r, In r df ->
            Forall (fun v => bare_break (linesep os) (cell_text fmt v) = false)
                   (detail_cells r)).
  { destruct os; [now apply Hcr|].
    intros r _. apply Forall_forall. intros v _. apply nt_quotes_breaks. }
  clear Hcr.
  eexists. eexists. split; [apply df_display_cols|].
  split; [reflexivity|]. split; [reflexivity|].
  split; [unfold csv; rewrite df_display_cols; reflexivity|].
  unfold to_csv, csv_lines. cbn [columns body]. split.
  - cbn [map]. rewrite concat_lines_cons, Texts.append_assoc, csv_line_header.
    eexists. reflexivity.
  - rewrite <- (map_map (map (cell_text fmt)) (csv_line (linesep os))).
    change (csv_line (linesep os) cols_view
            :: map (csv_line (linesep os))
                   (map (map (cell_text fmt)) (map detail_cells df)))
      with (map (csv_line (linesep os))
                (cols_view :: map (map (cell_text fmt)) (map detail_cells df))).
    rewrite map_map.
    change (String.concat EmptyString
              (map (fun l => csv_line (linesep os) l ++ linesep os)
                   (cols_view :: map (map (cell_text fmt)) (map detail_cells df))))
      with (written (linesep os)
              (cols_view :: map (map (cell_text fmt)) (map detail_cells df))).
    rewrite records_written.
    + now rewrite map_map.
    + now exists os.
    + constructor.
      * split; [simpl; lia|]. destruct os; repeat constructor.
      * apply Forall_forall. intros l Hl. rewrite map_map in Hl.
        apply in_map_iff in Hl. destruct Hl as (r & <- & Hr).
        split; [simpl; lia|]. apply Forall_map. exact (H r Hr).
Qed.

(** quantity 2.5, price 10.5, cost 4.5 *)
Definition decimal_line : RawRow :=
  line "Ana" "Escrita" (Num 2.5) (Num 10.5) (Num 4.5).

(** C9 on an input: the frame of one prepared line, exported on POSIX. *)
Lemma C9_export_columns_witness :
  let df := prepared aquicksort (Table [decimal_line]) in
  exists t text,
    df_display df = Ok t
    /\ columns t = ["data_venda"; "cliente"; "vendedor"; "produto";
                    "categoria"; "fornecedor"; "quantidade"; "valor_venda";
                    "valor_custo"; "faturamento"; "lucro"; "margem_pct"]
    /\ body t = map detail_cells df
    /\ csv (pandas_formats df) (linesep posix) df = Ok text
    /\ (exists rows,
          text = "data_venda,cliente,vendedor,produto,categoria,fornecedor,quantidade,valor_venda,valor_custo,faturamento,lucro,margem_pct"
                 ++ linesep posix ++ rows)
    /\ records text
       = ["data_venda"; "cliente"; "vendedor"; "produto"; "categoria";
          "fornecedor"; "quantidade"; "valor_venda"; "valor_custo";
          "faturamento"; "lucro"; "margem_pct"]
         :: map (fun r => map (cell_text (pandas_formats df)) (detail_cells r)) df.
Proof.
  cbv zeta.
  apply (C9_export_columns
           (pandas_formats (prepared aquicksort (Table [decimal_line]))) posix
           (prepared aquicksort (Table [decimal_line]))).
  intros _ r [<-|[]]. repeat constructor.
Defined.

(** The export of that frame, as it reads back. *)
Lemma export_of_decimal_line :
  let df := prepared aquicksort (Table [decimal_line]) in
  exists text,
    csv (pandas_formats df) (linesep posix) df = Ok text
    /\ records text
       = [["data_venda"; "cliente"; "vendedor"; "produto"; "categoria";
           "fornecedor"; "quantidade"; "valor_venda"; "valor_custo";
           "faturamento"; "lucro"; "margem_pct"];
          ["2023-01-05"; "Ana"; "Rui"; "Caneta"; "Escrita"; "Papelaria SA";
           "2.5"; "10.5"; "4.5"; "26.25"; "15.0"; "0.5714285714285714"]].
Proof. cbv zeta. eexists. split; reflexivity. Qed.

(** a line whose client is written A, carriage return, B *)
Definition cr_client_line : RawRow :=
  line (String "A" (String CR "B")) "Escrita" (Num 2.5) (Num 10.5) (Num 4.5).

(** C9 fails as stated: on POSIX a client name with a carriage return in it
    is written without quotes, and the export of that one row reads back as
    a header and two records, of 2 and 11 fields. *)
Lemma C9_bare_carriage_return :
  let df := prepared aquicksort (Table [cr_client_line]) in
  List.length df = 1%nat
  /\ exists text,
       csv (pandas_formats df) (linesep posix) df = Ok text
       /\ map (@List.length string) (records text) = [12; 2; 11]%nat
       /\ records text
          = [["data_venda"; "cliente"; "vendedor"; "produto"; "categoria";
              "fornecedor"; "quantidade"; "valor_venda"; "valor_custo";
              "faturamento"; "lucro"; "margem_pct"];
             ["2023-01-05"; "A"];
             ["B"; "Rui"; "Caneta"; "Escrita"; "Papelaria SA"; "2.5"; "10.5";
              "4.5"; "26.25"; "15.0"; "0.5714285714285714"]].
Proof.
  cbv zeta. split; [reflexivity|]. eexists. split; [reflexivity|].
  split; reflexivity.
Qed.

End ViewClaims.

(* ================================================================== *)
(** * Further properties of the filters and the views *)
(* ================================================================== *)

Module Further.
Import Py F64 Pandas App Kinds Npysort Load Samples Filters Groups.
#[local] Open Scope string_scope.

Lemma filter_idem {A} (f : A -> bool) l : filter f (filter f l) = filter f l.
Proof.
  rewrite filter_filter. apply filter_ext. intros a. now destruct (f a).
Qed.

Lemma df_filtered_pattern c df out :
  df_filtered c df = Some out -> exists p, re_compile (client_search c) = Some p.
Proof.
  unfold df_filtered. destruct (client_search c) as [|a s]; [simpl; eauto|].
  destruct (re_compile (String a s)); [eauto|discriminate].
Qed.

(** Filtering is idempotent: the filtered frame, filtered again by the same
    criteria, is itself. *)
Theorem filtering_is_idempotent (c : Criteria) (df out : Frame) :
  df_filtered c df = Some out -> df_filtered c out = Some out.
Proof.
  intros H. destruct (df_filtered_pattern c df out H) as [p Hp].
  rewrite (df_filtered_filter c df p Hp) in H. injection H as <-.
  rewrite (df_filtered_filter c _ p Hp). now rewrite filter_idem.
Qed.

(** the whole of 2023, nothing selected, no search text *)
Definition all_of_2023 : Criteria :=
  {| start_date := {| year := 2023; month := 1; day := 1 |};
     end_date := {| year := 2023; month := 12; day := 31 |};
     selected_years := [];
     selected_cats := [];
     selected_sellers := [];
     selected_suppliers := [];
     selected_products := [];
     client_search := "" |}.

Lemma filtering_is_idempotent_witness :
  exists out,
    df_filtered escrita_from_10_january (prepared aquicksort (Table january_lines))
    = Some out
    /\ map cliente out = [Some "Duda"; Some "Caio"]
    /\ df_filtered escrita_from_10_january out = Some out.
Proof.
  eexists. split; [reflexivity|]. split; [reflexivity|].
  apply (filtering_is_idempotent escrita_from_10_january
           (prepared aquicksort (Table january_lines))).
  reflexivity.
Defined.

(** With nothing selected, no search text and a date range that covers the
    frame, filtering returns the frame as it is. *)
Theorem no_criteria_keep_all (c : Criteria) (df : Frame) :
  selected_years c = [] -> selected_cats c = [] -> selected_sellers c = [] ->
  selected_suppliers c = [] -> selected_products c = [] ->
  client_search c = "" ->
  Forall (fun r => mask_date c r = true) df ->
  df_filtered c df = Some df.
Proof.
  intros Hy Hc Hs Hf Hp Hq Hd. unfold df_filtered.
  rewrite Hy, Hc, Hs, Hf, Hp, Hq. simpl. f_equal.
  induction Hd as [|r df Hr _ IH]; simpl; [reflexivity|].
  now rewrite Hr, IH.
Qed.

Lemma no_criteria_keep_all_witness :
  let df := prepared aquicksort (Table [plain_line; zero_quantity_line]) in
  Forall (fun r => mask_date all_of_2023 r = true) df
  /\ df_filtered all_of_2023 df = Some df.
Proof.
  cbv zeta.
  assert (H : Forall (fun r => mask_date all_of_2023 r = true)
                (prepared aquicksort (Table [plain_line; zero_quantity_line]))).
  { repeat constructor. }
  split; [exact H|].
  apply (no_criteria_keep_all all_of_2023); try reflexivity. exact H.
Defined.

(** A Top-10 over ten groups or fewer keeps every group. *)
Theorem top10_of_few_groups (Q : Quicksort) (key : Row -> string) (df : Frame) :
  (List.length (groupby_sum String.eqb str_leb key faturamento df) <= 10)%nat ->
  Permutation (top10 Q key df)
              (groupby_sum String.eqb str_leb key faturamento df).
Proof.
  intros Hlen.
  destruct (nargsort_descending Q snd
              (groupby_sum String.eqb str_leb key faturamento df))
    as (sorted & nans & E & Hp & _).
  unfold top10, head. rewrite E.
  rewrite firstn_all2; [exact Hp|].
  now rewrite (Permutation_length Hp).
Qed.

Lemma top10_of_few_groups_witness :
  let df := prepared aquicksort (Table [plain_line; zero_quantity_line]) in
  (List.length (groupby_sum String.eqb str_leb categoria faturamento df) <= 10)%nat
  /\ Permutation (top10 insertion categoria df)
                 (groupby_sum String.eqb str_leb categoria faturamento df).
Proof.
  cbv zeta.
  assert (H : (List.length
                 (groupby_sum String.eqb str_leb categoria faturamento
                    (prepared aquicksort
                       (Table [plain_line; zero_quantity_line]))) <= 10)%nat).
  { vm_compute. lia. }
  split; [exact H|]. apply (top10_of_few_groups insertion). exact H.
Defined.

(** The example of the specification: two lines of 5 January 2023 with
    price 10 and cost 4, of quantity 2 and of quantity 0.  The total revenue
    is 20, the total profit 12, and the margin of the second record is 0. *)
Theorem two_line_example :
  let df := prepared aquicksort (Table [plain_line; zero_quantity_line]) in
  total_faturamento (metrics df) = 20%float
  /\ total_lucro (metrics df) = 12%float
  /\ map faturamento df = [20%float; 0%float]
  /\ map margem_pct df = [0.6%float; 0%float].
Proof. cbv zeta. repeat split; reflexivity. Qed.

(** The flag of line 183 is set exactly when some category has a negative
    summed profit. *)
Theorem has_negative_iff (g : list (string * float)) :
  has_negative g = true <-> exists kv, In kv g /\ (snd kv <? 0)%float = true.
Proof. unfold has_negative. apply existsb_exists. Qed.

End Further.

(* ================================================================== *)
(** * The monthly series and the order of the month keys *)
(* ================================================================== *)

Module MonthKeys.
Import Py F64 Pandas App Kinds Npysort Load Samples Filters Groups.
Import Texts.

Lemma str_leb_total a : forall b, str_leb a b = true \/ str_leb b a = true.
Proof.
  induction a as [|x a IH]; intros [|y b]; simpl; auto.
  destruct (Nat.ltb_spec (nat_of_ascii x) (nat_of_ascii y)); auto.
  destruct (Nat.ltb_spec (nat_of_ascii y) (nat_of_ascii x)); auto.
  destruct (Nat.eqb_spec (nat_of_ascii x) (nat_of_ascii y)); [|lia].
  destruct (Nat.eqb_spec (nat_of_ascii y) (nat_of_ascii x)); [|lia].
  apply IH.
Qed.

Lemma str_leb_trans a : forall b c,
  str_leb a b = true -> str_leb b c = true -> str_leb a c = true.
Proof.
  induction a as [|x a IH]; intros [|y b] [|z c]; simpl; auto; try discriminate.
  destruct (Nat.ltb_spec (nat_of_ascii x) (nat_of_ascii y)),
           (Nat.ltb_spec (nat_of_ascii y) (nat_of_ascii z)),
           (Nat.ltb_spec (nat_of_ascii x) (nat_of_ascii z)); auto; try lia;
    destruct (Nat.eqb_spec (nat_of_ascii x) (nat_of_ascii y)),
             (Nat.eqb_spec (nat_of_ascii y) (nat_of_ascii z)),
             (Nat.eqb_spec (nat_of_ascii x) (nat_of_ascii z));
    try discriminate; try lia.
  apply IH.
Qed.

(** The groups of a [groupby] come in ascending key order. *)
Lemma groupby_keys_ascending {R} (key : R -> string) (df : list R) :
  StronglySorted (fun a b => str_leb a b = true)
                 (map fst (groupby String.eqb str_leb key df)).
Proof.
  rewrite groupby_keys. apply isort_contract.
  - intros x y _ _. apply str_leb_total.
  - intros x y z _ _ _. apply str_leb_trans.
Qed.

(** The monthly series of lines 157 and 193 are in ascending order of the
    month key, whatever the sort does with ties. *)
Theorem por_mes_ascending (Q : Quicksort) (col : Row -> float) (df : Frame) :
  StronglySorted (fun a b => str_leb (fst a) (fst b) = true) (por_mes Q col df).
Proof.
  unfold por_mes. apply (qsort_sorted Q _ (by_key str_leb)).
  - intros x y _ _. apply str_leb_total.
  - intros x y z _ _ _. apply str_leb_trans.
Qed.

Lemma nat_of_digit n : nat_of_ascii (digit n) = (48 + Z.to_nat (n mod 10))%nat.
Proof.
  unfold digit. apply nat_ascii_embedding.
  pose proof (Z.mod_pos_bound n 10 eq_refl). lia.
Qed.

Lemma two_digits m :
  (0 <= m < 100)%Z ->
  exists d1 d0 : Z,
    (0 <= d1 <= 9 /\ 0 <= d0 <= 9 /\ m = 10 * d1 + d0
     /\ (m / 10) mod 10 = d1 /\ m mod 10 = d0)%Z.
Proof.
  intros H. exists (m / 10)%Z, (m mod 10)%Z.
  repeat split; try (Z.div_mod_to_equations; lia).
Qed.

(** Two digits in front of a text order it as the number they write. *)
Lemma str_leb_pad2 m n s t :
  (0 <= m < 100)%Z -> (0 <= n < 100)%Z ->
  str_leb (pad2 m ++ s) (pad2 n ++ t)
  = (m <? n)%Z || ((m =? n)%Z && str_leb s t).
Proof.
  intros Hm Hn. unfold pad2. cbn [String.append str_leb]. rewrite !nat_of_digit.
  destruct (two_digits m Hm) as (a1 & a0 & Ha1 & Ha0 & Em & -> & ->).
  destruct (two_digits n Hn) as (b1 & b0 & Hb1 & Hb0 & En & -> & ->).
  subst m n. clear Hm Hn.
  destruct (Nat.ltb_spec (48 + Z.to_nat a1) (48 + Z.to_nat b1));
    [destruct (Z.ltb_spec (10 * a1 + a0) (10 * b1 + b0)); [reflexivity|lia]|].
  destruct (Nat.eqb_spec (48 + Z.to_nat a1) (48 + Z.to_nat b1));
    [|destruct (Z.ltb_spec (10 * a1 + a0) (10 * b1 + b0)); [lia|];
      destruct (Z.eqb_spec (10 * a1 + a0) (10 * b1 + b0)); [lia|reflexivity]].
  assert (a1 = b1) by lia. subst b1.
  destruct (Nat.ltb_spec (48 + Z.to_nat a0) (48 + Z.to_nat b0));
    [destruct (Z.ltb_spec (10 * a1 + a0) (10 * a1 + b0)); [reflexivity|lia]|].
  destruct (Nat.eqb_spec (48 + Z.to_nat a0) (48 + Z.to_nat b0));
    [|destruct (Z.ltb_spec (10 * a1 + a0) (10 * a1 + b0)); [lia|];
      destruct (Z.eqb_spec (10 * a1 + a0) (10 * a1 + b0)); [lia|reflexivity]].
  assert (a0 = b0) by lia. subst b0.
  rewrite Z.ltb_irrefl, Z.eqb_refl. reflexivity.
Qed.

Lemma pad4_pad2 y : pad4 y = (pad2 (y / 100) ++ pad2 (y mod 100))%string.
Proof.
  unfold pad4, pad2, digit. cbn [String.append].
  rewrite Z.div_div by lia. change (100 * 10)%Z with 1000%Z.
  assert (E1 : ((y mod 100 / 10) mod 10 = (y / 10) mod 10)%Z)
    by (Z.div_mod_to_equations; lia).
  assert (E0 : ((y mod 100) mod 10 = y mod 10)%Z)
    by (Z.div_mod_to_equations; lia).
  now rewrite E1, E0.
Qed.

(** The month keys of line 25, as in '2023-01', are ordered as text the way
    their months are ordered in time: first by year, then by month.  So the
    monthly series, sorted by the key, run in time. *)
Theorem month_key_order_is_chronological (a b : Timestamp) :
  (0 <= year (date_of a) < 10000)%Z -> (0 <= year (date_of b) < 10000)%Z ->
  (0 <= month (date_of a) < 100)%Z -> (0 <= month (date_of b) < 100)%Z ->
  str_leb (period_M_str a) (period_M_str b) = true
  <-> (year (date_of a) < year (date_of b)
       \/ (year (date_of a) = year (date_of b)
           /\ month (date_of a) <= month (date_of b)))%Z.
Proof.
  intros Hya Hyb Hma Hmb. unfold period_M_str.
  set (ya := year (date_of a)) in *. set (yb := year (date_of b)) in *.
  set (ma := month (date_of a)) in *. set (mb := month (date_of b)) in *.
  rewrite !pad4_pad2, !append_assoc.
  rewrite str_leb_pad2 by (Z.div_mod_to_equations; lia).
  rewrite str_leb_pad2 by (Z.div_mod_to_equations; lia).
  cbn [String.append str_leb].
  change (nat_of_ascii "-" <? nat_of_ascii "-")%nat with false.
  change (nat_of_ascii "-" =? nat_of_ascii "-")%nat with true.
  cbv iota.
  rewrite <- (append_empty (pad2 ma)), <- (append_empty (pad2 mb)).
  rewrite str_leb_pad2 by assumption. cbn [str_leb].
  rewrite andb_true_r.
  rewrite !orb_true_iff, !andb_true_iff, !orb_true_iff, !andb_true_iff.
  rewrite !orb_true_iff.
  rewrite !Z.ltb_lt, !Z.eqb_eq.
  split; intros H; Z.div_mod_to_equations; lia.
Qed.

(** 1 February 2024, at midnight *)
Definition feb_1 : Timestamp :=
  {| date_of := {| year := 2024; month := 2; day := 1 |}; nanos := 0 |}.

Lemma month_key_order_is_chronological_witness :
  str_leb (period_M_str jan_5) (period_M_str feb_1) = true
  <-> (year (date_of jan_5) < year (date_of feb_1)
       \/ (year (date_of jan_5) = year (date_of feb_1)
           /\ month (date_of jan_5) <= month (date_of feb_1)))%Z.
Proof.
  apply (month_key_order_is_chronological jan_5 feb_1); simpl; lia.
Defined.

End MonthKeys.

(* ================================================================== *)
(** * The sidebar: the options of the multiselects *)
(* ================================================================== *)

Module SidebarFacts.
Import Py F64 Pandas App Sidebar Kinds Npysort Load Prepared Samples Filters Groups
       MonthKeys.

(** A list of options holds the values of a column, each once, in ascending
    order. *)
Definition lists_each_once {K} (leb : K -> K -> bool) (col : Row -> K)
    (df : Frame) (options : list K) : Prop :=
  StronglySorted (fun a b => leb a b = true) options
  /\ NoDup options
  /\ forall k, In k options <-> exists r, In r df /\ col r = k.

Lemma sorted_uniques_once {K} (eqb leb : K -> K -> bool) (col : Row -> K) df :
  (forall x y, eqb x y = true <-> x = y) ->
  (forall x y, leb x y = true \/ leb y x = true) ->
  (forall x y z, leb x y = true -> leb y z = true -> leb x z = true) ->
  lists_each_once leb col df (sorted leb (uniques eqb (map col df))).
Proof.
  intros Heq Htot Htr. unfold sorted.
  assert (Hp := isort_perm leb (uniques eqb (map col df))).
  split; [|split].
  - apply isort_contract; eauto.
  - apply (Permutation_NoDup (Permutation_sym Hp)), uniques_NoDup, Heq.
  - intros k. split.
    + intros Hk. apply (Permutation_in _ Hp) in Hk.
      apply (uniques_In eqb leb Heq), in_map_iff in Hk.
      destruct Hk as (r & Hr & Hin). eauto.
    + intros (r & Hin & Hr). apply (Permutation_in _ (Permutation_sym Hp)).
      apply (uniques_In eqb leb Heq). subst k. now apply in_map.
Qed.

Lemma Z_leb_total x y : (x <=? y)%Z = true \/ (y <=? x)%Z = true.
Proof. rewrite !Z.leb_le. lia. Qed.

Lemma Z_leb_trans x y z :
  (x <=? y)%Z = true -> (y <=? z)%Z = true -> (x <=? z)%Z = true.
Proof. rewrite !Z.leb_le. lia. Qed.

Lemma text_options_once (col : Row -> string) df :
  lists_each_once str_leb col df (sorted str_leb (uniques String.eqb (map col df))).
Proof.
  apply sorted_uniques_once.
  - apply String.eqb_eq.
  - apply str_leb_total.
  - intros x y z. apply str_leb_trans.
Qed.

Lemma year_options_once df :
  lists_each_once Z.leb ano df (all_years df).
Proof.
  apply sorted_uniques_once.
  - apply Z.eqb_eq.
  - apply Z_leb_total.
  - apply Z_leb_trans.
Qed.

Lemma isin_In {K} (eqb : K -> K -> bool) (values : list K) x :
  (forall a b, eqb a b = true <-> a = b) ->
  In x values -> isin eqb values x = true.
Proof.
  intros Heq Hin. unfold isin. apply existsb_exists.
  exists x. split; [exact Hin|now apply Heq].
Qed.

End SidebarFacts.

(* ================================================================== *)
(** * The filters: order, letter case, plain search texts *)
(* ================================================================== *)

Module FilterFacts.
Import Py F64 Pandas App Kinds Npysort Load Prepared Samples Filters.
#[local] Open Scope string_scope.

Lemma StronglySorted_filter {A} (R : A -> A -> Prop) (f : A -> bool) l :
  StronglySorted R l -> StronglySorted R (filter f l).
Proof.
  induction 1 as [|x l Hs IH Hx]; simpl; [constructor|].
  destruct (f x); [|exact IH].
  constructor; [exact IH|].
  rewrite Forall_forall in *. intros y Hy. apply filter_In in Hy. now apply Hx.
Qed.

Lemma keep_selected_sorted {K} (eqb : K -> K -> bool) sel col df :
  sorted_by_date df -> sorted_by_date (keep_selected eqb sel col df).
Proof.
  intros H. rewrite keep_selected_filter. now apply StronglySorted_filter.
Qed.

(** The filters keep the order of the rows: the filtered frame of a loaded
    frame is in ascending order of [data_venda], as the loaded frame is, and
    so are the rows of the detail table and of the export. *)
Theorem filtered_rows_stay_in_date_order (Q : Quicksort) (src : Source)
    (c : Criteria) (df : Frame) :
  df_filtered c (prepared Q src) = Some df -> sorted_by_date df.
Proof.
  unfold df_filtered. intros H.
  assert (Hs : sorted_by_date
                 (keep_selected String.eqb (selected_products c) produto
                    (keep_selected String.eqb (selected_suppliers c) fornecedor
                       (keep_selected String.eqb (selected_sellers c) vendedor
                          (keep_selected String.eqb (selected_cats c) categoria
                             (keep_selected Z.eqb (selected_years c) ano
                                (filter (mask_date c) (prepared Q src)))))))).
  { repeat apply keep_selected_sorted.
    apply StronglySorted_filter, prepared_sorted. }
  destruct (client_search c) as [|a s].
  - injection H as <-. exact Hs.
  - destruct (re_compile (String a s)) as [p|]; [|discriminate].
    injection H as <-. now apply StronglySorted_filter.
Qed.

Lemma filtered_rows_stay_in_date_order_witness :
  exists out,
    df_filtered escrita_from_10_january (prepared insertion (Table january_lines))
    = Some out
    /\ map cliente out = [Some "Duda"; Some "Caio"]
    /\ map data_venda out = [january 15 17; january 20 9]
    /\ sorted_by_date out.
Proof.
  eexists. split; [reflexivity|]. split; [reflexivity|]. split; [reflexivity|].
  apply (filtered_rows_stay_in_date_order insertion (Table january_lines)
           escrita_from_10_january).
  reflexivity.
Defined.

(** ** Letter case *)

(** Two texts that differ in the case of their letters only. *)
Definition same_letters (a b : string) : Prop :=
  map lower (list_ascii_of_string a) = map lower (list_ascii_of_string b).

Ltac by_cases c :=
  destruct c as [[] [] [] [] [] [] [] []]; vm_compute; reflexivity.

Lemma is_meta_lower c : is_meta (lower c) = is_meta c.
Proof. by_cases c. Qed.

Lemma is_dot_lower c : Ascii.eqb (lower c) "."%char = Ascii.eqb c "."%char.
Proof. by_cases c. Qed.

Lemma is_newline_lower c :
  Ascii.eqb (lower c) (ascii_of_nat 10) = Ascii.eqb c (ascii_of_nat 10).
Proof. by_cases c. Qed.

Lemma atom_matches_lower a c : atom_matches a (lower c) = atom_matches a c.
Proof.
  destruct a as [x|]; simpl.
  - f_equal. by_cases c.
  - now rewrite is_newline_lower.
Qed.

(** Patterns that differ in the case of their letters only. *)
Definition same_atom (a b : atom) : Prop :=
  match a, b with
  | Lit x, Lit y => lower x = lower y
  | AnyChar, AnyChar => True
  | _, _ => False
  end.

Lemma re_compile_same pat : forall pat',
  same_letters pat pat' ->
  match re_compile pat, re_compile pat' with
  | Some p, Some p' => Forall2 same_atom p p'
  | None, None => True
  | _, _ => False
  end.
Proof.
  unfold same_letters.
  induction pat as [|x pat IH]; intros [|y pat'] H; simpl in *;
    try discriminate; [constructor|].
  injection H as Hxy Hrest. specialize (IH pat' Hrest).
  assert (Hm : is_meta x = is_meta y)
    by (rewrite <- (is_meta_lower x), <- (is_meta_lower y); now rewrite Hxy).
  assert (Hd : Ascii.eqb x "."%char = Ascii.eqb y "."%char)
    by (rewrite <- (is_dot_lower x), <- (is_dot_lower y); now rewrite Hxy).
  rewrite <- Hm, <- Hd. destruct (is_meta x); [exact I|].
  destruct (re_compile pat), (re_compile pat'); try contradiction; [|exact I].
  constructor; [|exact IH].
  destruct (Ascii.eqb x "."%char); simpl; auto.
Qed.

Lemma atom_matches_same a b x y :
  same_atom a b -> lower x = lower y -> atom_matches a x = atom_matches b y.
Proof.
  intros Hab Hxy. destruct a as [u|], b as [v|]; simpl in *; try contradiction.
  - now rewrite Hab, Hxy.
  - rewrite <- (is_newline_lower x), <- (is_newline_lower y). now rewrite Hxy.
Qed.

Lemma re_match_same p p' : Forall2 same_atom p p' -> forall s s',
  same_letters s s' -> re_match p s = re_match p' s'.
Proof.
  unfold same_letters.
  induction 1 as [|a b p p' Hab Hp IH]; intros [|x s] [|y s'] H; simpl in *;
    try discriminate; try reflexivity.
  injection H as Hxy Hrest.
  now rewrite (atom_matches_same a b x y Hab Hxy), (IH s s' Hrest).
Qed.

Lemma re_search_same p p' : Forall2 same_atom p p' -> forall s s',
  same_letters s s' -> re_search p s = re_search p' s'.
Proof.
  intros Hp. unfold same_letters.
  induction s as [|x s IH]; intros [|y s'] H; simpl in H; try discriminate.
  - simpl. now rewrite (re_match_same p p' Hp "" "").
  - injection H as Hxy Hrest.
    change (re_search p (String x s))
      with (re_match p (String x s) || re_search p s).
    change (re_search p' (String y s'))
      with (re_match p' (String y s') || re_search p' s').
    rewrite (IH s' Hrest). f_equal. apply re_match_same; [exact Hp|].
    unfold same_letters. simpl. now rewrite Hxy, Hrest.
Qed.

(** The criteria [c] with another search text. *)
Definition with_search (c : Criteria) (text : string) : Criteria :=
  {| start_date := start_date c;
     end_date := end_date c;
     selected_years := selected_years c;
     selected_cats := selected_cats c;
     selected_sellers := selected_sellers c;
     selected_suppliers := selected_suppliers c;
     selected_products := selected_products c;
     client_search := text |}.

(** The rows the filters keep before the client search (lines 92-109). *)
Definition unsearched (c : Criteria) (df_raw : Frame) : Frame :=
  keep_selected String.eqb (selected_products c) produto
    (keep_selected String.eqb (selected_suppliers c) fornecedor
       (keep_selected String.eqb (selected_sellers c) vendedor
          (keep_selected String.eqb (selected_cats c) categoria
             (keep_selected Z.eqb (selected_years c) ano
                (filter (mask_date c) df_raw))))).

Lemma df_filtered_with_search c text df :
  df_filtered (with_search c text) df
  = match text with
    | EmptyString => Some (unsearched c df)
    | _ => match re_compile text with
           | None => None
           | Some p => Some (filter (fun r => str_contains p (cliente r))
                                    (unsearched c df))
           end
    end.
Proof. destruct text; reflexivity. Qed.

(** The client search does not tell capital from small letters
    ([case=False], line 112): two search texts that differ in letter case
    only keep the same rows. *)
Theorem search_ignores_case (c : Criteria) (text text' : string) (df : Frame) :
  same_letters text text' ->
  df_filtered (with_search c text) df = df_filtered (with_search c text') df.
Proof.
  intros H. rewrite !df_filtered_with_search.
  pose proof (re_compile_same text text' H) as Hc.
  destruct text as [|x t], text' as [|y t']; try discriminate H; [reflexivity|].
  destruct (re_compile (String x t)) as [p|], (re_compile (String y t')) as [p'|];
    try contradiction; [|reflexivity].
  f_equal. apply filter_ext. intros r.
  destruct (cliente r) as [s|]; [|reflexivity]. simpl.
  apply re_search_same; [exact Hc|reflexivity].
Qed.

Lemma search_ignores_case_witness :
  let df := prepared aquicksort (Table [plain_line; zero_quantity_line]) in
  same_letters "aN" "An"
  /\ df_filtered (with_search Further.all_of_2023 "aN") df
     = df_filtered (with_search Further.all_of_2023 "An") df.
Proof.
  cbv zeta. split; [reflexivity|].
  apply (search_ignores_case Further.all_of_2023 "aN" "An"). reflexivity.
Defined.

(** ** Plain search texts *)

(** [pat.lower() in s.lower()], with a missing client never matching. *)
Definition client_contains (pat : string) (r : Row) : bool :=
  match cliente r with
  | Some s => is_substring_ci pat s
  | None => false
  end.

(** A text of ASCII characters only.  The model reads a text byte by byte
    and knows the case of the ASCII letters; on such texts that is the
    reading of Python. *)
Definition is_ascii (s : string) : bool :=
  forallb (fun ch => (nat_of_ascii ch <? 128)%nat) (list_ascii_of_string s).

Definition ascii_clients (df : Frame) : Prop :=
  Forall (fun r => match cliente r with
                   | Some s => is_ascii s = true
                   | None => True
                   end) df.

(** For an ASCII search text without regular-expression metacharacters, on
    a frame whose client names are ASCII texts, the client filter is the test
    the widget names ("contem"): the rows kept are those the other filters
    keep whose client holds the text, letter case apart.  A row without a
    client is dropped by every search text; with no search text it stays
    (line 111). *)
Theorem plain_search_is_substring_test (c : Criteria) (text : string) (df : Frame) :
  text <> "" ->
  plain_text text = true ->
  is_ascii text = true ->
  ascii_clients df ->
  df_filtered (with_search c text) df
  = option_map (filter (client_contains text)) (df_filtered (with_search c "") df).
Proof.
  intros Hne H _ _. rewrite !df_filtered_with_search.
  destruct text as [|x t]; [congruence|].
  rewrite (plain_text_compile _ H). simpl option_map. f_equal.
  apply filter_ext. intros r. unfold client_contains, str_contains.
  destruct (cliente r) as [s|]; [|reflexivity]. apply literal_search.
Qed.

Lemma date_leb_trans a b c :
  date_leb a b = true -> date_leb b c = true -> date_leb a c = true.
Proof.
  unfold date_leb. destruct a as [ya ma da], b as [yb mb db], c as [yc mc dc].
  simpl.
  rewrite !orb_true_iff, !andb_true_iff, !orb_true_iff, !andb_true_iff.
  rewrite !Z.ltb_lt, !Z.eqb_eq, !Z.leb_le. lia.
Qed.

Lemma filter_none {A} (f : A -> bool) l :
  (forall x, In x l -> f x = false) -> filter f l = [].
Proof.
  induction l as [|x l IH]; simpl; intros H; [reflexivity|].
  rewrite (H x) by auto. apply IH. auto.
Qed.

(** The two date inputs are independent.  When the start date is set after
    the end date, no row passes the date filter, whatever else is selected:
    the filtered frame is empty (and the script shows its warning). *)
Theorem inverted_date_range_keeps_nothing (c : Criteria) (df out : Frame) :
  date_leb (start_date c) (end_date c) = false ->
  df_filtered c df = Some out -> out = [].
Proof.
  intros Hinv H.
  assert (Hp : exists p, re_compile (client_search c) = Some p).
  { unfold df_filtered in H. destruct (client_search c) as [|a s]; [simpl; eauto|].
    destruct (re_compile (String a s)); [eauto|discriminate]. }
  destruct Hp as [p Hp]. rewrite (df_filtered_filter c df p Hp) in H.
  injection H as <-. apply filter_none. intros r _.
  unfold accepts, mask_date.
  destruct (date_leb (start_date c) (date_of (data_venda r))) eqn:E1;
    [|reflexivity].
  destruct (date_leb (date_of (data_venda r)) (end_date c)) eqn:E2;
    [|reflexivity].
  rewrite (date_leb_trans _ _ _ E1 E2) in Hinv. discriminate.
Qed.

(** the start date 31 December 2023, the end date 1 January 2023 *)
Definition inverted_2023 : Criteria :=
  {| start_date := {| year := 2023; month := 12; day := 31 |};
     end_date := {| year := 2023; month := 1; day := 1 |};
     selected_years := [];
     selected_cats := [];
     selected_sellers := [];
     selected_suppliers := [];
     selected_products := [];
     client_search := "" |}.

Lemma inverted_date_range_keeps_nothing_witness :
  let df := prepared aquicksort (Table [plain_line; zero_quantity_line]) in
  date_leb (start_date inverted_2023) (end_date inverted_2023) = false
  /\ df_filtered inverted_2023 df = Some [].
Proof.
  cbv zeta. split; [reflexivity|].
  assert (E : exists out,
             df_filtered inverted_2023
               (prepared aquicksort (Table [plain_line; zero_quantity_line]))
             = Some out) by (eexists; reflexivity).
  destruct E as [out E]. rewrite E. f_equal.
  apply (inverted_date_range_keeps_nothing inverted_2023
           (prepared aquicksort (Table [plain_line; zero_quantity_line])) out);
    [reflexivity|exact E].
Defined.

Lemma plain_search_is_substring_test_witness :
  ascii_clients (prepared aquicksort (Table january_lines))
  /\ df_filtered (with_search escrita_from_10_january "D") 
                 (prepared aquicksort (Table january_lines))
     = option_map (filter (client_contains "D"))
                  (df_filtered (with_search escrita_from_10_january "")
                               (prepared aquicksort (Table january_lines)))
  /\ option_map (map cliente)
                (df_filtered (with_search escrita_from_10_january "D")
                             (prepared aquicksort (Table january_lines)))
     = Some [Some "Duda"].
Proof.
  assert (H : ascii_clients (prepared aquicksort (Table january_lines)))
    by (repeat constructor).
  split; [exact H|]. split; [|reflexivity].
  apply (plain_search_is_substring_test escrita_from_10_january "D");
    [discriminate|reflexivity|reflexivity|exact H].
Defined.

End FilterFacts.

(* ================================================================== *)
(** * The loaded frame: numbers *)
(* ================================================================== *)

Module LoadFacts.
Import Py F64 Pandas App Kinds Npysort Load Prepared Samples.

(** After the loop of lines 39-41 no numeric column of the loaded frame
    holds a NaN: not the three columns read from the file, not the four
    derived ones. *)
Theorem loaded_numbers_are_never_nan (Q : Quicksort) (src : Source) :
  Forall (fun r =>
            is_nan (quantidade r) = false /\ is_nan (valor_venda r) = false
            /\ is_nan (valor_custo r) = false /\ is_nan (faturamento r) = false
            /\ is_nan (custo_total r) = false /\ is_nan (lucro r) = false
            /\ is_nan (margem_pct r) = false)
         (prepared Q src).
Proof.
  apply Forall_forall. intros r Hr.
  destruct (prepared_rows Q src r Hr) as (rows & raw & _ & _ & d & _ & ->).
  simpl. unfold coerce. repeat split; apply fillna0_not_nan.
Qed.

End LoadFacts.

(* ================================================================== *)
(** * The charts: keys and leaderboards *)
(* ================================================================== *)

Module ChartFacts.
Import Py F64 Pandas App Sidebar Kinds Npysort Load Prepared Samples Groups
       MonthKeys SidebarFacts.

Lemma groupby_sum_keys {R K} (eqb leb : K -> K -> bool) (key : R -> K) col df :
  map fst (groupby_sum eqb leb key col df)
  = isort leb (uniques eqb (map key df)).
Proof.
  unfold groupby_sum. rewrite map_map. simpl.
  change (map (fun x => fst x) (groupby eqb leb key df))
    with (map fst (groupby eqb leb key df)).
  apply groupby_keys.
Qed.

Lemma pair_leb_total x y : pair_leb x y = true \/ pair_leb y x = true.
Proof.
  destruct x as [a s], y as [b t]. unfold pair_leb. simpl.
  destruct (Z.ltb_spec a b), (Z.ltb_spec b a), (Z.eqb_spec a b),
    (Z.eqb_spec b a); simpl; auto; try lia.
  apply str_leb_total.
Qed.

Lemma pair_leb_trans x y z :
  pair_leb x y = true -> pair_leb y z = true -> pair_leb x z = true.
Proof.
  destruct x as [a s], y as [b t], z as [c u]. unfold pair_leb. simpl.
  destruct (Z.ltb_spec a b), (Z.ltb_spec b c), (Z.ltb_spec a c),
    (Z.eqb_spec a b), (Z.eqb_spec b c), (Z.eqb_spec a c);
    simpl; auto; try lia; try discriminate.
  apply str_leb_trans.
Qed.

(** The charts by category (lines 180 and 203) and by year and category
    (line 217) show the filtered frame key by key: every category - every
    pair of a year and a category - that occurs in the filtered rows has one
    entry, no other key has one, and the entries come in ascending order of
    the key (by year first, for the pairs). *)
Theorem charts_list_each_key_once (df : Frame) :
  lists_each_once str_leb categoria df (map fst (lucro_por_cat df))
  /\ lists_each_once str_leb categoria df (map fst (fat_cat_share df))
  /\ lists_each_once pair_leb (fun r => (ano r, categoria r)) df
                     (map fst (fat_ano_cat df)).
Proof.
  unfold lucro_por_cat, fat_cat_share, fat_ano_cat.
  rewrite !groupby_sum_keys. split; [|split].
  - apply text_options_once.
  - apply text_options_once.
  - apply (sorted_uniques_once pair_eqb pair_leb).
    + apply pair_eqb_eq.
    + apply pair_leb_total.
    + apply pair_leb_trans.
Qed.

Lemma StronglySorted_weaken {A} (R R' : A -> A -> Prop) l :
  (forall a b, R a b -> R' a b) -> StronglySorted R l -> StronglySorted R' l.
Proof.
  intros H. induction 1 as [|x l Hs IH Hx]; constructor; auto.
  rewrite Forall_forall in *. auto.
Qed.

Lemma StronglySorted_across {A} (R : A -> A -> Prop) l1 l2 :
  StronglySorted R (l1 ++ l2) -> forall a b, In a l1 -> In b l2 -> R a b.
Proof.
  induction l1 as [|x l1 IH]; simpl; intros H a b Ha Hb; [destruct Ha|].
  inversion H as [|? ? Hs Hx]; subst. destruct Ha as [<-|Ha].
  - rewrite Forall_forall in Hx. apply Hx, in_or_app. now right.
  - now apply IH.
Qed.

(** A Top-10 view (lines 164, 172 and 209) has ten entries at most, and the
    groups it leaves out are no better than those it shows: the sum of a
    group left out is at most the sum of every group shown, or it is NaN. *)
Theorem top10_holds_the_largest (Q : Quicksort) (key : Row -> string) (df : Frame) :
  (List.length (top10 Q key df) <= 10)%nat
  /\ exists rest,
       Permutation (top10 Q key df ++ rest)
                   (groupby_sum String.eqb str_leb key faturamento df)
       /\ forall a b, In a (top10 Q key df) -> In b rest ->
                      is_nan (snd b) = true \/ (snd b <=? snd a)%float = true.
Proof.
  destruct (nargsort_descending Q snd
              (groupby_sum String.eqb str_leb key faturamento df))
    as (sorted & nans & E & Hp & Hs & Hn & Hnan).
  unfold top10, head. rewrite E. split; [apply firstn_le_length|].
  exists (skipn 10 (sorted ++ nans)). split.
  - now rewrite firstn_skipn.
  - apply StronglySorted_across. rewrite firstn_skipn.
    apply StronglySorted_app.
    + apply (StronglySorted_weaken _ _ _ (fun a b H => or_intror H) Hs).
    + clear - Hnan. induction Hnan as [|x l Hx Hl IH]; constructor; [exact IH|].
      apply Forall_forall. intros b Hb. left.
      rewrite Forall_forall in Hl. now apply Hl.
    + intros a b _ Hb. left. rewrite Forall_forall in Hnan. now apply Hnan.
Qed.

End ChartFacts.

(* ================================================================== *)
(** * The export: quoting *)
(* ================================================================== *)

Module CsvFacts.
Import Py F64 Pandas App.
#[local] Open Scope string_scope.

Lemma double_quotes_inj s : forall t, double_quotes s = double_quotes t -> s = t.
Proof.
  induction s as [|c s IH]; intros [|d t]; simpl.
  - reflexivity.
  - destruct (Ascii.eqb d dquote); discriminate.
  - destruct (Ascii.eqb c dquote); discriminate.
  - destruct (Ascii.eqb_spec c dquote) as [->|Hc],
             (Ascii.eqb_spec d dquote) as [->|Hd]; intros H.
    + injection H as H. f_equal. now apply IH.
    + injection H as H1 H2. congruence.
    + injection H as H1 H2. congruence.
    + injection H as H1 H2. f_equal; [exact H1|now apply IH].
Qed.

Lemma length_append (s u : string) :
  String.length (s ++ u) = (String.length s + String.length u)%nat.
Proof. induction s as [|c s IH]; simpl; [reflexivity|now rewrite IH]. Qed.

Lemma append_inj_l (u : string) s : forall t, s ++ u = t ++ u -> s = t.
Proof.
  induction s as [|c s IH]; intros [|d t] H; simpl in H.
  - reflexivity.
  - apply (f_equal String.length) in H. simpl in H.
    rewrite length_append in H. lia.
  - apply (f_equal String.length) in H. simpl in H.
    rewrite length_append in H. lia.
  - injection H as -> H. f_equal. now apply IH.
Qed.

Lemma needs_quotes_dquote nl s : needs_quotes nl (String dquote s) = true.
Proof. reflexivity. Qed.

(** Quoting loses nothing, whatever the line terminator: two fields that
    are written alike are the same field.  So a text with commas, quotes or
    line breaks in it - a client name, say - is never written as the text of
    another. *)
Theorem quote_minimal_injective (nl : string) (s t : string) :
  quote_minimal nl s = quote_minimal nl t <-> s = t.
Proof.
  split; [|now intros ->].
  unfold quote_minimal.
  destruct (needs_quotes nl s) eqn:Es, (needs_quotes nl t) eqn:Et; intros H.
  - injection H as H. apply append_inj_l in H. now apply double_quotes_inj.
  - rewrite <- H, needs_quotes_dquote in Et. discriminate.
  - rewrite H, needs_quotes_dquote in Es. discriminate.
  - exact H.
Qed.

End CsvFacts.

(* ================================================================== *)
(** * Lists *)
(* ================================================================== *)

Module ListFacts.
Import Pandas.

Lemma filter_rev {A} (f : A -> bool) l : filter f (rev l) = rev (filter f l).
Proof.
  induction l as [|x l IH]; simpl; [reflexivity|].
  rewrite filter_app, IH. simpl. destruct (f x); simpl; [reflexivity|].
  now rewrite app_nil_r.
Qed.

Lemma isort_fold {A} (leb : A -> A -> bool) l :
  isort leb (rev l) = fold_left (fun sorted x => insert leb x sorted) l [].
Proof.
  assert (E : forall l', isort leb l' = fold_right (insert leb) [] l').
  { induction l' as [|x l' IH]; simpl; [reflexivity|now rewrite IH]. }
  rewrite E. apply fold_left_rev_right.
Qed.

End ListFacts.

(* ================================================================== *)
(** * The card texts: separators *)
(* ================================================================== *)

Module CardFacts.
Import Py F64 Pandas App CardText MonthKeys ListFacts.
#[local] Open Scope string_scope.

(** A character map over a text. *)
Fixpoint smap (f : ascii -> ascii) (s : string) : string :=
  match s with
  | EmptyString => EmptyString
  | String c s' => String (f c) (smap f s')
  end.

(** What the three replacements of [to_brazilian] make of one character. *)
Definition exchange (c : ascii) : ascii :=
  let c := if Ascii.eqb c ","%char then "X"%char else c in
  let c := if Ascii.eqb c "."%char then ","%char else c in
  if Ascii.eqb c "X"%char then "."%char else c.

Lemma replace_smap old new s :
  replace old new s = smap (fun c => if Ascii.eqb c old then new else c) s.
Proof. induction s as [|c s IH]; simpl; [reflexivity|now rewrite IH]. Qed.

Lemma smap_smap f g s : smap g (smap f s) = smap (fun c => g (f c)) s.
Proof. induction s as [|c s IH]; simpl; [reflexivity|now rewrite IH]. Qed.

Lemma to_brazilian_smap s : to_brazilian s = smap exchange s.
Proof. unfold to_brazilian. now rewrite !replace_smap, !smap_smap. Qed.

Lemma smap_app f s t : smap f (s ++ t) = smap f s ++ smap f t.
Proof. induction s as [|c s IH]; simpl; [reflexivity|now rewrite IH]. Qed.

Lemma smap_of_list f l :
  smap f (string_of_list_ascii l) = string_of_list_ascii (map f l).
Proof. induction l as [|c l IH]; simpl; [reflexivity|now rewrite IH]. Qed.

(** The decimal digits. *)
Definition is_digit (c : ascii) : bool :=
  (48 <=? nat_of_ascii c)%nat && (nat_of_ascii c <=? 57)%nat.

Definition all_digits (s : string) : Prop :=
  Forall (fun c => is_digit c = true) (list_ascii_of_string s).

Lemma digits_all_digits n : all_digits (digits n).
Proof.
  unfold all_digits, digits. generalize (N.to_uint (Z.to_N n)).
  induction u; simpl; constructor; auto.
Qed.

Lemma digit_is_digit n : is_digit (digit n) = true.
Proof.
  unfold is_digit. rewrite nat_of_digit.
  pose proof (Z.mod_pos_bound n 10 eq_refl).
  apply andb_true_iff. split; apply Nat.leb_le; lia.
Qed.

Lemma list_of_app s t :
  list_ascii_of_string (s ++ t)
  = (list_ascii_of_string s ++ list_ascii_of_string t)%list.
Proof. induction s as [|c s IH]; simpl; [reflexivity|now rewrite IH]. Qed.

Lemma last_digits_all_digits p : forall n, all_digits (last_digits p n).
Proof.
  unfold all_digits. induction p as [|p IH]; intros n; simpl; [constructor|].
  rewrite list_of_app. apply Forall_app. split; [apply IH|].
  repeat constructor. apply digit_is_digit.
Qed.

Lemma is_digit_cases c :
  is_digit c = true ->
  c = "0"%char \/ c = "1"%char \/ c = "2"%char \/ c = "3"%char \/ c = "4"%char
  \/ c = "5"%char \/ c = "6"%char \/ c = "7"%char \/ c = "8"%char \/ c = "9"%char.
Proof.
  destruct c as [[] [] [] [] [] [] [] []]; vm_compute; intros H;
    try discriminate H; tauto.
Qed.

Lemma exchange_digit c : is_digit c = true -> exchange c = c.
Proof.
  intros H. destruct (is_digit_cases c H) as [->|[->|[->|[->|[->|[->|[->|[->|[->| ->]]]]]]]]];
    reflexivity.
Qed.

Lemma map_exchange_digits l :
  Forall (fun c => is_digit c = true) l -> map exchange l = l.
Proof.
  induction 1 as [|c l Hc _ IH]; simpl; [reflexivity|].
  now rewrite (exchange_digit c Hc), IH.
Qed.

Lemma smap_exchange_digits s : all_digits s -> smap exchange s = s.
Proof.
  unfold all_digits. induction s as [|c s IH]; simpl; intros H; [reflexivity|].
  inversion H; subst. now rewrite exchange_digit, IH.
Qed.

(** Lists are handled three characters at a time. *)
Lemma by_threes (P : list ascii -> Prop) :
  P []%list -> (forall a, P [a]%list) -> (forall a b, P [a; b]%list) ->
  (forall a b c, P [a; b; c]%list) ->
  (forall a b c d rest, P (d :: rest)%list -> P (a :: b :: c :: d :: rest)%list) ->
  forall l, P l.
Proof.
  intros H0 H1 H2 H3 Hs l.
  assert (H : forall n l, (List.length l <= n)%nat -> P l).
  { induction n as [|n IH]; intros [|a [|b [|c [|d rest]]]] Hl; auto;
      simpl in Hl; try lia.
    apply Hs, IH. simpl. lia. }
  apply (H (List.length l)). lia.
Qed.

Lemma map_group3 f sep l :
  map f (group3 sep l) = group3 (f sep) (map f l).
Proof.
  induction l as [| | | |a b c d rest IH] using by_threes; try reflexivity.
  change (group3 sep (a :: b :: c :: d :: rest)%list)
    with (a :: b :: c :: sep :: group3 sep (d :: rest))%list.
  change (map f (a :: b :: c :: sep :: group3 sep (d :: rest))%list)
    with (f a :: f b :: f c :: f sep :: map f (group3 sep (d :: rest)))%list.
  rewrite IH. reflexivity.
Qed.

Lemma exchange_grouped ds :
  all_digits ds -> smap exchange (grouped ","%char ds) = grouped "."%char ds.
Proof.
  intros H. unfold grouped.
  rewrite smap_of_list, map_rev, map_group3, map_rev.
  now rewrite (map_exchange_digits _ H).
Qed.

Lemma exchange_fixed_text n :
  smap exchange (fixed_text (Some ","%char) "."%char 2 n)
  = fixed_text (Some "."%char) ","%char 2 n.
Proof.
  unfold fixed_text. simpl Nat.eqb. cbv iota.
  rewrite smap_app, (exchange_grouped _ (digits_all_digits _)).
  f_equal.
  change (smap exchange (String "."%char (last_digits 2 n)))
    with (String ","%char (smap exchange (last_digits 2 n))).
  f_equal. apply smap_exchange_digits, last_digits_all_digits.
Qed.

Lemma exchange_sign s t :
  smap exchange (sign_text s ++ t) = sign_text s ++ smap exchange t.
Proof. now destruct s. Qed.

(** The three replacements of lines 135, 136 and 140 exchange the comma and
    the point of the amount and change nothing else: for every float, the
    card text is the amount written with a point between the thousands and a
    comma before the cents.  (The place holder X never meets an X of the
    amount: an amount has none, not even 'inf' or 'nan'.) *)
Theorem card_currency_is_brazilian (x : float) :
  card_currency x = "R$ " ++ format_f_with (Some "."%char) ","%char 2 x
  /\ card_currency x = to_brazilian (format_currency x).
Proof.
  split; [|reflexivity].
  unfold card_currency, format_comma_2f, format_f_with.
  rewrite to_brazilian_smap, smap_app. f_equal.
  destruct (Prim2SF x) as [s|s| |s m e].
  - now rewrite exchange_sign, exchange_fixed_text.
  - now destruct s.
  - reflexivity.
  - now rewrite exchange_sign, exchange_fixed_text.
Qed.

(** ** The count of sales *)

(** A text without its points. *)
Fixpoint without_points (s : string) : string :=
  match s with
  | EmptyString => EmptyString
  | String c s' =>
      if Ascii.eqb c "."%char then without_points s'
      else String c (without_points s')
  end.

Lemma without_points_of_list l :
  without_points (string_of_list_ascii l)
  = string_of_list_ascii (filter (fun c => negb (Ascii.eqb c "."%char)) l).
Proof.
  induction l as [|c l IH]; simpl; [reflexivity|].
  destruct (Ascii.eqb c "."%char); simpl; now rewrite IH.
Qed.

Lemma digit_not_point c : is_digit c = true -> Ascii.eqb c "."%char = false.
Proof.
  intros H. destruct (is_digit_cases c H) as [->|[->|[->|[->|[->|[->|[->|[->|[->| ->]]]]]]]]];
    reflexivity.
Qed.

Lemma keep_digit c l :
  is_digit c = true ->
  filter (fun c => negb (Ascii.eqb c "."%char)) (c :: l)
  = (c :: filter (fun c => negb (Ascii.eqb c "."%char)) l)%list.
Proof. intros H. simpl. now rewrite (digit_not_point c H). Qed.

Lemma points_out_of_group3 l :
  Forall (fun c => is_digit c = true) l ->
  filter (fun c => negb (Ascii.eqb c "."%char)) (group3 "."%char l) = l.
Proof.
  induction l as [| | | |a b c d rest IH] using by_threes; intros H.
  - reflexivity.
  - inversion H; subst. simpl. now rewrite digit_not_point.
  - inversion H as [|? ? Ha H']; subst. inversion H' as [|? ? Hb _]; subst.
    simpl. now rewrite !digit_not_point.
  - inversion H as [|? ? Ha H']; subst. inversion H' as [|? ? Hb H'']; subst.
    inversion H'' as [|? ? Hc _]; subst.
    simpl. now rewrite !digit_not_point.
  - inversion H as [|? ? Ha H']; subst. inversion H' as [|? ? Hb H'']; subst.
    inversion H'' as [|? ? Hc H3]; subst.
    change (group3 "."%char (a :: b :: c :: d :: rest)%list)
      with (a :: b :: c :: "."%char :: group3 "."%char (d :: rest))%list.
    rewrite !keep_digit by assumption.
    change (filter (fun c => negb (Ascii.eqb c "."%char))
                   ("."%char :: group3 "."%char (d :: rest))%list)
      with (filter (fun c => negb (Ascii.eqb c "."%char))
                   (group3 "."%char (d :: rest))).
    now rewrite (IH H3).
Qed.

(** The card of the count of sales (line 139) shows the count and nothing
    else: its characters are the decimal digits of [num_vendas] with points
    between them, and the digits read back, the points left out, give
    [num_vendas]. *)
Theorem card_num_vendas_reads_back (m : Metrics) :
  card_num_vendas m = grouped "."%char (digits (Z.of_nat (num_vendas m)))
  /\ option_map N.of_uint
       (NilEmpty.uint_of_string (without_points (card_num_vendas m)))
     = Some (N.of_nat (num_vendas m)).
Proof.
  assert (E : card_num_vendas m
              = grouped "."%char (digits (Z.of_nat (num_vendas m)))).
  { unfold card_num_vendas, format_comma_d. rewrite replace_smap.
    unfold grouped. rewrite smap_of_list, map_rev, map_group3, map_rev.
    simpl Ascii.eqb. cbv iota. do 4 f_equal.
    pose proof (digits_all_digits (Z.of_nat (num_vendas m))) as H.
    unfold all_digits in H. induction H as [|c l Hc _ IH]; simpl; [reflexivity|].
    rewrite IH. f_equal.
    destruct (is_digit_cases c Hc) as [->|[->|[->|[->|[->|[->|[->|[->|[->| ->]]]]]]]]];
      reflexivity. }
  split; [exact E|]. rewrite E. unfold grouped.
  rewrite without_points_of_list, filter_rev, points_out_of_group3.
  - rewrite rev_involutive, string_of_list_ascii_of_string.
    unfold digits. rewrite NilEmpty.usu. simpl.
    rewrite DecimalN.Unsigned.of_to. f_equal. lia.
  - apply Forall_rev, digits_all_digits.
Qed.

End CardFacts.

(* ================================================================== *)
(** * numpy's quicksort on short columns *)
(* ================================================================== *)

Module ShortColumns.
Import Py F64 Pandas App Kinds Npysort Load Prepared Samples Groups ListFacts.

Lemma settle_insert {A} (leb : A -> A -> bool) x s :
  settle leb x s = insert (fun a b => leb b a) x s.
Proof.
  induction s as [|y s IH]; simpl; [reflexivity|].
  unfold less. destruct (leb y x); simpl; [reflexivity|now rewrite IH].
Qed.

Lemma insertion_sort_whole {A} (leb : A -> A -> bool) (a : list A) :
  a <> [] ->
  insertion_sort leb a 0 (List.length a - 1)
  = rev (isort (fun x y => leb y x) (rev a)).
Proof.
  intros Hne. unfold insertion_sort, replace, stretch.
  assert (Hlen : (S (List.length a - 1) - 0 = List.length a)%nat).
  { destruct a; [congruence|simpl; lia]. }
  rewrite Hlen. change (skipn 0 a) with a. rewrite !firstn_all.
  change (firstn 0 a) with (@nil A). simpl Nat.add.
  rewrite skipn_all, app_nil_r. simpl app.
  f_equal. rewrite isort_fold.
  assert (E : forall l acc,
             fold_left (fun sorted x => settle leb x sorted) l acc
             = fold_left (fun sorted x => insert (fun x y => leb y x) x sorted) l acc).
  { induction l as [|x l IH]; intros acc; simpl; [reflexivity|].
    now rewrite settle_insert, IH. }
  apply E.
Qed.

(** On a column of sixteen rows or fewer numpy's quicksort does not
    partition: it sorts by straight insertion, from the first row on. *)
Lemma aquicksort_short {A} (leb : A -> A -> bool) (a : list A) :
  (List.length a <= 16)%nat ->
  aquicksort A leb a = rev (isort (fun x y => leb y x) (rev a)).
Proof.
  intros Hlen. destruct a as [|d a'] eqn:Ea; [reflexivity|]. rewrite <- Ea in *.
  assert (Hne : a <> []) by (rewrite Ea; discriminate).
  unfold aquicksort. rewrite Ea at 1. cbv zeta. 
  replace (2 * List.length a + 2)%nat with (S (S (2 * List.length a))) by lia.
  change (from_stack leb d (S (S (2 * List.length a))) a 0 (List.length a - 1)
                     (2 * Z.log2 (Z.of_nat (List.length a))))
    with (if (2 * Z.log2 (Z.of_nat (List.length a)) <? 0)%Z
          then heapsort leb d a 0 (List.length a - 1)
          else if (SMALL_QUICKSORT <? List.length a - 1 - 0)%nat
               then let (a1, pi) := partition leb d a 0 (List.length a - 1) in
                    let cdepth := (2 * Z.log2 (Z.of_nat (List.length a)) - 1)%Z in
                    if (pi - 0 <? List.length a - 1 - pi)%nat
                    then from_stack leb d (2 * List.length a)
                           (partitioning leb d (2 * List.length a) a1 0 (pi - 1) cdepth)
                           (pi + 1) (List.length a - 1) cdepth
                    else from_stack leb d (2 * List.length a)
                           (partitioning leb d (2 * List.length a) a1 (pi + 1)
                              (List.length a - 1) cdepth)
                           0 (pi - 1) cdepth
               else insertion_sort leb a 0 (List.length a - 1)).
  assert (H1 : (2 * Z.log2 (Z.of_nat (List.length a)) <? 0)%Z = false).
  { apply Z.ltb_ge. pose proof (Z.log2_nonneg (Z.of_nat (List.length a))). lia. }
  assert (H2 : (SMALL_QUICKSORT <? List.length a - 1 - 0)%nat = false).
  { apply Nat.ltb_ge. unfold SMALL_QUICKSORT. lia. }
  rewrite H1, H2. now apply insertion_sort_whole.
Qed.

(** A file of sixteen lines or fewer is loaded by numpy's quicksort with
    its lines of equal date in file order: so short a column is sorted by
    straight insertion, which moves no row past a row of the same date.
    (With seventeen lines the partition sets in, and ties can be swapped.) *)
Theorem short_files_keep_ties (rows : list RawRow) (ds : list Derived) :
  (List.length rows <= 16)%nat ->
  mapM derive rows = Ok ds ->
  Permutation (prepared aquicksort (Table rows)) (map numeric ds)
  /\ sorted_by_date (prepared aquicksort (Table rows))
  /\ keeps_ties_in_order (map numeric ds) (prepared aquicksort (Table rows)).
Proof.
  intros Hlen E. unfold prepared.
  rewrite (load_data_Table_Ok aquicksort rows ds E).
  assert (Hl : (List.length (map numeric ds) <= 16)%nat).
  { rewrite length_map. pose proof (mapM_Ok _ _ _ E) as HF.
    apply Forall2_length in HF. lia. }
  rewrite (aquicksort_short by_data_venda (map numeric ds) Hl).
  set (l := map numeric ds).
  set (geb := fun x y : Row => by_data_venda y x).
  split; [|split].
  - rewrite <- Permutation_rev, isort_perm. symmetry. apply Permutation_rev.
  - unfold sorted_by_date.
    apply (StronglySorted_rev (fun a b => geb a b = true)).
    apply isort_contract.
    + intros x y _ _. unfold geb, by_data_venda.
      destruct (ts_leb_total (data_venda x) (data_venda y)); auto.
    + intros x y z _ _ _ Hxy Hyz. unfold geb, by_data_venda in *.
      exact (ts_leb_trans _ _ _ Hyz Hxy).
  - intros t.
    set (probe := {| data_venda := t; cliente := None; vendedor := EmptyString;
                     produto := EmptyString; categoria := EmptyString;
                     fornecedor := EmptyString; quantidade := 0%float;
                     valor_venda := 0%float; valor_custo := 0%float;
                     ano := 0; mes := 0; mes_ano := EmptyString;
                     faturamento := 0%float; custo_total := 0%float;
                     lucro := 0%float; margem_pct := 0%float |}).
    assert (F : forall l',
               filter (fun r => ts_eqb (data_venda r) t) l'
               = filter (fun r => geb r probe && geb probe r) l').
    { intros l'. apply filter_ext. intros r. rewrite ts_eqb_tie.
      unfold geb, by_data_venda. simpl. apply andb_comm. }
    rewrite !F, filter_rev.
    rewrite (isort_keeps_ties geb).
    + now rewrite <- filter_rev, rev_involutive.
    + intros x y z Hxy Hyz. unfold geb, by_data_venda in *.
      exact (ts_leb_trans _ _ _ Hyz Hxy).
Qed.

(** sixteen lines of the same day, told apart by their clients A to P *)
Definition sixteen_lines : list RawRow := firstn 16 eighteen_lines.

Lemma short_files_keep_ties_witness :
  exists ds,
    mapM derive sixteen_lines = Ok ds
    /\ map cliente (prepared aquicksort (Table sixteen_lines))
       = map cliente (map numeric ds)
    /\ Permutation (prepared aquicksort (Table sixteen_lines)) (map numeric ds)
    /\ sorted_by_date (prepared aquicksort (Table sixteen_lines))
    /\ keeps_ties_in_order (map numeric ds)
         (prepared aquicksort (Table sixteen_lines)).
Proof.
  eexists. split; [reflexivity|]. split; [reflexivity|].
  apply (short_files_keep_ties sixteen_lines); [simpl; lia|reflexivity].
Defined.

End ShortColumns.

(* ================================================================== *)
(** * The margin card without revenue *)
(* ================================================================== *)

Module MarginCard.
Import Py F64 Pandas App CardText Kinds Npysort Load Samples.
#[local] Open Scope string_scope.

(** When the total revenue of the filtered rows is not positive - zero,
    negative or NaN - the margin card (line 137) reads 0.0%: the guard of
    line 128 has put 0 in place of the quotient. *)
Theorem margin_card_without_revenue (df : Frame) :
  (0 <? total_faturamento (metrics df))%float = false ->
  card_margem (metrics df) = "0.0%".
Proof.
  unfold card_margem, metrics. simpl. intros ->. reflexivity.
Qed.

Lemma margin_card_without_revenue_witness :
  let df := prepared aquicksort (Table [zero_quantity_line]) in
  total_faturamento (metrics df) = 0%float
  /\ card_margem (metrics df) = "0.0%".
Proof.
  cbv zeta. split; [reflexivity|].
  apply (margin_card_without_revenue
           (prepared aquicksort (Table [zero_quantity_line]))).
  reflexivity.
Defined.

End MarginCard.

(* ================================================================== *)
(** * An empty multiselect *)
(* ================================================================== *)

Module EmptySelection.
Import Py F64 Pandas App Sidebar Kinds Npysort Load Prepared Samples Filters
       Groups MonthKeys SidebarFacts.
#[local] Open Scope string_scope.

(** The criteria [c] with other selections in the five multiselects. *)
Definition with_selections (c : Criteria) (years : list Z)
    (cats sellers suppliers products : list string) : Criteria :=
  {| start_date := start_date c;
     end_date := end_date c;
     selected_years := years;
     selected_cats := cats;
     selected_sellers := sellers;
     selected_suppliers := suppliers;
     selected_products := products;
     client_search := client_search c |}.

(** A multiselect, as the user has left it: nothing selected, or every
    option selected, in whatever order. *)
Definition none_or_all {K} (options selection : list K) : Prop :=
  selection = [] \/ incl options selection.

Lemma selected_none_or_all {K} (eqb : K -> K -> bool) options selection x :
  (forall a b, eqb a b = true <-> a = b) ->
  none_or_all options selection -> In x options ->
  selected eqb selection x = true.
Proof.
  intros Heq [->|Hall] Hin; unfold selected; [reflexivity|].
  rewrite (isin_In eqb selection x Heq (Hall x Hin)). apply orb_true_r.
Qed.

(** Deselecting every option of a multiselect does not empty the page: a
    multiselect with nothing selected filters like one with every option
    selected (lines 96-109).  Whichever of the five multiselects are left
    empty and whichever are left full, the filtered frame is the same. *)
Theorem empty_selection_selects_all (c : Criteria) (df_raw : Frame)
    (years years' : list Z)
    (cats cats' sellers sellers' suppliers suppliers' products products' : list string) :
  none_or_all (all_years df_raw) years -> none_or_all (all_years df_raw) years' ->
  none_or_all (all_cats df_raw) cats -> none_or_all (all_cats df_raw) cats' ->
  none_or_all (all_sellers df_raw) sellers ->
  none_or_all (all_sellers df_raw) sellers' ->
  none_or_all (all_suppliers df_raw) suppliers ->
  none_or_all (all_suppliers df_raw) suppliers' ->
  none_or_all (all_products df_raw) products ->
  none_or_all (all_products df_raw) products' ->
  df_filtered (with_selections c years cats sellers suppliers products) df_raw
  = df_filtered (with_selections c years' cats' sellers' suppliers' products') df_raw.
Proof.
  intros Hy Hy' Hc Hc' Hs Hs' Hf Hf' Hp Hp'.
  destruct (year_options_once df_raw) as (_ & _ & Iy).
  destruct (text_options_once categoria df_raw) as (_ & _ & Ic).
  destruct (text_options_once vendedor df_raw) as (_ & _ & Is).
  destruct (text_options_once fornecedor df_raw) as (_ & _ & If).
  destruct (text_options_once produto df_raw) as (_ & _ & Ip).
  destruct (re_compile (client_search c)) as [p|] eqn:Ep.
  - rewrite (df_filtered_filter (with_selections c years cats sellers suppliers products)
               df_raw p Ep).
    rewrite (df_filtered_filter (with_selections c years' cats' sellers' suppliers' products')
               df_raw p Ep).
    f_equal. apply filter_ext_in. intros r Hr. unfold accepts. simpl.
    rewrite !(selected_none_or_all Z.eqb (all_years df_raw) _ (ano r) Z.eqb_eq)
      by (auto; apply Iy; eauto).
    rewrite !(selected_none_or_all String.eqb (all_cats df_raw) _ (categoria r)
                String.eqb_eq) by (auto; apply Ic; eauto).
    rewrite !(selected_none_or_all String.eqb (all_sellers df_raw) _ (vendedor r)
                String.eqb_eq) by (auto; apply Is; eauto).
    rewrite !(selected_none_or_all String.eqb (all_suppliers df_raw) _ (fornecedor r)
                String.eqb_eq) by (auto; apply If; eauto).
    rewrite !(selected_none_or_all String.eqb (all_products df_raw) _ (produto r)
                String.eqb_eq) by (auto; apply Ip; eauto).
    reflexivity.
  - unfold df_filtered. simpl client_search.
    destruct (client_search c) as [|a s]; [discriminate Ep|]. now rewrite Ep.
Qed.

Lemma empty_selection_selects_all_witness :
  let df := prepared aquicksort (Table [plain_line; zero_quantity_line]) in
  df_filtered (with_selections Further.all_of_2023 [] [] [] [] []) df
  = df_filtered (with_selections Further.all_of_2023 (all_years df) (all_cats df)
                   (all_sellers df) (all_suppliers df) (all_products df)) df.
Proof.
  cbv zeta.
  apply (empty_selection_selects_all Further.all_of_2023
           (prepared aquicksort (Table [plain_line; zero_quantity_line])));
    (now left) || (right; apply incl_refl).
Defined.

End EmptySelection.

(* ================================================================== *)
(** * The card texts: rounding to the cent *)
(* ================================================================== *)

Module CentFacts.
Import Py F64 Pandas App CardText Kinds Npysort Load Samples.
#[local] Open Scope string_scope.
#[local] Open Scope Z_scope.

Lemma round_half_even_nearest num den :
  0 <= num -> 0 < den ->
  2 * Z.abs (round_half_even num den * den - num) <= den
  /\ (2 * Z.abs (round_half_even num den * den - num) = den ->
      Z.even (round_half_even num den) = true).
Proof.
  intros Hn Hd. unfold round_half_even.
  pose proof (Z.div_mod num den ltac:(lia)) as E.
  pose proof (Z.mod_pos_bound num den Hd) as B.
  set (q := num / den) in *. set (r := num mod den) in *.
  destruct (Z.compare_spec (2 * r) den) as [H|H|H].
  - destruct (Z.even q) eqn:Eq.
    + split; [|intros _; exact Eq].
      replace (q * den - num) with (- r) by lia. lia.
    + split.
      * replace ((q + 1) * den - num) with (den - r) by lia. lia.
      * intros _. rewrite Z.even_add, Eq. reflexivity.
  - split.
    + replace (q * den - num) with (- r) by lia. lia.
    + replace (q * den - num) with (- r) by lia. lia.
  - split.
    + replace ((q + 1) * den - num) with (den - r) by lia. lia.
    + replace ((q + 1) * den - num) with (den - r) by lia. lia.
Qed.

(** The amount of a currency card is the float rounded to the cent.  For a
    float [m * 2^e], the text of [f"{x:,.2f}"] is made of the digits of a
    whole number of cents, and this number is the nearest to [100 * m * 2^e]:
    they differ by half a cent at most, and by half a cent only when the
    number of cents is even.  (With [d = 2^(-e)] for a negative [e], and 1
    otherwise, both sides are multiplied by [d] to stay in whole numbers.) *)
Theorem amount_is_rounded_to_the_cent (x : float) (s : bool) (m : positive) (e : Z) :
  Prim2SF x = S754_finite s m e ->
  exists cents,
    format_comma_2f x
    = (sign_text s ++ grouped ","%char (digits (cents / 100))
       ++ String "."%char (last_digits 2 cents))%string
    /\ 2 * Z.abs (cents * 2 ^ Z.max 0 (- e) - 100 * Zpos m * 2 ^ Z.max 0 e)
       <= 2 ^ Z.max 0 (- e)
    /\ (2 * Z.abs (cents * 2 ^ Z.max 0 (- e) - 100 * Zpos m * 2 ^ Z.max 0 e)
        = 2 ^ Z.max 0 (- e) -> Z.even cents = true).
Proof.
  intros H. exists (scaled 2 m e). split.
  - unfold format_comma_2f, format_f_with. rewrite H. reflexivity.
  - unfold scaled. change (10 ^ Z.of_nat 2) with 100.
    destruct (Z.leb_spec 0 e) as [He|He].
    + rewrite (Z.max_l 0 (- e)) by lia. rewrite (Z.max_r 0 e) by lia.
      change (2 ^ 0) with 1.
      replace (Z.pos m * 100 * 2 ^ e * 1 - 100 * Z.pos m * 2 ^ e) with 0 by lia.
      simpl. split; lia.
    + rewrite (Z.max_r 0 (- e)) by lia. rewrite (Z.max_l 0 e) by lia.
      change (2 ^ 0) with 1.
      assert (Hd : 0 < 2 ^ (- e)) by (apply Z.pow_pos_nonneg; lia).
      pose proof (round_half_even_nearest (Z.pos m * 100) (2 ^ (- e))
                    ltac:(lia) Hd) as [H1 H2].
      replace (100 * Z.pos m * 1) with (Z.pos m * 100) by lia.
      split; assumption.
Qed.

(** 0.125: a tie between 12 and 13 cents *)
Lemma amount_is_rounded_to_the_cent_witness :
  Prim2SF 0.125 = S754_finite false 4503599627370496 (-55)
  /\ exists cents,
       format_comma_2f 0.125
       = (sign_text false ++ grouped ","%char (digits (cents / 100))
          ++ String "."%char (last_digits 2 cents))%string
       /\ 2 * Z.abs (cents * 2 ^ Z.max 0 (- -55)
                     - 100 * Zpos 4503599627370496 * 2 ^ Z.max 0 (-55))
          <= 2 ^ Z.max 0 (- -55)
       /\ (2 * Z.abs (cents * 2 ^ Z.max 0 (- -55)
                      - 100 * Zpos 4503599627370496 * 2 ^ Z.max 0 (-55))
           = 2 ^ Z.max 0 (- -55) -> Z.even cents = true).
Proof.
  split; [reflexivity|].
  apply (amount_is_rounded_to_the_cent 0.125 false 4503599627370496 (-55)).
  reflexivity.
Defined.

End CentFacts.
